(** * Node lifecycle orchestration of src/init.cpp

    A shallow embedding of the start-up and shutdown orchestration found in
    [src/init.cpp]: the cache budget computed in [AppInitMain], the
    parameter interaction rules of [InitParameterInteraction], the block
    import thread [ThreadImport], the chain-state load loop of
    [AppInitMain] (step 7b) and the teardown [PrepareShutdown].

    Integers of the source are [Z] with the wrap-around of their width
    written out.  Code that runs for its effects is a function from a state
    record to a result, a new state and the list of events it produced, in
    the small monad [M] below.  Answers of collaborators whose code lives
    outside [init.cpp] (the block database, the file system, the user that
    answers a question box) are fields of the input records. *)

From stdpp Require Import gmap strings list.
From Stdlib Require Import ZArith Lia.
From Stdlib Require Import Ascii.

(* ================================================================= *)
(** ** Machine integers *)

Section MachineIntegers.
Local Open Scope Z_scope.

(** [int64_t]: two's complement wrap-around. *)
Definition wrap64 (z : Z) : Z := (z + 2^63) mod 2^64 - 2^63.

(** [int]: two's complement wrap-around at 32 bits. *)
Definition wrap32 (z : Z) : Z := (z + 2^31) mod 2^32 - 2^31.

(** Conversion to [uint64_t] / [size_t]. *)
Definition u64 (z : Z) : Z := z mod 2^64.

(** [x << 20] on an [int64_t]. *)
Definition shl20 (x : Z) : Z := wrap64 (Z.shiftl x 20).

End MachineIntegers.

(* ================================================================= *)
(** ** Cache budget ([AppInitMain], "cache size calculations") *)

(** The limits come from [txdb.h], which is not among the sources at hand;
    they are taken as parameters (in MiB, as the source has them). *)
Record DbCacheLimits := {
  nDefaultDbCache : Z;
  nMinDbCache : Z;
  nMaxDbCache : Z;
  nMaxBlockDBCache : Z;
  nMaxTxIndexCache : Z;
  max_filter_index_cache : Z;
  nMaxCoinsDBCache : Z }.

(** The partitions the computation hands out, in bytes. *)
Record CacheBudget := {
  nBlockTreeDBCache : Z;
  nTxIndexCache : Z;
  filter_index_cache : Z;
  nCoinDBCache : Z;
  nCoinCacheUsage : Z }.

Section CacheBudgetCode.
Local Open Scope Z_scope.

(** [dbcache] is the value of [gArgs.GetArg("-dbcache", nDefaultDbCache)],
    [txindex] that of [gArgs.GetBoolArg("-txindex", DEFAULT_TXINDEX)] and
    [n_indexes] is [g_enabled_filter_types.size()].  Division is C++
    division ([Z.quot]); the filter share is computed in [size_t]
    arithmetic, as the usual arithmetic conversions make it. *)
Definition cache_budget (L : DbCacheLimits) (dbcache : Z) (txindex : bool)
    (n_indexes : Z) : CacheBudget :=
  let nTotalCache := shl20 dbcache in
  let nTotalCache := Z.max nTotalCache (shl20 (nMinDbCache L)) in
  let nTotalCache := Z.min nTotalCache (shl20 (nMaxDbCache L)) in
  let bt := Z.min (Z.quot nTotalCache 8) (shl20 (nMaxBlockDBCache L)) in
  let nTotalCache := wrap64 (nTotalCache - bt) in
  let tx := Z.min (Z.quot nTotalCache 8)
                  (if txindex then shl20 (nMaxTxIndexCache L) else 0) in
  let nTotalCache := wrap64 (nTotalCache - tx) in
  let '(fi, nTotalCache) :=
    if negb (n_indexes =? 0) then
      let max_cache :=
        Z.min (Z.quot nTotalCache 8) (shl20 (max_filter_index_cache L)) in
      let fi := wrap64 (u64 max_cache / u64 n_indexes) in
      (fi, wrap64 (u64 nTotalCache - u64 (u64 fi * u64 n_indexes)))
    else (0, nTotalCache) in
  let cdb := Z.min (Z.quot nTotalCache 2)
                   (wrap64 (Z.quot nTotalCache 4 + Z.shiftl 1 23)) in
  let cdb := Z.min cdb (shl20 (nMaxCoinsDBCache L)) in
  let nTotalCache := wrap64 (nTotalCache - cdb) in
  {| nBlockTreeDBCache := bt;
     nTxIndexCache := tx;
     filter_index_cache := fi;
     nCoinDBCache := cdb;
     nCoinCacheUsage := nTotalCache |}.

(** The sum of everything handed out: one filter share per enabled filter
    index. *)
Definition budget_sum (n_indexes : Z) (b : CacheBudget) : Z :=
  nBlockTreeDBCache b + nTxIndexCache b + filter_index_cache b * n_indexes
  + nCoinDBCache b + nCoinCacheUsage b.

(** What the limits must satisfy for the shifts not to leave [int64_t]. *)
Definition limits_ok (L : DbCacheLimits) : Prop :=
  0 <= nMinDbCache L <= nMaxDbCache L /\ nMaxDbCache L < 2^43 /\
  0 <= nMaxBlockDBCache L < 2^43 /\
  0 <= nMaxTxIndexCache L < 2^43 /\
  0 <= max_filter_index_cache L < 2^43 /\
  0 <= nMaxCoinsDBCache L < 2^43.

(** The values [txdb.h] gives upstream (64-bit build), used as an example. *)
Definition upstream_limits : DbCacheLimits :=
  {| nDefaultDbCache := 300; nMinDbCache := 4; nMaxDbCache := 16384;
     nMaxBlockDBCache := 2; nMaxTxIndexCache := 1024;
     max_filter_index_cache := 1024; nMaxCoinsDBCache := 8 |}.

End CacheBudgetCode.

(* ================================================================= *)
(** ** A state-and-trace monad for the effectful code *)

Definition M (S E A : Type) : Type := S -> A * S * list E.

Definition result {S E A} (c : M S E A) (s : S) : A := fst (fst (c s)).
Definition exec {S E A} (c : M S E A) (s : S) : S := snd (fst (c s)).
Definition trace {S E A} (c : M S E A) (s : S) : list E := snd (c s).

Definition ret {S E A} (a : A) : M S E A := fun s => (a, s, []).

Definition bind {S E A B} (c : M S E A) (k : A -> M S E B) : M S E B :=
  fun s =>
    let r1 := c s in
    let r2 := k (fst (fst r1)) (snd (fst r1)) in
    (fst (fst r2), snd (fst r2), snd r1 ++ snd r2).

Definition emit {S E} (e : E) : M S E unit := fun s => (tt, s, [e]).
Definition gets {S E A} (f : S -> A) : M S E A := fun s => (f s, s, []).
Definition modify {S E} (f : S -> S) : M S E unit := fun s => (tt, f s, []).

(** [if (b) c;] *)
Definition when {S E} (b : bool) (c : M S E unit) : M S E unit :=
  if b then c else ret tt.

Declare Scope code_scope.
Delimit Scope code_scope with code.
Notation "x <- c ;; k" := (bind c (fun x => k))
  (at level 100, c at next level, right associativity) : code_scope.
Notation "c ;; k" := (bind c (fun _ => k))
  (at level 100, right associativity) : code_scope.

(* ================================================================= *)
(** ** The argument store *)

(** Modelled from the spec: the argument manager ([ArgsManager], file
    [util/system.cpp]) is not among the sources at hand.  The spec calls
    the configuration "a flat namespace of named options" in which "each
    option has a documented default and may be overridden by command line
    or config file", and has parameter interaction resolve conflicts by
    precedence rules; [init.cpp] uses it through [IsArgSet], [GetArg],
    [GetBoolArg], [SoftSetBoolArg] (whose result tells whether the value
    was set, that is whether the option carried no value yet) and
    [ForceSetArg].  An option is set when the store binds its name. *)
Abbreviation Args := (gmap string string).

Section NumberParsing.
Local Open Scope Z_scope.

Definition is_space (c : ascii) : bool :=
  let n := Z.of_nat (nat_of_ascii c) in (n =? 32) || ((9 <=? n) && (n <=? 13)).

Definition digit_of (c : ascii) : option Z :=
  let n := Z.of_nat (nat_of_ascii c) in
  if (48 <=? n) && (n <=? 57) then Some (n - 48) else None.

Fixpoint skip_spaces (s : string) : string :=
  match s with
  | String c r => if is_space c then skip_spaces r else s
  | EmptyString => s
  end.

Fixpoint digits_value (s : string) (acc : Z) : Z :=
  match s with
  | String c r =>
      match digit_of c with
      | Some d => digits_value r (10 * acc + d)
      | None => acc
      end
  | EmptyString => acc
  end.

(** [strtoll(str, nullptr, 10)]: optional blanks, optional sign, digits;
    out-of-range values saturate. *)
Definition strtoll (s : string) : Z :=
  let v :=
    match skip_spaces s with
    | String "-"%char r => - digits_value r 0
    | String "+"%char r => digits_value r 0
    | r => digits_value r 0
    end in
  Z.max (- 2^63) (Z.min (2^63 - 1) v).

Definition atoi64 (s : string) : Z := strtoll s.
Definition atoi (s : string) : Z := wrap32 (strtoll s).

End NumberParsing.

Definition InterpretBool (v : string) : bool :=
  match v with
  | EmptyString => true
  | _ => negb (Z.eqb (atoi v) 0)
  end.

Definition IsArgSet (a : Args) (k : string) : bool :=
  bool_decide (is_Some (a !! k)).

Definition GetBoolArg (a : Args) (k : string) (fDefault : bool) : bool :=
  match a !! k with
  | Some v => InterpretBool v
  | None => fDefault
  end.

Definition GetArg (a : Args) (k : string) (nDefault : Z) : Z :=
  match a !! k with
  | Some v => atoi64 v
  | None => nDefault
  end.

Definition bool_arg (fValue : bool) : string := if fValue then "1" else "0".

Definition SoftSetBoolArg (k : string) (fValue : bool) : M Args string bool :=
  fun a =>
    if IsArgSet a k then (false, a, [])
    else (true, <[k := bool_arg fValue]> a, []).

Definition ForceSetArg (k v : string) : M Args string unit :=
  modify (fun a => <[k := v]> a).

(* ================================================================= *)
(** ** [InitParameterInteraction] *)

(** Defaults declared in headers that are not among the sources at hand. *)
Record Defaults := {
  DEFAULT_LISTEN : bool;
  DEFAULT_BLOCKSONLY : bool;
  DEFAULT_WHITELISTFORCERELAY : bool;
  DEFAULT_ADDRESSINDEX : bool;
  DEFAULT_SPENTINDEX : bool;
  DEFAULT_TIMESTAMPINDEX : bool;
  DEFAULT_CHECKLEVEL : Z }.

Section ParameterInteraction.
Local Open Scope code_scope.

(** [if (gArgs.SoftSetBoolArg(k, v)) LogPrintf(msg);] *)
Definition soft_set (k : string) (fValue : bool) (msg : string)
    : M Args string unit :=
  b <- SoftSetBoolArg k fValue ;; when b (emit msg).

Definition pi_bind : M Args string unit :=
  a <- gets id ;;
  when (IsArgSet a "-bind")
    (soft_set "-listen" true "-bind set -> setting -listen=1").

Definition pi_whitebind : M Args string unit :=
  a <- gets id ;;
  when (IsArgSet a "-whitebind")
    (soft_set "-listen" true "-whitebind set -> setting -listen=1").

Definition pi_connect : M Args string unit :=
  a <- gets id ;;
  when (IsArgSet a "-connect")
    (soft_set "-dnsseed" false "-connect set -> setting -dnsseed=0" ;;
     soft_set "-listen" false "-connect set -> setting -listen=0").

Definition pi_proxy : M Args string unit :=
  a <- gets id ;;
  when (IsArgSet a "-proxy")
    (soft_set "-listen" false "-proxy set -> setting -listen=0" ;;
     soft_set "-upnp" false "-proxy set -> setting -upnp=0" ;;
     soft_set "-natpmp" false "-proxy set -> setting -natpmp=0" ;;
     soft_set "-discover" false "-proxy set -> setting -discover=0").

Definition pi_nolisten (D : Defaults) : M Args string unit :=
  a <- gets id ;;
  when (negb (GetBoolArg a "-listen" (DEFAULT_LISTEN D)))
    (soft_set "-upnp" false "-listen=0 -> setting -upnp=0" ;;
     soft_set "-natpmp" false "-listen=0 -> setting -natpmp=0" ;;
     soft_set "-discover" false "-listen=0 -> setting -discover=0" ;;
     soft_set "-listenonion" false "-listen=0 -> setting -listenonion=0").

Definition pi_externalip : M Args string unit :=
  a <- gets id ;;
  when (IsArgSet a "-externalip")
    (soft_set "-discover" false "-externalip set -> setting -discover=0").

Definition pi_blocksonly (D : Defaults) : M Args string unit :=
  a <- gets id ;;
  when (GetBoolArg a "-blocksonly" (DEFAULT_BLOCKSONLY D))
    (soft_set "-whitelistrelay" false
       "-blocksonly=1 -> setting -whitelistrelay=0").

Definition pi_forcerelay (D : Defaults) : M Args string unit :=
  a <- gets id ;;
  when (GetBoolArg a "-whitelistforcerelay" (DEFAULT_WHITELISTFORCERELAY D))
    (soft_set "-whitelistrelay" true
       "-whitelistforcerelay=1 -> setting -whitelistrelay=1").

Definition pi_prune : M Args string unit :=
  a <- gets id ;;
  let nPruneArg := GetArg a "-prune" 0 in
  when (Z.ltb 0 nPruneArg)
    (soft_set "-disablegovernance" true
       "-prune=%d -> setting -disablegovernance=true" ;;
     soft_set "-txindex" false "-prune=%d -> setting -txindex=false").

Definition pi_indexes (D : Defaults) : M Args string unit :=
  a <- gets id ;;
  let fAdditionalIndexes :=
    GetBoolArg a "-addressindex" (DEFAULT_ADDRESSINDEX D) ||
    GetBoolArg a "-spentindex" (DEFAULT_SPENTINDEX D) ||
    GetBoolArg a "-timestampindex" (DEFAULT_TIMESTAMPINDEX D) in
  when (fAdditionalIndexes &&
        Z.ltb (GetArg a "-checklevel" (DEFAULT_CHECKLEVEL D)) 4)
    (ForceSetArg "-checklevel" "4" ;;
     emit "additional indexes -> setting -checklevel=4").

Definition pi_masternode : M Args string unit :=
  a <- gets id ;;
  if IsArgSet a "-masternodeblsprivkey" then
    soft_set "-disablewallet" true
      "-masternodeblsprivkey set -> setting -disablewallet=1"
  else ret tt.

(** The rules in the order of the source; each definition above is one
    [if] block of the function. *)
Definition InitParameterInteraction (D : Defaults) : M Args string unit :=
  pi_bind ;;
  pi_whitebind ;;
  pi_connect ;;
  pi_proxy ;;
  pi_nolisten D ;;
  pi_externalip ;;
  pi_blocksonly D ;;
  pi_forcerelay D ;;
  pi_prune ;;
  pi_indexes D ;;
  pi_masternode.

(** The listen option as the rest of start-up reads it. *)
Definition listen_after (D : Defaults) (a : Args) : bool :=
  GetBoolArg (exec (InitParameterInteraction D) a) "-listen" (DEFAULT_LISTEN D).

End ParameterInteraction.

(** Default values as upstream declares them, used in examples. *)
Definition example_defaults : Defaults :=
  {| DEFAULT_LISTEN := true; DEFAULT_BLOCKSONLY := false;
     DEFAULT_WHITELISTFORCERELAY := true; DEFAULT_ADDRESSINDEX := false;
     DEFAULT_SPENTINDEX := false; DEFAULT_TIMESTAMPINDEX := false;
     DEFAULT_CHECKLEVEL := 3%Z |}.

(* ================================================================= *)
(** ** [ThreadImport] *)

(** A block file [blk?????.dat] as the reindex loop meets it:
    [fs::exists] fails, [OpenBlockFile] fails, or the file is replayed.
    [arrives] tells whether a shutdown request arrives while the file is
    being replayed. *)
Inductive BlkFile :=
  | BlkMissing
  | BlkUnopenable
  | BlkReadable (arrives : bool).

(** [$DATADIR/bootstrap.dat]: absent, present but [fopen] fails, or
    replayed; [rename_ok] is the result of [RenameOver]. *)
Inductive BootstrapFile :=
  | BootAbsent
  | BootUnopenable
  | BootReadable (arrives : bool) (rename_ok : bool).

(** One [-loadblock=] entry of [vImportFiles]. *)
Record ImportFile := {
  path : string;
  can_open : bool;
  arrives_during : bool }.

(** What the thread finds outside of itself. *)
Record ImportEnv := {
  blockfiles : list BlkFile;          (* blk00000.dat, blk00001.dat, ... *)
  pathBootstrap : BootstrapFile;
  ActivateBestChain_ok : bool;
  stopafterblockimport : bool;
  fMasternodeMode_import : bool;
  persistmempool_import : bool }.

(** The globals the thread reads and writes. *)
Record ImportState := {
  fReindex : bool;                    (* the in-memory flag *)
  reindexing_on_disk : bool;          (* the flag WriteReindexing stores *)
  fRequestShutdown : bool;            (* ShutdownRequested() *)
  mempool_is_loaded : bool }.

Inductive ImportSource :=
  | SrcBlockFile (nFile : nat)
  | SrcBootstrap
  | SrcLoadBlock (p : string).

Inductive ImportEvent :=
  | EvLoadExternalBlockFile (src : ImportSource)
  | EvWarningCouldNotOpen (src : ImportSource)
  | EvWriteReindexing (b : bool)
  | EvLoadGenesisBlock
  | EvRenameBootstrap
  | EvActivateBestChain
  | EvStartShutdown
  | EvLog (msg : string)
  | EvInitializeCurrentBlockTip
  | EvFillCoinCache
  | EvActiveMasternodeInit
  | EvAutoLockMasternodeCollaterals
  | EvLoadMempool.

(** How the thread function is left. *)
Inductive ImportExit :=
  | ExitShutdownRequested             (* "Shutdown requested. Exit" *)
  | ExitRenameFailed                  (* throw std::runtime_error *)
  | ExitBestChainFailed
  | ExitStopAfterImport
  | ExitDone.

(** Assignments to the globals. *)
Definition set_fReindex {E} (b : bool) : M ImportState E unit :=
  modify (fun s =>
    {| fReindex := b;
       reindexing_on_disk := reindexing_on_disk s;
       fRequestShutdown := fRequestShutdown s;
       mempool_is_loaded := mempool_is_loaded s |}).

Definition set_reindexing_on_disk {E} (b : bool) : M ImportState E unit :=
  modify (fun s =>
    {| fReindex := fReindex s;
       reindexing_on_disk := b;
       fRequestShutdown := fRequestShutdown s;
       mempool_is_loaded := mempool_is_loaded s |}).

Definition set_fRequestShutdown {E} (b : bool) : M ImportState E unit :=
  modify (fun s =>
    {| fReindex := fReindex s;
       reindexing_on_disk := reindexing_on_disk s;
       fRequestShutdown := b;
       mempool_is_loaded := mempool_is_loaded s |}).

(** A shutdown request arriving from another thread or a signal handler:
    the flag is raised if [b] holds and is never lowered. *)
Definition signal_arrives {E} (b : bool) : M ImportState E unit :=
  modify (fun s =>
    {| fReindex := fReindex s;
       reindexing_on_disk := reindexing_on_disk s;
       fRequestShutdown := fRequestShutdown s || b;
       mempool_is_loaded := mempool_is_loaded s |}).

Section ThreadImportCode.
Local Open Scope code_scope.

Abbreviation IM := (M ImportState ImportEvent).

(** A phase either leaves the function ([Some e]) or falls through. *)
Definition andthen {X} (c k : IM (option X)) : IM (option X) :=
  r <- c ;;
  match r with
  | Some e => ret (Some e)
  | None => k
  end.

Definition StartShutdown : IM unit :=
  emit EvStartShutdown ;; set_fRequestShutdown true.

(** [LoadExternalBlockFile] on a source, during which a shutdown request
    may arrive. *)
Definition replay (src : ImportSource) (arrives : bool) : IM unit :=
  emit (EvLoadExternalBlockFile src) ;; signal_arrives arrives.

(** The [while (true)] loop of the [-reindex] branch.  [files] are the
    block files from number [nFile] on; past the end of the list no file
    exists. *)
Fixpoint reindex_loop (files : list BlkFile) (nFile : nat)
    : IM (option ImportExit) :=
  match files with
  | [] => ret None                               (* !fs::exists: break *)
  | BlkMissing :: _ => ret None                  (* !fs::exists: break *)
  | BlkUnopenable :: _ => ret None               (* !file: break *)
  | BlkReadable arrives :: rest =>
      emit (EvLog "Reindexing block file") ;;
      replay (SrcBlockFile nFile) arrives ;;
      stop <- gets fRequestShutdown ;;
      if stop then
        emit (EvLog "Shutdown requested. Exit") ;;
        ret (Some ExitShutdownRequested)
      else reindex_loop rest (S nFile)
  end.

(** [pblocktree->WriteReindexing(false); fReindex = false;] *)
Definition finish_reindex : IM unit :=
  emit (EvWriteReindexing false) ;;
  set_reindexing_on_disk false ;;
  set_fReindex false ;;
  emit (EvLog "Reindexing finished") ;;
  emit EvLoadGenesisBlock.

(** [if (fReindex) { ... }] *)
Definition reindex_phase (env : ImportEnv) : IM (option ImportExit) :=
  f <- gets fReindex ;;
  if f then
    andthen (reindex_loop (blockfiles env) 0)
            (finish_reindex ;; ret None)
  else ret None.

(** The hardcoded [$DATADIR/bootstrap.dat]. *)
Definition bootstrap_phase (env : ImportEnv) : IM (option ImportExit) :=
  match pathBootstrap env with
  | BootAbsent => ret None
  | BootUnopenable =>
      emit (EvWarningCouldNotOpen SrcBootstrap) ;; ret None
  | BootReadable arrives rename_ok =>
      emit (EvLog "Importing bootstrap.dat...") ;;
      replay SrcBootstrap arrives ;;
      if rename_ok then emit EvRenameBootstrap ;; ret None
      else ret (Some ExitRenameFailed)
  end.

(** The [-loadblock=] loop over [vImportFiles]. *)
Fixpoint loadblock_phase (vImportFiles : list ImportFile)
    : IM (option ImportExit) :=
  match vImportFiles with
  | [] => ret None
  | f :: rest =>
      if can_open f then
        emit (EvLog "Importing blocks file") ;;
        replay (SrcLoadBlock (path f)) (arrives_during f) ;;
        stop <- gets fRequestShutdown ;;
        if stop then
          emit (EvLog "Shutdown requested. Exit") ;;
          ret (Some ExitShutdownRequested)
        else loadblock_phase rest
      else
        emit (EvWarningCouldNotOpen (SrcLoadBlock (path f))) ;;
        loadblock_phase rest
  end.

(** All import sources, in the order of the source. *)
Definition import_sources (env : ImportEnv) (vImportFiles : list ImportFile)
    : IM (option ImportExit) :=
  andthen (reindex_phase env)
    (andthen (bootstrap_phase env) (loadblock_phase vImportFiles)).

(** What follows the scope of [CImportingNow]. *)
Definition after_import (env : ImportEnv) : IM ImportExit :=
  emit EvInitializeCurrentBlockTip ;;
  emit EvFillCoinCache ;;
  when (fMasternodeMode_import env) (emit EvActiveMasternodeInit) ;;
  emit EvAutoLockMasternodeCollaterals ;;
  when (persistmempool_import env) (emit EvLoadMempool) ;;
  modify (fun s =>
    {| fReindex := fReindex s;
       reindexing_on_disk := reindexing_on_disk s;
       fRequestShutdown := fRequestShutdown s;
       mempool_is_loaded := negb (fRequestShutdown s) |}) ;;
  ret ExitDone.

(** The part from [ActivateBestChain] on. *)
Definition activate_and_finish (env : ImportEnv) : IM ImportExit :=
  emit EvActivateBestChain ;;
  if negb (ActivateBestChain_ok env) then
    emit (EvLog "Failed to connect best block") ;;
    StartShutdown ;;
    ret ExitBestChainFailed
  else if stopafterblockimport env then
    emit (EvLog "Stopping after block import") ;;
    StartShutdown ;;
    ret ExitStopAfterImport
  else after_import env.

Definition ThreadImport (env : ImportEnv) (vImportFiles : list ImportFile)
    : IM ImportExit :=
  r <- import_sources env vImportFiles ;;
  match r with
  | Some e => ret e
  | None => activate_and_finish env
  end.

End ThreadImportCode.

(* ================================================================= *)
(** ** The chain-state load loop of [AppInitMain] (step 7b) *)

(** Settings that stay the same over the attempts of one start-up. *)
Record LoadConfig := {
  arg_reindex : bool;                 (* -reindex *)
  fReindexChainState : bool;          (* -reindex-chainstate *)
  fPruneMode : bool;
  fDisableGovernance_load : bool;
  arg_txindex : bool;
  is_regtest : bool;
  devnet_genesis_null : bool;         (* hashDevnetGenesisBlock.IsNull() *)
  arg_addressindex : bool;
  arg_timestampindex : bool;
  arg_spentindex : bool;
  arg_checklevel : Z }.

(** The calls made inside the [try] block of the [do] body, in the order
    of the source.  Each of them may throw, which takes the pass to the
    [catch] clause.  The tests on values held in memory (the block index
    map, the arguments, the tip) are taken not to throw. *)
Inductive TryCall :=
  | CallUnloadBlockIndex      (* MakeUnique<CChainState>(), UnloadBlockIndex() *)
  | CallNewBlockTreeDB        (* new CBlockTreeDB(nBlockTreeDBCache, false, fReset) *)
  | CallDestroyLLMQSystem
  | CallNewEvoDB              (* new CEvoDB(nEvoDbCache, false, fReset || fReindexChainState) *)
  | CallNewDeterministicMNManager
  | CallNewQuorumSnapshotManager
  | CallInitLLMQSystem
  | CallWriteReindexing
  | CallCleanupBlockRevFiles
  | CallLoadBlockIndex
  | CallLoadGenesisBlock
  | CallInitCoinsDB
  | CallUpgrade
  | CallReplayBlocks
  | CallInitCoinsCache
  | CallCommitRootTransaction
  | CallGetBestBlock          (* CoinsTip().GetBestBlock() *)
  | CallLoadChainTip
  | CallEvoDbIsEmpty          (* evoDb->IsEmpty() *)
  | CallUpgradeEvoDb          (* UpgradeDBIfNeeded(), quorumBlockProcessor->UpgradeDB() *)
  | CallVerifyDB
  | CallResetBlockFailureFlags.

(** What one pass through the [do { ... } while(false)] body finds: the
    answers of the databases and of the user, the calls that throw, and the
    moments at which a shutdown request arrives.  [thrown_late] tells
    whether a call that throws has had its effect by then (the store wiped,
    the marker written, the flag read) or none of it.  [fAddressIndex] to
    [fHavePruned] are the globals as [LoadBlockIndex] leaves them, that is
    the flags persisted with the block index. *)
Record LoadAttempt := {
  arrives_before_attempt : bool;
  throws : TryCall -> bool;
  thrown_late : bool;
  arrives_during_open : bool;
  LoadBlockIndex_ok : bool;
  arrives_during_LoadBlockIndex : bool;
  fAddressIndex : bool;
  fTimestampIndex : bool;
  fSpentIndex : bool;
  fHavePruned : bool;
  block_index_empty : bool;
  has_genesis : bool;
  has_devnet_genesis : bool;
  LoadGenesisBlock_ok : bool;
  Upgrade_ok : bool;
  ReplayBlocks_ok : bool;
  CommitRootTransaction_ok : bool;
  best_block_null : bool;
  LoadChainTip_ok : bool;
  evoDb_IsEmpty : bool;
  UpgradeDBIfNeeded_ok : bool;
  quorum_UpgradeDB_ok : bool;
  tip_from_future : bool;
  VerifyDB_ok : bool;
  arrives_late : bool;
  user_accepts : bool }.              (* uiInterface.ThreadSafeQuestion *)

Inductive LoadEvent :=
  | LdLoadingBlockIndex                 (* InitMessage("Loading block index...") *)
  | LdOpenBlockTree (fWipe : bool)
  | LdOpenEvoDb (fWipe : bool)
  | LdInitLLMQSystem (fWipe : bool)
  | LdWriteReindexing (b : bool)
  | LdCleanupBlockRevFiles
  | LdLoadBlockIndex
  | LdLoadGenesisBlock
  | LdInitCoinsDB (should_wipe : bool)
  | LdUpgrade
  | LdReplayBlocks
  | LdInitCoinsCache
  | LdCommitRootTransaction
  | LdLoadChainTip
  | LdUpgradeEvoDb
  | LdVerifyDB
  | LdResetBlockFailureFlags
  | LdQuestion (strLoadError : string)
  | LdAbortShutdown
  | LdInitError (msg : string)
  | LdLog (msg : string)
  | LdExceptionLogged.                  (* LogPrintf("%s\n", e.what()) *)

(** How the body of the [do] block is left. *)
Inductive AttemptOutcome :=
  | AttLoaded                               (* fLoaded = true *)
  | AttBreak (strLoadError : string)        (* break *)
  | AttInitError (msg : string).            (* return InitError(msg) *)

Inductive FailReason :=
  | FailInitError (msg : string)            (* return InitError(msg) *)
  | FailDeclined                            (* rebuild declined *)
  | FailShutdown.                           (* shutdown requested *)

(** How the [while] loop is left: through its condition, through a
    [return false] inside it, or not at all within the fuel given. *)
Inductive LoopExit :=
  | LoopLeft (fLoaded : bool)
  | LoopReturned (why : FailReason)
  | LoopOutOfFuel.

(** The result of step 7b: start-up goes on, or [AppInitMain] returns
    false. *)
Inductive LoadResult :=
  | LoadSucceeded
  | LoadReturnedFalse (why : FailReason)
  | LoadOutOfFuel.

Definition msg_addressindex : string :=
  "You need to rebuild the database using -reindex to change -addressindex".
Definition msg_timestampindex : string :=
  "You need to rebuild the database using -reindex to change -timestampindex".
Definition msg_spentindex : string :=
  "You need to rebuild the database using -reindex to change -spentindex".
Definition msg_unpruned : string :=
  "You need to rebuild the database using -reindex to go back to unpruned mode.  This will redownload the entire blockchain".
Definition msg_governance_txindex : string :=
  "Transaction index can't be disabled with governance validation enabled. Either start with -disablegovernance command line switch or enable transaction index.".
Definition msg_wrong_genesis : string :=
  "Incorrect or no genesis block found. Wrong datadir for network?".
Definition msg_wrong_devnet_genesis : string :=
  "Incorrect or no devnet genesis block found. Wrong datadir for devnet specified?".

(** The four texts that ask for a rebuild because of a changed flag. *)
Definition rebuild_required (msg : string) : Prop :=
  msg = msg_addressindex \/ msg = msg_timestampindex \/
  msg = msg_spentindex \/ msg = msg_unpruned.

Section LoadLoopCode.
Local Open Scope code_scope.

Abbreviation LM := (M ImportState LoadEvent).

(** [pblocktree.reset(new CBlockTreeDB(nBlockTreeDBCache, false, fReset))]:
    with [fReset] the store is deleted and created anew, so that whatever
    flag it held is gone. *)
Definition open_blocktree (fReset : bool) : LM unit :=
  emit (LdOpenBlockTree fReset) ;;
  when fReset (set_reindexing_on_disk false).

(** [pblocktree->WriteReindexing(b)] *)
Definition WriteReindexing (b : bool) : LM unit :=
  emit (LdWriteReindexing b) ;; set_reindexing_on_disk b.

(** [LoadBlockIndex]: "Note that it also sets fReindex based on the disk
    flag!" *)
Definition LoadBlockIndex : LM unit :=
  emit LdLoadBlockIndex ;;
  modify (fun s =>
    {| fReindex := fReindex s || reindexing_on_disk s;
       reindexing_on_disk := reindexing_on_disk s;
       fRequestShutdown := fRequestShutdown s;
       mempool_is_loaded := mempool_is_loaded s |}).

(** The [catch] clause of the [do] body: the exception is logged and the
    pass is left by [break] with its own load error. *)
Definition caught : LM AttemptOutcome :=
  emit LdExceptionLogged ;; ret (AttBreak "Error opening block database").

(** A call inside the [try] block, and what follows it there.  A call that
    throws takes the pass to the [catch] clause, after its effect or
    before. *)
Definition try_call (env : LoadAttempt) (c : TryCall) (call : LM unit)
    (k : LM AttemptOutcome) : LM AttemptOutcome :=
  if throws env c then when (thrown_late env) call ;; caught
  else call ;; k.

(** The end of the [try] block, from the upgrade of the evo database on. *)
Definition verify_chain (cfg : LoadConfig) (env : LoadAttempt)
    (is_coinsview_empty : bool) : LM AttemptOutcome :=
  try_call env CallUpgradeEvoDb (emit LdUpgradeEvoDb) $
  if negb (UpgradeDBIfNeeded_ok env) || negb (quorum_UpgradeDB_ok env) then
    ret (AttBreak "Error upgrading evo database")
  else
  if negb is_coinsview_empty then
    if tip_from_future env then
      ret (AttBreak "The block database contains a block which appears to be from the future. This may be due to your computer's date and time being set incorrectly. Only rebuild the block database if you are sure that your computer's date and time are correct")
    else
    try_call env CallVerifyDB (emit LdVerifyDB) $
    if negb (VerifyDB_ok env) then
      ret (AttBreak "Corrupted block database detected")
    else
    if Z.leb 3 (arg_checklevel cfg) then
      try_call env CallResetBlockFailureFlags (emit LdResetBlockFailureFlags) $
      ret AttLoaded
    else ret AttLoaded
  else ret AttLoaded.

(** From [is_coinsview_empty = ...] to the test of [evoDb->IsEmpty()]. *)
Definition load_chain_tip (cfg : LoadConfig) (env : LoadAttempt)
    (is_coinsview_empty : bool) : LM AttemptOutcome :=
  let check_evo_db :=
    if is_coinsview_empty then
      try_call env CallEvoDbIsEmpty (ret tt) $
      if negb (evoDb_IsEmpty env) then
        ret (AttBreak "Error initializing block database")
      else verify_chain cfg env is_coinsview_empty
    else verify_chain cfg env is_coinsview_empty in
  if negb is_coinsview_empty then
    try_call env CallLoadChainTip (emit LdLoadChainTip) $
    if negb (LoadChainTip_ok env) then
      ret (AttBreak "Error initializing block database")
    else check_evo_db
  else check_evo_db.

(** The statements of the [do] body from the opening of the coin database
    on. *)
Definition load_coins (cfg : LoadConfig) (env : LoadAttempt) (fReset : bool)
    : LM AttemptOutcome :=
  try_call env CallInitCoinsDB
    (emit (LdInitCoinsDB (fReset || fReindexChainState cfg))) $
  try_call env CallUpgrade (emit LdUpgrade) $
  if negb (Upgrade_ok env) then
    ret (AttBreak "Error upgrading chainstate database")
  else
  try_call env CallReplayBlocks (emit LdReplayBlocks) $
  if negb (ReplayBlocks_ok env) then
    ret (AttBreak "Unable to replay blocks. You will need to rebuild the database using -reindex-chainstate.")
  else
  try_call env CallInitCoinsCache (emit LdInitCoinsCache) $
  try_call env CallCommitRootTransaction (emit LdCommitRootTransaction) $
  if negb (CommitRootTransaction_ok env) then
    ret (AttBreak "Failed to commit EvoDB")
  else
  if fReset || fReindexChainState cfg then load_chain_tip cfg env true
  else
    try_call env CallGetBestBlock (ret tt) $
    load_chain_tip cfg env (best_block_null env).

(** The checks between [LoadBlockIndex] and the coin database. *)
Definition check_block_index (cfg : LoadConfig) (env : LoadAttempt)
    (fReset : bool) : LM AttemptOutcome :=
  if negb (fDisableGovernance_load cfg) && negb (arg_txindex cfg)
     && negb (is_regtest cfg) then
    ret (AttInitError msg_governance_txindex)
  else
  if negb (block_index_empty env) && negb (has_genesis env) then
    ret (AttInitError msg_wrong_genesis)
  else
  if negb (devnet_genesis_null cfg) && negb (block_index_empty env)
     && negb (has_devnet_genesis env) then
    ret (AttInitError msg_wrong_devnet_genesis)
  else
  if negb (Bool.eqb (fAddressIndex env) (arg_addressindex cfg)) then
    ret (AttBreak msg_addressindex)
  else
  if negb (Bool.eqb (fTimestampIndex env) (arg_timestampindex cfg)) then
    ret (AttBreak msg_timestampindex)
  else
  if negb (Bool.eqb (fSpentIndex env) (arg_spentindex cfg)) then
    ret (AttBreak msg_spentindex)
  else
  if fHavePruned env && negb (fPruneMode cfg) then
    ret (AttBreak msg_unpruned)
  else
  fReindexNow <- gets fReindex ;;
  if negb fReindexNow then
    try_call env CallLoadGenesisBlock (emit LdLoadGenesisBlock) $
    if negb (LoadGenesisBlock_ok env) then
      ret (AttBreak "Error initializing block database")
    else load_coins cfg env fReset
  else load_coins cfg env fReset.

(** The [do] body from [if (ShutdownRequested()) break;] to the checks on
    the block index. *)
Definition load_block_index (cfg : LoadConfig) (env : LoadAttempt)
    (fReset : bool) : LM AttemptOutcome :=
  signal_arrives (arrives_during_open env) ;;
  stop <- gets fRequestShutdown ;;
  if stop then ret (AttBreak "") else
  try_call env CallLoadBlockIndex LoadBlockIndex $
  (signal_arrives (arrives_during_LoadBlockIndex env) ;;
   if negb (LoadBlockIndex_ok env) then
     stop <- gets fRequestShutdown ;;
     if stop then ret (AttBreak "")
     else ret (AttBreak "Error loading block database")
   else check_block_index cfg env fReset).

(** The body of [do { ... } while(false)], with its [try]/[catch]: the
    databases are opened anew, wiped when [fReset] holds, the marker is
    written for a reindex, and the block index is loaded and checked. *)
Definition load_attempt (cfg : LoadConfig) (env : LoadAttempt) (fReset : bool)
    : LM AttemptOutcome :=
  let fWipe := fReset || fReindexChainState cfg in
  try_call env CallUnloadBlockIndex (ret tt) $
  try_call env CallNewBlockTreeDB (open_blocktree fReset) $
  try_call env CallDestroyLLMQSystem (ret tt) $
  try_call env CallNewEvoDB (emit (LdOpenEvoDb fWipe)) $
  try_call env CallNewDeterministicMNManager (ret tt) $
  try_call env CallNewQuorumSnapshotManager (ret tt) $
  try_call env CallInitLLMQSystem (emit (LdInitLLMQSystem fWipe)) $
  if fReset then
    try_call env CallWriteReindexing (WriteReindexing true) $
    if fPruneMode cfg then
      try_call env CallCleanupBlockRevFiles (emit LdCleanupBlockRevFiles) $
      load_block_index cfg env fReset
    else load_block_index cfg env fReset
  else load_block_index cfg env fReset.

(** The [while (!fLoaded && !ShutdownRequested())] loop.  [envs n] is what
    the [n]-th pass finds.  [LoopLeft fLoaded] stands for leaving the loop
    through its condition. *)
Fixpoint load_loop (fuel : nat) (cfg : LoadConfig) (envs : nat -> LoadAttempt)
    (n : nat) : LM LoopExit :=
  match fuel with
  | O => ret LoopOutOfFuel
  | S fuel' =>
      let env := envs n in
      signal_arrives (arrives_before_attempt env) ;;
      stop <- gets fRequestShutdown ;;
      if stop then ret (LoopLeft false) else
      fReset <- gets fReindex ;;
      emit LdLoadingBlockIndex ;;
      o <- load_attempt cfg env fReset ;;
      match o with
      | AttInitError msg =>
          emit (LdInitError msg) ;; ret (LoopReturned (FailInitError msg))
      | AttLoaded =>
          signal_arrives (arrives_late env) ;;
          ret (LoopLeft true)
      | AttBreak strLoadError =>
          signal_arrives (arrives_late env) ;;
          stop <- gets fRequestShutdown ;;
          if stop then load_loop fuel' cfg envs (S n) else
          if negb fReset then
            emit (LdQuestion strLoadError) ;;
            if user_accepts env then
              set_fReindex true ;;
              emit LdAbortShutdown ;;
              set_fRequestShutdown false ;;
              load_loop fuel' cfg envs (S n)
            else
              emit (LdLog "Aborted block database rebuild. Exiting.") ;;
              ret (LoopReturned FailDeclined)
          else
            emit (LdInitError strLoadError) ;;
            ret (LoopReturned (FailInitError strLoadError))
      end
  end.

(** Step 7b from [fReindex = gArgs.GetBoolArg("-reindex", false)] to the
    test [if (ShutdownRequested())] that follows the loop. *)
Definition load_chain_state (fuel : nat) (cfg : LoadConfig)
    (envs : nat -> LoadAttempt) : LM LoadResult :=
  set_fReindex (arg_reindex cfg) ;;
  r <- load_loop fuel cfg envs 0 ;;
  match r with
  | LoopOutOfFuel => ret LoadOutOfFuel
  | LoopReturned why => ret (LoadReturnedFalse why)
  | LoopLeft _ =>
      stop <- gets fRequestShutdown ;;
      if stop then
        emit (LdLog "Shutdown requested. Exiting.") ;;
        ret (LoadReturnedFalse FailShutdown)
      else ret LoadSucceeded
  end.

End LoadLoopCode.

(* ================================================================= *)
(** ** [PrepareShutdown] *)

(** The objects [PrepareShutdown] destroys.  Chain clients and block filter
    indexes are named by their position in the container that owns them. *)
Inductive Handle :=
  | HPeerLogic
  | HConnman
  | HBanman
  | HTxIndex
  | HFilterIndex (i : nat)
  | HCoinsViews
  | HBlockTree
  | HLLMQSystem
  | HQuorumSnapshotManager
  | HDeterministicMNManager
  | HEvoDb
  | HChainClient (i : nat)
  | HZmqNotificationInterface
  | HDSNotificationInterface
  | HBlsKeyOperator
  | HBlsPubKeyOperator.

Inductive ShutdownEvent :=
  | Call (f : string)                   (* a call into a collaborator *)
  | CallOn (f : string) (i : nat)       (* the same, on the i-th element *)
  | Free (h : Handle)                   (* an owned object is destroyed *)
  | WriteFile (name : string) (content : nat)
  | RemoveFile (name : string)
  | SdLog (msg : string).

(** Network-facing globals: [true] stands for a non-null pointer. *)
Record NetObjects := {
  peerLogic : bool;
  g_connman : bool;
  g_banman : bool;
  g_txindex : bool;
  filter_indexes : list nat }.          (* the block filter indexes *)

(** Chain-state globals.  [coins_views] is [m_coins_views] of the chain
    state, which [CanFlushToDisk] tests. *)
Record ChainObjects := {
  coins_views : bool;
  pblocktree : bool;
  llmq_system : bool;
  quorumSnapshotManager : bool;
  deterministicMNManager : bool;
  evoDb : bool }.

Record ListenerObjects := {
  g_zmq_notification_interface : bool;
  pdsNotificationInterface : bool;
  blsKeyOperator : bool;
  blsPubKeyOperator : bool;
  chain_clients : list string }.        (* interfaces.chain_clients *)

(** The files of the data directory the teardown writes or removes; a
    content is an abstract value. *)
Record Disk := {
  mncache_dat : option nat;
  netfulfilled_dat : option nat;
  sporks_dat : option nat;
  governance_dat : option nat;
  mempool_dat : option nat;
  fee_estimates_dat : option nat;
  pid_file : bool }.

(** Everything [PrepareShutdown] assigns. *)
Record NodeState := {
  net : NetObjects;
  chain : ChainObjects;
  listeners : ListenerObjects;
  fFeeEstimatesInitialized : bool;
  disk : Disk }.

(** What [PrepareShutdown] reads without assigning it. *)
Record ShutdownEnv := {
  cs_Shutdown_held : bool;              (* TRY_LOCK(cs_Shutdown) fails *)
  fRPCInWarmup : bool;                  (* RPCIsInWarmup(&statusmessage) *)
  fDisableGovernance : bool;
  fMasternodeMode : bool;
  g_chainstate : bool;
  mempool_IsLoaded : bool;
  persistmempool : bool;
  est_fileout_opens : bool;             (* !est_fileout.IsNull() *)
  mmetaman : nat;                       (* the caches, as they would be *)
  netfulfilledman : nat;                (* serialised *)
  sporkManager : nat;
  governance : nat;
  mempool_contents : nat;
  feeEstimator : nat }.

Section PrepareShutdownCode.
Local Open Scope code_scope.

Abbreviation SM := (M NodeState ShutdownEvent).

Definition with_net (f : NetObjects -> NetObjects) : SM unit :=
  modify (fun s =>
    {| net := f (net s); chain := chain s; listeners := listeners s;
       fFeeEstimatesInitialized := fFeeEstimatesInitialized s;
       disk := disk s |}).

Definition with_chain (f : ChainObjects -> ChainObjects) : SM unit :=
  modify (fun s =>
    {| net := net s; chain := f (chain s); listeners := listeners s;
       fFeeEstimatesInitialized := fFeeEstimatesInitialized s;
       disk := disk s |}).

Definition with_listeners (f : ListenerObjects -> ListenerObjects) : SM unit :=
  modify (fun s =>
    {| net := net s; chain := chain s; listeners := f (listeners s);
       fFeeEstimatesInitialized := fFeeEstimatesInitialized s;
       disk := disk s |}).

Definition set_fFeeEstimatesInitialized (b : bool) : SM unit :=
  modify (fun s =>
    {| net := net s; chain := chain s; listeners := listeners s;
       fFeeEstimatesInitialized := b;
       disk := disk s |}).

Definition with_disk (f : Disk -> Disk) : SM unit :=
  modify (fun s =>
    {| net := net s; chain := chain s; listeners := listeners s;
       fFeeEstimatesInitialized := fFeeEstimatesInitialized s;
       disk := f (disk s) |}).

(** One event per element of a container, in order. *)
Definition for_each {A} (l : list A) (ev : nat -> ShutdownEvent) : SM unit :=
  fun s => (tt, s, map ev (seq 0 (length l))).

(** Destroying the object a smart pointer owns, if it owns one. *)
Definition destroy (live : bool) (h : Handle) : SM unit :=
  when live (emit (Free h)).

(** Lines 221-227: the servers are told to stop. *)
Definition stop_servers : SM unit :=
  emit (Call "util::ThreadRename") ;;
  emit (Call "mempool.AddTransactionsUpdated") ;;
  emit (Call "StopHTTPRPC") ;;
  emit (Call "StopREST") ;;
  emit (Call "StopRPC") ;;
  emit (Call "StopHTTPServer") ;;
  emit (Call "llmq::StopLLMQSystem").

(** Lines 234-246: clients are flushed, the network is stopped. *)
Definition stop_network : SM unit :=
  clients <- gets (fun s => chain_clients (listeners s)) ;;
  for_each clients (CallOn "client->flush") ;;
  emit (Call "StopMapPort") ;;
  p <- gets (fun s => peerLogic (net s)) ;;
  when p (emit (Call "UnregisterValidationInterface(peerLogic)")) ;;
  c <- gets (fun s => g_connman (net s)) ;;
  when c (emit (Call "g_connman->Stop")) ;;
  t <- gets (fun s => g_txindex (net s)) ;;
  when t (emit (Call "g_txindex->Stop")) ;;
  fi <- gets (fun s => filter_indexes (net s)) ;;
  for_each fi (CallOn "index.Stop") ;;
  emit (Call "StopTorControl").

(** Lines 250-257: scheduler, thread group and worker threads. *)
Definition stop_threads : SM unit :=
  emit (Call "scheduler.stop") ;;
  emit (Call "threadGroup.interrupt_all") ;;
  emit (Call "threadGroup.join_all") ;;
  emit (Call "StopScriptCheckWorkerThreads") ;;
  emit (Call "FlushBackgroundCallbacks").

(** [CFlatDB<T> flatdb(name, magic); flatdb.Dump(cache);] *)
Definition dump_mncache (c : nat) : SM unit :=
  emit (WriteFile "mncache.dat" c) ;;
  with_disk (fun d =>
    {| mncache_dat := Some c; netfulfilled_dat := netfulfilled_dat d;
       sporks_dat := sporks_dat d; governance_dat := governance_dat d;
       mempool_dat := mempool_dat d; fee_estimates_dat := fee_estimates_dat d;
       pid_file := pid_file d |}).

Definition dump_netfulfilled (c : nat) : SM unit :=
  emit (WriteFile "netfulfilled.dat" c) ;;
  with_disk (fun d =>
    {| mncache_dat := mncache_dat d; netfulfilled_dat := Some c;
       sporks_dat := sporks_dat d; governance_dat := governance_dat d;
       mempool_dat := mempool_dat d; fee_estimates_dat := fee_estimates_dat d;
       pid_file := pid_file d |}).

Definition dump_sporks (c : nat) : SM unit :=
  emit (WriteFile "sporks.dat" c) ;;
  with_disk (fun d =>
    {| mncache_dat := mncache_dat d; netfulfilled_dat := netfulfilled_dat d;
       sporks_dat := Some c; governance_dat := governance_dat d;
       mempool_dat := mempool_dat d; fee_estimates_dat := fee_estimates_dat d;
       pid_file := pid_file d |}).

Definition dump_governance (c : nat) : SM unit :=
  emit (WriteFile "governance.dat" c) ;;
  with_disk (fun d =>
    {| mncache_dat := mncache_dat d; netfulfilled_dat := netfulfilled_dat d;
       sporks_dat := sporks_dat d; governance_dat := Some c;
       mempool_dat := mempool_dat d; fee_estimates_dat := fee_estimates_dat d;
       pid_file := pid_file d |}).

Definition DumpMempool (c : nat) : SM unit :=
  emit (WriteFile "mempool.dat" c) ;;
  with_disk (fun d =>
    {| mncache_dat := mncache_dat d; netfulfilled_dat := netfulfilled_dat d;
       sporks_dat := sporks_dat d; governance_dat := governance_dat d;
       mempool_dat := Some c; fee_estimates_dat := fee_estimates_dat d;
       pid_file := pid_file d |}).

Definition write_fee_estimates (c : nat) : SM unit :=
  emit (WriteFile "fee_estimates.dat" c) ;;
  with_disk (fun d =>
    {| mncache_dat := mncache_dat d; netfulfilled_dat := netfulfilled_dat d;
       sporks_dat := sporks_dat d; governance_dat := governance_dat d;
       mempool_dat := mempool_dat d; fee_estimates_dat := Some c;
       pid_file := pid_file d |}).

Definition remove_pid_file : SM unit :=
  emit (RemoveFile "pid") ;;
  with_disk (fun d =>
    {| mncache_dat := mncache_dat d; netfulfilled_dat := netfulfilled_dat d;
       sporks_dat := sporks_dat d; governance_dat := governance_dat d;
       mempool_dat := mempool_dat d; fee_estimates_dat := fee_estimates_dat d;
       pid_file := false |}).

(** Lines 259-271: [if (!fRPCInWarmup) { ... }], with the value
    [RPCIsInWarmup] gave at line 232. *)
Definition dump_caches (env : ShutdownEnv) (fRPCInWarmup : bool) : SM unit :=
  when (negb fRPCInWarmup)
    (dump_mncache (mmetaman env) ;;
     dump_netfulfilled (netfulfilledman env) ;;
     dump_sporks (sporkManager env) ;;
     when (negb (fDisableGovernance env))
       (dump_governance (governance env))).

(** Lines 275-279: the network objects are reset to [nullptr]. *)
Definition destroy_network : SM unit :=
  n <- gets net ;;
  destroy (peerLogic n) HPeerLogic ;;
  destroy (g_connman n) HConnman ;;
  destroy (g_banman n) HBanman ;;
  destroy (g_txindex n) HTxIndex ;;
  for_each (filter_indexes n) (fun i => Free (HFilterIndex i)) ;;
  with_net (fun _ =>
    {| peerLogic := false; g_connman := false; g_banman := false;
       g_txindex := false; filter_indexes := [] |}).

(** Lines 281-295: mempool and fee estimates. *)
Definition persist_mempool_and_fees (env : ShutdownEnv) : SM unit :=
  when (mempool_IsLoaded env && persistmempool env)
    (DumpMempool (mempool_contents env)) ;;
  f <- gets fFeeEstimatesInitialized ;;
  when f
    (emit (Call "feeEstimator.FlushUnconfirmed") ;;
     (if est_fileout_opens env then write_fee_estimates (feeEstimator env)
      else emit (SdLog "Failed to write fee estimates")) ;;
     set_fFeeEstimatesInitialized false).

(** Lines 301-310: the first flush of the chain state. *)
Definition flush_chainstate (env : ShutdownEnv) : SM unit :=
  v <- gets (fun s => coins_views (chain s)) ;;
  when (g_chainstate env && v) (emit (Call "ForceFlushStateToDisk")) ;;
  emit (Call "FlushBackgroundCallbacks").

(** Lines 318-329: the second flush, then the databases are closed. *)
Definition close_databases (env : ShutdownEnv) : SM unit :=
  v <- gets (fun s => coins_views (chain s)) ;;
  when (g_chainstate env && v)
    (emit (Call "ForceFlushStateToDisk") ;;
     emit (Free HCoinsViews) ;;                       (* ResetCoinsViews *)
     with_chain (fun c =>
       {| coins_views := false; pblocktree := pblocktree c;
          llmq_system := llmq_system c;
          quorumSnapshotManager := quorumSnapshotManager c;
          deterministicMNManager := deterministicMNManager c;
          evoDb := evoDb c |})) ;;
  c <- gets chain ;;
  destroy (pblocktree c) HBlockTree ;;
  destroy (llmq_system c) HLLMQSystem ;;
  destroy (quorumSnapshotManager c) HQuorumSnapshotManager ;;
  destroy (deterministicMNManager c) HDeterministicMNManager ;;
  destroy (evoDb c) HEvoDb ;;
  with_chain (fun c =>
    {| coins_views := coins_views c;
       pblocktree := false; llmq_system := false;
       quorumSnapshotManager := false; deterministicMNManager := false;
       evoDb := false |}).

(** Lines 330-356: clients are stopped, listeners unregistered. *)
Definition unregister_listeners (env : ShutdownEnv) : SM unit :=
  clients <- gets (fun s => chain_clients (listeners s)) ;;
  for_each clients (CallOn "client->stop") ;;
  z <- gets (fun s => g_zmq_notification_interface (listeners s)) ;;
  when z
    (emit (Call "UnregisterValidationInterface(g_zmq_notification_interface)") ;;
     emit (Free HZmqNotificationInterface) ;;
     with_listeners (fun l =>
       {| g_zmq_notification_interface := false;
          pdsNotificationInterface := pdsNotificationInterface l;
          blsKeyOperator := blsKeyOperator l;
          blsPubKeyOperator := blsPubKeyOperator l;
          chain_clients := chain_clients l |})) ;;
  p <- gets (fun s => pdsNotificationInterface (listeners s)) ;;
  when p
    (emit (Call "UnregisterValidationInterface(pdsNotificationInterface)") ;;
     emit (Free HDSNotificationInterface) ;;
     with_listeners (fun l =>
       {| g_zmq_notification_interface := g_zmq_notification_interface l;
          pdsNotificationInterface := false;
          blsKeyOperator := blsKeyOperator l;
          blsPubKeyOperator := blsPubKeyOperator l;
          chain_clients := chain_clients l |})) ;;
  when (fMasternodeMode env)
    (emit (Call "UnregisterValidationInterface(activeMasternodeManager)")) ;;
  l <- gets listeners ;;
  destroy (blsKeyOperator l) HBlsKeyOperator ;;
  destroy (blsPubKeyOperator l) HBlsPubKeyOperator ;;
  with_listeners (fun l =>
    {| g_zmq_notification_interface := g_zmq_notification_interface l;
       pdsNotificationInterface := pdsNotificationInterface l;
       blsKeyOperator := false; blsPubKeyOperator := false;
       chain_clients := chain_clients l |}).

(** Lines 358-370: the PID file and what is left to unregister. *)
Definition final_cleanup : SM unit :=
  p <- gets (fun s => pid_file (disk s)) ;;
  (if p then remove_pid_file
   else emit (SdLog "Unable to remove PID file: File does not exist")) ;;
  l <- gets listeners ;;
  for_each (chain_clients l) (fun i => Free (HChainClient i)) ;;
  with_listeners (fun l =>
    {| g_zmq_notification_interface := g_zmq_notification_interface l;
       pdsNotificationInterface := pdsNotificationInterface l;
       blsKeyOperator := blsKeyOperator l;
       blsPubKeyOperator := blsPubKeyOperator l;
       chain_clients := [] |}) ;;
  emit (Call "UnregisterAllValidationInterfaces") ;;
  emit (Call "UnregisterBackgroundSignalScheduler") ;;
  emit (Call "UnregisterWithMempoolSignals").

Definition PrepareShutdown (env : ShutdownEnv) : SM unit :=
  emit (SdLog "PrepareShutdown: In progress...") ;;
  if cs_Shutdown_held env then ret tt else
  stop_servers ;;
  let fRPCInWarmup := fRPCInWarmup env in
  stop_network ;;
  stop_threads ;;
  dump_caches env fRPCInWarmup ;;
  destroy_network ;;
  persist_mempool_and_fees env ;;
  flush_chainstate env ;;
  close_databases env ;;
  unregister_listeners env ;;
  final_cleanup.

(** The objects a trace destroys and the files it writes. *)
Definition frees (t : list ShutdownEvent) : list Handle :=
  omap (fun e => match e with Free h => Some h | _ => None end) t.

Definition written (t : list ShutdownEvent) : list string :=
  omap (fun e => match e with WriteFile f _ => Some f | _ => None end) t.

End PrepareShutdownCode.

(* ================================================================= *)
(** * Definitions the statements use *)

(** ** Parameter interaction *)

(** Soft-setting as a function on the store. *)
Definition soft (a : Args) (kv : string * string) : Args :=
  match a !! kv.1 with Some _ => a | None => <[kv.1 := kv.2]> a end.

Definition softs (a : Args) (l : list (string * string)) : Args := foldl soft a l.

(** The store after the rules up to and including the proxy rule. *)
Definition upto_proxy (a : Args) : Args :=
  exec pi_proxy (exec pi_connect (exec pi_whitebind (exec pi_bind a))).

(** The store when the pruning rule is reached. *)
Definition upto_forcerelay (D : Defaults) (a : Args) : Args :=
  exec (pi_forcerelay D) (exec (pi_blocksonly D)
    (exec pi_externalip (exec (pi_nolisten D) (upto_proxy a)))).

(** A command line with [-bind] and [-connect], and nothing else. *)
Definition bind_and_connect : Args :=
  <["-bind" := "192.0.2.1"]> (<["-connect" := "192.0.2.7"]> ∅).

(** ** The import thread *)

Fixpoint readable_prefix (files : list BlkFile) : list bool :=
  match files with
  | BlkReadable arrives :: rest => arrives :: readable_prefix rest
  | _ => []
  end.

Fixpoint first_missing (files : list BlkFile) : nat :=
  match files with
  | [] => 0
  | BlkMissing :: _ => 0
  | _ :: rest => S (first_missing rest)
  end.

Definition replayed_block_files (t : list ImportEvent) : list nat :=
  omap (fun e => match e with
                 | EvLoadExternalBlockFile (SrcBlockFile n) => Some n
                 | _ => None end) t.

Definition marks_reindex_complete (t : list ImportEvent) : bool :=
  existsb (fun e => match e with EvWriteReindexing false => true | _ => false end) t.

Definition no_arrival (l : list bool) : Prop := Forall (fun b => b = false) l.

(** the events of replaying block files n, n+1, ..., n+k-1 *)
Definition replay_events (n k : nat) : list ImportEvent :=
  flat_map (fun i => [EvLog "Reindexing block file";
                      EvLoadExternalBlockFile (SrcBlockFile i)]) (seq n k).

Definition with_shutdown (b : bool) (s : ImportState) : ImportState :=
  {| fReindex := fReindex s;
     reindexing_on_disk := reindexing_on_disk s;
     fRequestShutdown := b;
     mempool_is_loaded := mempool_is_loaded s |}.

Definition reindex_done (s : ImportState) : ImportState :=
  {| fReindex := false; reindexing_on_disk := false;
     fRequestShutdown := fRequestShutdown s;
     mempool_is_loaded := mempool_is_loaded s |}.

Definition finish_events : list ImportEvent :=
  [EvWriteReindexing false; EvLog "Reindexing finished"; EvLoadGenesisBlock].

Definition is_warning (e : ImportEvent) : bool :=
  match e with EvWarningCouldNotOpen _ => true | _ => false end.

Definition without_warnings (t : list ImportEvent) : list ImportEvent :=
  List.filter (fun e => negb (is_warning e)) t.

Definition readable_only (env : ImportEnv) : ImportEnv :=
  {| blockfiles := blockfiles env;
     pathBootstrap := match pathBootstrap env with
                      | BootUnopenable => BootAbsent
                      | b => b
                      end;
     ActivateBestChain_ok := ActivateBestChain_ok env;
     stopafterblockimport := stopafterblockimport env;
     fMasternodeMode_import := fMasternodeMode_import env;
     persistmempool_import := persistmempool_import env |}.

(** [c'] does what [c] does, warnings apart. *)
Definition sim {A} (c c' : M ImportState ImportEvent A) : Prop :=
  forall s, result c s = result c' s /\ exec c s = exec c' s /\
            without_warnings (trace c s) = trace c' s.

(** What the thread finds once the bootstrap file has been dealt with:
    the file is no longer there. *)
Definition bootstrap_done (env : ImportEnv) : ImportEnv :=
  {| blockfiles := blockfiles env;
     pathBootstrap := BootAbsent;
     ActivateBestChain_ok := ActivateBestChain_ok env;
     stopafterblockimport := stopafterblockimport env;
     fMasternodeMode_import := fMasternodeMode_import env;
     persistmempool_import := persistmempool_import env |}.

(** The events of a bootstrap file that is renamed after its import, and
    of a [-loadblock] file. *)
Definition bootstrap_events (b : BootstrapFile) : list ImportEvent :=
  match b with
  | BootAbsent => []
  | BootUnopenable => [EvWarningCouldNotOpen SrcBootstrap]
  | BootReadable _ _ =>
      [EvLog "Importing bootstrap.dat..."; EvLoadExternalBlockFile SrcBootstrap;
       EvRenameBootstrap]
  end.

Definition loadblock_events (f : ImportFile) : list ImportEvent :=
  if can_open f then
    [EvLog "Importing blocks file"; EvLoadExternalBlockFile (SrcLoadBlock (path f))]
  else [EvWarningCouldNotOpen (SrcLoadBlock (path f))].

(** The events the import sources can produce. *)
Definition source_event (e : ImportEvent) : bool :=
  match e with
  | EvLoadExternalBlockFile _ | EvWarningCouldNotOpen _ | EvWriteReindexing _
  | EvLoadGenesisBlock | EvRenameBootstrap | EvLog _ => true
  | _ => false
  end.

(** ** The load loop *)

Definition flags_mismatch (cfg : LoadConfig) (env : LoadAttempt) : bool :=
  negb (Bool.eqb (fAddressIndex env) (arg_addressindex cfg)) ||
  negb (Bool.eqb (fTimestampIndex env) (arg_timestampindex cfg)) ||
  negb (Bool.eqb (fSpentIndex env) (arg_spentindex cfg)) ||
  (fHavePruned env && negb (fPruneMode cfg)).

Definition passes_identity_checks (cfg : LoadConfig) (env : LoadAttempt) : bool :=
  negb (negb (fDisableGovernance_load cfg) && negb (arg_txindex cfg)
        && negb (is_regtest cfg)) &&
  negb (negb (block_index_empty env) && negb (has_genesis env)) &&
  negb (negb (devnet_genesis_null cfg) && negb (block_index_empty env)
        && negb (has_devnet_genesis env)).

Definition opens_coins_db (t : list LoadEvent) : bool :=
  existsb (fun e => match e with LdInitCoinsDB _ => true | _ => false end) t.

(** A computation that never ends loaded and never opens the coin
    database, and one that does not open it. *)
Definition harmless (c : M ImportState LoadEvent AttemptOutcome) : Prop :=
  forall s, result c s <> AttLoaded /\ opens_coins_db (trace c s) = false.

Definition leaves_coins_db {A} (c : M ImportState LoadEvent A) : Prop :=
  forall s, opens_coins_db (trace c s) = false.


(** [keeps R ok c]: running [c] relates the state before to the state after
    by [R] and produces only events accepted by [ok]. *)
Definition keeps {S E A} (R : S -> S -> Prop) (ok : E -> bool) (c : M S E A) : Prop :=
  forall s, R s (exec c s) /\ forallb ok (trace c s) = true.

(** Events of one pass through the [do] body: everything but the question
    box and the [InitError] report, which belong to the loop. *)
Definition attempt_event (e : LoadEvent) : bool :=
  match e with
  | LdLoadingBlockIndex | LdQuestion _ | LdAbortShutdown | LdInitError _
  | LdLog _ => false
  | _ => true
  end.

(** What a pass may do to the globals: the reindex flag can only be raised,
    a shutdown request stays. *)
Definition attempt_rel (s s' : ImportState) : Prop :=
  (fReindex s = true -> fReindex s' = true) /\
  (fRequestShutdown s = true -> fRequestShutdown s' = true) /\
  mempool_is_loaded s' = mempool_is_loaded s.

Definition with_reindex (b : bool) (s : ImportState) : ImportState :=
  {| fReindex := b;
     reindexing_on_disk := reindexing_on_disk s;
     fRequestShutdown := fRequestShutdown s;
     mempool_is_loaded := mempool_is_loaded s |}.

(** No shutdown request arrives during the pass. *)
Definition quiet_pass (env : LoadAttempt) : bool :=
  negb (arrives_before_attempt env) && negb (arrives_during_open env) &&
  negb (arrives_during_LoadBlockIndex env) && negb (arrives_late env).

(** The relation "no shutdown request has been added". *)
Definition calm (s s' : ImportState) : Prop :=
  fRequestShutdown s = false -> fRequestShutdown s' = false.

(** The calls made while the databases are opened, up to the test of
    [ShutdownRequested()]. *)
Definition opening_calls (cfg : LoadConfig) (fReset : bool) : list TryCall :=
  [CallUnloadBlockIndex; CallNewBlockTreeDB; CallDestroyLLMQSystem;
   CallNewEvoDB; CallNewDeterministicMNManager; CallNewQuorumSnapshotManager;
   CallInitLLMQSystem] ++
  (if fReset then
     CallWriteReindexing ::
     (if fPruneMode cfg then [CallCleanupBlockRevFiles] else [])
   else []).

(** None of the calls [l] throws. *)
Definition no_throw (env : LoadAttempt) (l : list TryCall) : bool :=
  forallb (fun c => negb (throws env c)) l.

Definition with_marker (b : bool) (s : ImportState) : ImportState :=
  {| fReindex := fReindex s;
     reindexing_on_disk := b;
     fRequestShutdown := fRequestShutdown s;
     mempool_is_loaded := mempool_is_loaded s |}.

(** The state when the databases have been opened and none of the calls
    has thrown. *)
Definition opened (fReset : bool) (s : ImportState) : ImportState :=
  if fReset then with_marker true s else s.

(** A pass comes to the flag checks: no call made while the databases are
    opened and the block index is loaded throws, no shutdown request is
    pending or arrives while the databases are opened, the block index
    loads, and the checks before the flag checks find no error. *)
Definition reaches_flag_checks (cfg : LoadConfig) (env : LoadAttempt)
    (fReset : bool) (s : ImportState) : Prop :=
  no_throw env (opening_calls cfg fReset ++ [CallLoadBlockIndex]) = true /\
  fRequestShutdown s = false /\ arrives_during_open env = false /\
  LoadBlockIndex_ok env = true /\ passes_identity_checks cfg env = true.

(** The events of opening the databases when none of the calls throws. *)
Definition open_events (cfg : LoadConfig) (fReset : bool) : list LoadEvent :=
  [LdOpenBlockTree fReset; LdOpenEvoDb (fReset || fReindexChainState cfg);
   LdInitLLMQSystem (fReset || fReindexChainState cfg)] ++
  (if fReset then
     LdWriteReindexing true ::
     (if fPruneMode cfg then [LdCleanupBlockRevFiles] else [])
   else []).


(** ** The reindexing marker, and examples *)

Definition marker_kept (s s' : ImportState) : Prop :=
  reindexing_on_disk s' = reindexing_on_disk s.


Definition example_cfg : LoadConfig :=
  {| arg_reindex := false; fReindexChainState := false; fPruneMode := false;
     fDisableGovernance_load := false; arg_txindex := true; is_regtest := false;
     devnet_genesis_null := true; arg_addressindex := true;
     arg_timestampindex := false; arg_spentindex := false;
     arg_checklevel := 3%Z |}.

(** A block database written without the address index; the user's answer
    to the question is [answer]. *)
Definition stale_attempt (answer : bool) : LoadAttempt :=
  {| arrives_before_attempt := false; throws := fun _ => false; thrown_late := false;
     arrives_during_open := false; LoadBlockIndex_ok := true;
     arrives_during_LoadBlockIndex := false;
     fAddressIndex := false; fTimestampIndex := false; fSpentIndex := false;
     fHavePruned := false; block_index_empty := false; has_genesis := true;
     has_devnet_genesis := false; LoadGenesisBlock_ok := true;
     Upgrade_ok := true; ReplayBlocks_ok := true;
     CommitRootTransaction_ok := true; best_block_null := false;
     LoadChainTip_ok := true; evoDb_IsEmpty := false;
     UpgradeDBIfNeeded_ok := true; quorum_UpgradeDB_ok := true;
     tip_from_future := false; VerifyDB_ok := true; arrives_late := false;
     user_accepts := answer |}.

(** The databases after they have been wiped: empty, with the flags as
    requested. *)
Definition wiped_attempt : LoadAttempt :=
  {| arrives_before_attempt := false; throws := fun _ => false; thrown_late := false;
     arrives_during_open := false; LoadBlockIndex_ok := true;
     arrives_during_LoadBlockIndex := false;
     fAddressIndex := true; fTimestampIndex := false; fSpentIndex := false;
     fHavePruned := false; block_index_empty := true; has_genesis := false;
     has_devnet_genesis := false; LoadGenesisBlock_ok := true;
     Upgrade_ok := true; ReplayBlocks_ok := true;
     CommitRootTransaction_ok := true; best_block_null := true;
     LoadChainTip_ok := true; evoDb_IsEmpty := true;
     UpgradeDBIfNeeded_ok := true; quorum_UpgradeDB_ok := true;
     tip_from_future := false; VerifyDB_ok := true; arrives_late := false;
     user_accepts := false |}.


Definition rebuild_offered (answer : bool) (n : nat) : LoadAttempt :=
  match n with
  | 0 => stale_attempt answer
  | _ => wiped_attempt
  end.

Definition fresh_start : ImportState :=
  {| fReindex := false; reindexing_on_disk := false;
     fRequestShutdown := false; mempool_is_loaded := false |}.


(** A reindex under way: both flags are set. *)
Definition reindex_start : ImportState :=
  {| fReindex := true; reindexing_on_disk := true;
     fRequestShutdown := false; mempool_is_loaded := false |}.


Definition import_env (files : list BlkFile) (boot : BootstrapFile)
    (activates : bool) : ImportEnv :=
  {| blockfiles := files; pathBootstrap := boot;
     ActivateBestChain_ok := activates; stopafterblockimport := false;
     fMasternodeMode_import := false; persistmempool_import := true |}.

(** Four [-loadblock] files of which the first and the third cannot be
    opened. *)
Definition loadblock_file (p : string) (opens : bool) : ImportFile :=
  {| path := p; can_open := opens; arrives_during := false |}.

Definition mixed_sources : list ImportFile :=
  [loadblock_file "a.dat" false; loadblock_file "b.dat" true;
   loadblock_file "c.dat" false; loadblock_file "d.dat" true].

(** Three block files of which the second cannot be opened. *)
Definition unopenable_second : ImportEnv :=
  import_env [BlkReadable false; BlkUnopenable; BlkReadable false] BootAbsent true.

(** Two block files, then none. *)
Definition two_block_files : ImportEnv :=
  import_env [BlkReadable false; BlkReadable false; BlkMissing] BootAbsent true.


(** ** The teardown *)

(** What a block of the teardown does, as far as the claims go: the state
    it leaves, the objects it destroys and the files it writes. *)
Definition does {A} (c : M NodeState ShutdownEvent A) (s s' : NodeState)
    (fr : list Handle) (wr : list string) : Prop :=
  exec c s = s' /\ frees (trace c s) = fr /\ written (trace c s) = wr.

(** The state with one component replaced. *)
Definition put_net (n : NetObjects) (s : NodeState) : NodeState :=
  {| net := n; chain := chain s; listeners := listeners s;
     fFeeEstimatesInitialized := fFeeEstimatesInitialized s; disk := disk s |}.

Definition put_chain (c : ChainObjects) (s : NodeState) : NodeState :=
  {| net := net s; chain := c; listeners := listeners s;
     fFeeEstimatesInitialized := fFeeEstimatesInitialized s; disk := disk s |}.

Definition put_listeners (l : ListenerObjects) (s : NodeState) : NodeState :=
  {| net := net s; chain := chain s; listeners := l;
     fFeeEstimatesInitialized := fFeeEstimatesInitialized s; disk := disk s |}.

Definition put_disk (d : Disk) (s : NodeState) : NodeState :=
  {| net := net s; chain := chain s; listeners := listeners s;
     fFeeEstimatesInitialized := fFeeEstimatesInitialized s; disk := d |}.

Definition put_fee (b : bool) (s : NodeState) : NodeState :=
  {| net := net s; chain := chain s; listeners := listeners s;
     fFeeEstimatesInitialized := b; disk := disk s |}.

(** The disk after the cache snapshots have been taken. *)
Definition snapshots_taken (env : ShutdownEnv) (d : Disk) : Disk :=
  {| mncache_dat := Some (mmetaman env);
     netfulfilled_dat := Some (netfulfilledman env);
     sporks_dat := Some (sporkManager env);
     governance_dat :=
       if fDisableGovernance env then governance_dat d
       else Some (governance env);
     mempool_dat := mempool_dat d;
     fee_estimates_dat := fee_estimates_dat d;
     pid_file := pid_file d |}.

Definition snapshot_files (env : ShutdownEnv) : list string :=
  ["mncache.dat"; "netfulfilled.dat"; "sporks.dat"] ++
  (if fDisableGovernance env then [] else ["governance.dat"]).

Definition no_net : NetObjects :=
  {| peerLogic := false; g_connman := false; g_banman := false;
     g_txindex := false; filter_indexes := [] |}.

Definition opt (b : bool) (h : Handle) : list Handle := if b then [h] else [].

(** The disk after the mempool and the fee estimates have been dealt with. *)
Definition mempool_and_fees_persisted (env : ShutdownEnv) (fee_init : bool)
    (d : Disk) : Disk :=
  {| mncache_dat := mncache_dat d;
     netfulfilled_dat := netfulfilled_dat d;
     sporks_dat := sporks_dat d;
     governance_dat := governance_dat d;
     mempool_dat :=
       if mempool_IsLoaded env && persistmempool env
       then Some (mempool_contents env) else mempool_dat d;
     fee_estimates_dat :=
       if fee_init && est_fileout_opens env
       then Some (feeEstimator env) else fee_estimates_dat d;
     pid_file := pid_file d |}.

Definition databases_closed (env : ShutdownEnv) (c : ChainObjects) : ChainObjects :=
  {| coins_views := if g_chainstate env && coins_views c then false
                    else coins_views c;
     pblocktree := false; llmq_system := false;
     quorumSnapshotManager := false; deterministicMNManager := false;
     evoDb := false |}.

Definition listeners_gone (l : ListenerObjects) : ListenerObjects :=
  {| g_zmq_notification_interface := false; pdsNotificationInterface := false;
     blsKeyOperator := false; blsPubKeyOperator := false;
     chain_clients := chain_clients l |}.

Definition cleaned_up (s : NodeState) : NodeState :=
  {| net := net s; chain := chain s;
     listeners :=
       {| g_zmq_notification_interface := g_zmq_notification_interface (listeners s);
          pdsNotificationInterface := pdsNotificationInterface (listeners s);
          blsKeyOperator := blsKeyOperator (listeners s);
          blsPubKeyOperator := blsPubKeyOperator (listeners s);
          chain_clients := [] |};
     fFeeEstimatesInitialized := fFeeEstimatesInitialized s;
     disk :=
       {| mncache_dat := mncache_dat (disk s);
          netfulfilled_dat := netfulfilled_dat (disk s);
          sporks_dat := sporks_dat (disk s);
          governance_dat := governance_dat (disk s);
          mempool_dat := mempool_dat (disk s);
          fee_estimates_dat := fee_estimates_dat (disk s);
          pid_file := false |} |}.

(** The state a teardown leaves. *)
Definition torn_down (env : ShutdownEnv) (s : NodeState) : NodeState :=
  if cs_Shutdown_held env then s else
  {| net := no_net;
     chain := databases_closed env (chain s);
     listeners :=
       {| g_zmq_notification_interface := false;
          pdsNotificationInterface := false;
          blsKeyOperator := false; blsPubKeyOperator := false;
          chain_clients := [] |};
     fFeeEstimatesInitialized := false;
     disk :=
       let d := if fRPCInWarmup env then disk s
                else snapshots_taken env (disk s) in
       let d := mempool_and_fees_persisted env (fFeeEstimatesInitialized s) d in
       {| mncache_dat := mncache_dat d;
          netfulfilled_dat := netfulfilled_dat d;
          sporks_dat := sporks_dat d;
          governance_dat := governance_dat d;
          mempool_dat := mempool_dat d;
          fee_estimates_dat := fee_estimates_dat d;
          pid_file := false |} |}.

(** The objects a teardown destroys, in the order of their destruction. *)
Definition freed (env : ShutdownEnv) (s : NodeState) : list Handle :=
  if cs_Shutdown_held env then [] else
  (opt (peerLogic (net s)) HPeerLogic ++ opt (g_connman (net s)) HConnman ++
   opt (g_banman (net s)) HBanman ++ opt (g_txindex (net s)) HTxIndex ++
   map HFilterIndex (seq 0 (length (filter_indexes (net s))))) ++
  (opt (g_chainstate env && coins_views (chain s)) HCoinsViews ++
   opt (pblocktree (chain s)) HBlockTree ++
   opt (llmq_system (chain s)) HLLMQSystem ++
   opt (quorumSnapshotManager (chain s)) HQuorumSnapshotManager ++
   opt (deterministicMNManager (chain s)) HDeterministicMNManager ++
   opt (evoDb (chain s)) HEvoDb) ++
  (opt (g_zmq_notification_interface (listeners s)) HZmqNotificationInterface ++
   opt (pdsNotificationInterface (listeners s)) HDSNotificationInterface ++
   opt (blsKeyOperator (listeners s)) HBlsKeyOperator ++
   opt (blsPubKeyOperator (listeners s)) HBlsPubKeyOperator) ++
  map HChainClient (seq 0 (length (chain_clients (listeners s)))).

(** The files a teardown writes, in the order of writing. *)
Definition files_written (env : ShutdownEnv) (s : NodeState) : list string :=
  if cs_Shutdown_held env then [] else
  (if fRPCInWarmup env then [] else snapshot_files env) ++
  (if mempool_IsLoaded env && persistmempool env then ["mempool.dat"] else []) ++
  (if fFeeEstimatesInitialized s && est_fileout_opens env
   then ["fee_estimates.dat"] else []).



(* ================================================================= *)
(** ** Parameter interaction as a list of rules *)

(** A rule of parameter interaction that only soft-sets: when [guard]
    holds, the options of [sets] are given their values unless they have
    one.  [reads] lists the options the guard looks at. *)
Record SoftRule := {
  guard : Args -> bool;
  reads : list string;
  sets : list (string * string) }.

Definition apply_rule (r : SoftRule) (a : Args) : Args :=
  if guard r a then softs a (sets r) else a.

(** The guard depends on the options it reads only. *)
Definition reads_ok (r : SoftRule) : Prop :=
  forall a b, (forall k, k ∈ reads r -> a !! k = b !! k) -> guard r a = guard r b.

(** A step changes no option outside of [W]. *)
Definition frames (f : Args -> Args) (W : list string) : Prop :=
  forall a k, k ∉ W -> f a !! k = a !! k.

(** A step never unsets an option. *)
Definition inflationary (f : Args -> Args) : Prop :=
  forall a k, is_Some (a !! k) -> is_Some (f a !! k).

Definition disjointb (l1 l2 : list string) : bool :=
  forallb (fun k => negb (existsb (String.eqb k) l2)) l1.

Definition run_steps (fs : list (Args -> Args)) (a : Args) : Args :=
  foldl (fun a f => f a) a fs.

Definition rule_bind : SoftRule :=
  {| guard := fun a => IsArgSet a "-bind"; reads := ["-bind"];
     sets := [("-listen", "1")] |}.

Definition rule_whitebind : SoftRule :=
  {| guard := fun a => IsArgSet a "-whitebind"; reads := ["-whitebind"];
     sets := [("-listen", "1")] |}.

Definition rule_connect : SoftRule :=
  {| guard := fun a => IsArgSet a "-connect"; reads := ["-connect"];
     sets := [("-dnsseed", "0"); ("-listen", "0")] |}.

Definition rule_proxy : SoftRule :=
  {| guard := fun a => IsArgSet a "-proxy"; reads := ["-proxy"];
     sets := [("-listen", "0"); ("-upnp", "0"); ("-natpmp", "0");
              ("-discover", "0")] |}.

Definition rule_nolisten (D : Defaults) : SoftRule :=
  {| guard := fun a => negb (GetBoolArg a "-listen" (DEFAULT_LISTEN D));
     reads := ["-listen"];
     sets := [("-upnp", "0"); ("-natpmp", "0"); ("-discover", "0");
              ("-listenonion", "0")] |}.

Definition rule_externalip : SoftRule :=
  {| guard := fun a => IsArgSet a "-externalip"; reads := ["-externalip"];
     sets := [("-discover", "0")] |}.

Definition rule_blocksonly (D : Defaults) : SoftRule :=
  {| guard := fun a => GetBoolArg a "-blocksonly" (DEFAULT_BLOCKSONLY D);
     reads := ["-blocksonly"];
     sets := [("-whitelistrelay", "0")] |}.

Definition rule_forcerelay (D : Defaults) : SoftRule :=
  {| guard := fun a =>
       GetBoolArg a "-whitelistforcerelay" (DEFAULT_WHITELISTFORCERELAY D);
     reads := ["-whitelistforcerelay"];
     sets := [("-whitelistrelay", "1")] |}.

Definition rule_prune : SoftRule :=
  {| guard := fun a => Z.ltb 0 (GetArg a "-prune" 0); reads := ["-prune"];
     sets := [("-disablegovernance", "1"); ("-txindex", "0")] |}.

Definition rule_masternode : SoftRule :=
  {| guard := fun a => IsArgSet a "-masternodeblsprivkey";
     reads := ["-masternodeblsprivkey"];
     sets := [("-disablewallet", "1")] |}.

(** The steps of [InitParameterInteraction] as functions on the store. *)
Definition interaction_steps (D : Defaults) : list (Args -> Args) :=
  [apply_rule rule_bind; apply_rule rule_whitebind; apply_rule rule_connect;
   apply_rule rule_proxy; apply_rule (rule_nolisten D);
   apply_rule rule_externalip; apply_rule (rule_blocksonly D);
   apply_rule (rule_forcerelay D); apply_rule rule_prune;
   exec (pi_indexes D); apply_rule rule_masternode].

(** The options [InitParameterInteraction] may write. *)
Definition interaction_targets : list string :=
  ["-listen"; "-dnsseed"; "-upnp"; "-natpmp"; "-discover"; "-listenonion";
   "-whitelistrelay"; "-disablegovernance"; "-txindex"; "-checklevel";
   "-disablewallet"].

(** The one rule that overrides: [-checklevel]. *)
Definition fAdditionalIndexes (D : Defaults) (a : Args) : bool :=
  GetBoolArg a "-addressindex" (DEFAULT_ADDRESSINDEX D) ||
  GetBoolArg a "-spentindex" (DEFAULT_SPENTINDEX D) ||
  GetBoolArg a "-timestampindex" (DEFAULT_TIMESTAMPINDEX D).

Definition raises_checklevel (D : Defaults) (a : Args) : bool :=
  fAdditionalIndexes D a &&
  Z.ltb (GetArg a "-checklevel" (DEFAULT_CHECKLEVEL D)) 4.

(** A computation that only adds options, and that logs nothing when it
    adds nothing. *)
Definition additive (c : M Args string unit) : Prop :=
  (forall a, a ⊆ exec c a) /\ (forall a, exec c a = a -> trace c a = []).

(** The options each step may write, in the order of the steps. *)
Definition step_writes : list (list string) :=
  [["-listen"]; ["-listen"]; ["-dnsseed"; "-listen"];
   ["-listen"; "-upnp"; "-natpmp"; "-discover"];
   ["-upnp"; "-natpmp"; "-discover"; "-listenonion"];
   ["-discover"]; ["-whitelistrelay"]; ["-whitelistrelay"];
   ["-disablegovernance"; "-txindex"]; ["-checklevel"]; ["-disablewallet"]].

(** A value a step leaves was there before or is one of [P]. *)
Definition assigns (f : Args -> Args) (P : list (string * string)) : Prop :=
  forall a k v, f a !! k = Some v -> a !! k = Some v \/ (k, v) ∈ P.

(** The values each step may assign, in the order of the steps. *)
Definition step_assigns : list (list (string * string)) :=
  [sets rule_bind; sets rule_whitebind; sets rule_connect; sets rule_proxy;
   [("-upnp", "0"); ("-natpmp", "0"); ("-discover", "0"); ("-listenonion", "0")];
   sets rule_externalip;
   [("-whitelistrelay", "0")]; [("-whitelistrelay", "1")];
   sets rule_prune; [("-checklevel", "4")]; sets rule_masternode].

(** No step assigns the options of the listening rule anything but 0. *)
Definition turned_off_only : bool :=
  forallb (fun kv : string * string =>
             implb (existsb (String.eqb kv.1)
                      ["-upnp"; "-natpmp"; "-discover"; "-listenonion"])
                   (String.eqb kv.2 "0"))
          (concat step_assigns).

(* ================================================================= *)
(** ** What the import thread leaves behind *)

(** What the import thread may do to the globals before it comes to
    [ActivateBestChain]: raise the shutdown flag, and clear the two reindex
    flags together when a reindex was under way. *)
Definition import_rel (s s' : ImportState) : Prop :=
  (fRequestShutdown s = true -> fRequestShutdown s' = true) /\
  (fReindex s' = true ->
     fReindex s = true /\ reindexing_on_disk s' = reindexing_on_disk s) /\
  (fReindex s = false ->
     fReindex s' = false /\ reindexing_on_disk s' = reindexing_on_disk s) /\
  mempool_is_loaded s' = mempool_is_loaded s.

Definition starts_shutdown (t : list ImportEvent) : bool :=
  existsb (fun e => match e with EvStartShutdown => true | _ => false end) t.

(* ================================================================= *)
(** ** An interrupted pass of the load loop *)

(** A shutdown request arrives while the databases are opened. *)
Definition interrupted_attempt : LoadAttempt :=
  {| arrives_before_attempt := false; throws := fun _ => false; thrown_late := false;
     arrives_during_open := true; LoadBlockIndex_ok := true;
     arrives_during_LoadBlockIndex := false;
     fAddressIndex := false; fTimestampIndex := false; fSpentIndex := false;
     fHavePruned := false; block_index_empty := false; has_genesis := true;
     has_devnet_genesis := false; LoadGenesisBlock_ok := true;
     Upgrade_ok := true; ReplayBlocks_ok := true;
     CommitRootTransaction_ok := true; best_block_null := false;
     LoadChainTip_ok := true; evoDb_IsEmpty := false;
     UpgradeDBIfNeeded_ok := true; quorum_UpgradeDB_ok := true;
     tip_from_future := false; VerifyDB_ok := true; arrives_late := false;
     user_accepts := true |}.

(* ================================================================= *)
(** ** [AppInitParameterInteraction]: limits *)

(** What the build and the headers fix: [MIN_CORE_FILEDESCRIPTORS] is 150,
    or 0 on Windows; [fd_max] is [nFD] where [poll] is used and
    [FD_SETSIZE] elsewhere. *)
Record FdLimits := {
  MIN_CORE_FILEDESCRIPTORS : Z;
  MAX_ADDNODE_CONNECTIONS : Z;
  USE_POLL : bool;
  FD_SETSIZE : Z }.

(** The globals lines 1347-1365 assign. *)
Record ConnectionLimits := {
  nUserMaxConnections : Z;
  nMaxConnections : Z;
  nFD : Z }.

(** The globals lines 1433-1455 assign. *)
Module Prune.

Record globals := {
  nPruneTarget : Z;                   (* uint64_t *)
  fPruneMode : bool }.

End Prune.

Section ConnectionLimit.

Local Open Scope Z_scope.

(** Lines 1347-1365.  [nUserBind] is the number of [-bind] and [-whitebind]
    entries, [maxconnections] the value of
    [gArgs.GetArg("-maxconnections", DEFAULT_MAX_PEER_CONNECTIONS)], and
    [RaiseFileDescriptorLimit] the system call behind the function of that
    name.  The result is the error returned, the warnings given and the
    globals as they are left. *)
Definition trim_connections (L : FdLimits) (nUserBind maxconnections : Z)
    (RaiseFileDescriptorLimit : Z -> Z)
    : option string * list string * ConnectionLimits :=
  let nBind := wrap32 (Z.max nUserBind 1) in
  let nUserMaxConnections := wrap32 maxconnections in
  let nMaxConnections := Z.max nUserMaxConnections 0 in
  let nFD :=
    RaiseFileDescriptorLimit
      (wrap32 (nMaxConnections + MIN_CORE_FILEDESCRIPTORS L
               + MAX_ADDNODE_CONNECTIONS L + nBind)) in
  let fd_max := if USE_POLL L then nFD else FD_SETSIZE L in
  let nMaxConnections :=
    Z.max (Z.min nMaxConnections
             (wrap32 (fd_max - nBind - MIN_CORE_FILEDESCRIPTORS L
                      - MAX_ADDNODE_CONNECTIONS L))) 0 in
  if nFD <? MIN_CORE_FILEDESCRIPTORS L then
    (Some "Not enough file descriptors available.", [],
     {| nUserMaxConnections := nUserMaxConnections;
        nMaxConnections := nMaxConnections; nFD := nFD |})
  else
    let nMaxConnections :=
      Z.min (wrap32 (nFD - MIN_CORE_FILEDESCRIPTORS L
                     - MAX_ADDNODE_CONNECTIONS L)) nMaxConnections in
    (None,
     if nMaxConnections <? nUserMaxConnections
     then ["Reducing -maxconnections from %d to %d, because of system limitations."]
     else [],
     {| nUserMaxConnections := nUserMaxConnections;
        nMaxConnections := nMaxConnections; nFD := nFD |}).

(** Limits and answers that fit an [int] with room to spare. *)
Definition fd_limits_ok (L : FdLimits) : Prop :=
  0 <= MIN_CORE_FILEDESCRIPTORS L < 2^20 /\
  0 <= MAX_ADDNODE_CONNECTIONS L < 2^20 /\
  0 <= FD_SETSIZE L < 2^30.

(** Lines 1433-1455.  [nPruneArg] is [gArgs.GetArg("-prune", 0)],
    [regtest] is [gArgs.GetBoolArg("-regtest", false)], and [p] holds the
    globals as the lines find them. *)
Definition set_prune_target (MIN_DISK_SPACE_FOR_BLOCK_FILES nPruneArg : Z)
    (regtest : bool) (p : Prune.globals) : option string * Prune.globals :=
  if nPruneArg <? 0 then
    (Some "Prune cannot be configured with a negative value.", p)
  else
    let nPruneTarget := u64 (u64 (u64 nPruneArg * 1024) * 1024) in
    if nPruneArg =? 1 then
      (None, {| Prune.nPruneTarget := 2^64 - 1; Prune.fPruneMode := true |})
    else if negb (nPruneTarget =? 0) then
      if regtest then
        if nPruneTarget <? 550 * 1024 * 1024 then
          (Some "Prune configured below the minimum of %d MiB.  Please use a higher number.",
           {| Prune.nPruneTarget := nPruneTarget; Prune.fPruneMode := Prune.fPruneMode p |})
        else (None, {| Prune.nPruneTarget := nPruneTarget; Prune.fPruneMode := true |})
      else
        if nPruneTarget <? MIN_DISK_SPACE_FOR_BLOCK_FILES then
          (Some "Prune configured below the minimum of %d MiB.  Please use a higher number.",
           {| Prune.nPruneTarget := nPruneTarget; Prune.fPruneMode := Prune.fPruneMode p |})
        else (None, {| Prune.nPruneTarget := nPruneTarget; Prune.fPruneMode := true |})
    else (None, {| Prune.nPruneTarget := nPruneTarget; Prune.fPruneMode := Prune.fPruneMode p |}).

(** Lines 1662-1673.  [par] is
    [gArgs.GetArg("-par", DEFAULT_SCRIPTCHECK_THREADS)]. *)
Definition script_check_threads (MAX_SCRIPTCHECK_THREADS GetNumCores par : Z)
    : Z :=
  let script_threads := wrap32 par in
  let script_threads :=
    if script_threads <=? 0 then wrap32 (script_threads + GetNumCores)
    else script_threads in
  let script_threads := Z.max (wrap32 (script_threads - 1)) 0 in
  Z.min script_threads MAX_SCRIPTCHECK_THREADS.

End ConnectionLimit.

(* ================================================================= *)
(** ** [AppInitParameterInteraction]: the pruning and masternode checks *)

(** Defaults of headers that are not among the sources at hand. *)
Record CheckDefaults := {
  DEFAULT_TXINDEX : bool;
  DEFAULT_PEERBLOOMFILTERS : bool;
  DEFAULT_MAX_PEER_CONNECTIONS : Z }.

(** Lines 1314-1323: [if (gArgs.GetArg("-prune", 0)) { ... }].
    [filter_types_empty] is [g_enabled_filter_types.empty()]. *)
Definition prune_compatibility (C : CheckDefaults) (a : Args)
    (filter_types_empty : bool) : option string :=
  if negb (Z.eqb (GetArg a "-prune" 0) 0) then
    if GetBoolArg a "-txindex" (DEFAULT_TXINDEX C) then
      Some "Prune mode is incompatible with -txindex."
    else if negb (GetBoolArg a "-disablegovernance" false) then
      Some "Prune mode is incompatible with -disablegovernance=false."
    else if negb filter_types_empty then
      Some "Prune mode is incompatible with -blockfilterindex."
    else None
  else None.

(** Lines 1529-1548: [if (gArgs.IsArgSet("-masternodeblsprivkey")) { ... }]. *)
Definition masternode_requirements (D : Defaults) (C : CheckDefaults)
    (RequireRoutableExternalIP : bool) (a : Args) : option string :=
  if IsArgSet a "-masternodeblsprivkey" then
    if negb (GetBoolArg a "-listen" (DEFAULT_LISTEN D))
       && RequireRoutableExternalIP then
      Some "Masternode must accept connections from outside, set -listen=1"
    else if negb (GetBoolArg a "-txindex" (DEFAULT_TXINDEX C)) then
      Some "Masternode must have transaction index enabled, set -txindex=1"
    else if negb (GetBoolArg a "-peerbloomfilters" (DEFAULT_PEERBLOOMFILTERS C)) then
      Some "Masternode must have bloom filters enabled, set -peerbloomfilters=1"
    else if Z.ltb 0 (GetArg a "-prune" 0) then
      Some "Masternode must have no pruning enabled, set -prune=0"
    else if Z.ltb (GetArg a "-maxconnections" (DEFAULT_MAX_PEER_CONNECTIONS C))
                  (DEFAULT_MAX_PEER_CONNECTIONS C) then
      Some "Masternode must be able to handle at least %d connections, set -maxconnections=%d"
    else if GetBoolArg a "-disablegovernance" false then
      Some "You can not disable governance validation on a masternode."
    else None
  else None.

(* ================================================================= *)
(** ** The service bits and the proxies *)

(** The flags of [protocol.h], which is not among the sources at hand. *)
Record ServiceBits := {
  NODE_NETWORK : Z;
  NODE_BLOOM : Z;
  NODE_COMPACT_FILTERS : Z;
  NODE_NETWORK_LIMITED : Z;
  NODE_HEADERS_COMPRESSED : Z }.

Section Services.

Local Open Scope Z_scope.

Variable B : ServiceBits.

(** Line 1194: the initial value of [nLocalServices]. *)
Definition initial_services : Z :=
  Z.lor (Z.lor (NODE_NETWORK B) (NODE_NETWORK_LIMITED B))
        (NODE_HEADERS_COMPRESSED B).

(** Lines 1305-1311 of [AppInitParameterInteraction].  [peerblockfilters]
    is [gArgs.GetBoolArg("-peerblockfilters", DEFAULT_PEERBLOCKFILTERS)],
    [basic_count] is [g_enabled_filter_types.count(BASIC_FILTER)]. *)
Definition signal_compact_filters (peerblockfilters : bool) (basic_count : Z)
    (nLocalServices : Z) : option string * Z :=
  if peerblockfilters then
    if negb (basic_count =? 1) then
      (Some "Cannot set -peerblockfilters without -blockfilterindex.",
       nLocalServices)
    else (None, Z.lor nLocalServices (NODE_COMPACT_FILTERS B))
  else (None, nLocalServices).

(** Lines 1514-1515 of [AppInitParameterInteraction]. *)
Definition signal_bloom (peerbloomfilters : bool) (nLocalServices : Z) : Z :=
  if peerbloomfilters then Z.lor nLocalServices (NODE_BLOOM B)
  else nLocalServices.

(** Lines 2208-2211 of [AppInitMain]:
    [nLocalServices = ServiceFlags(nLocalServices & ~NODE_NETWORK)]. *)
Definition unset_node_network (fPruneMode : bool) (nLocalServices : Z) : Z :=
  if fPruneMode then Z.land nLocalServices (Z.lnot (NODE_NETWORK B))
  else nLocalServices.

(** The services a node ends up announcing, when start-up gets that far. *)
Definition announced_services (peerblockfilters : bool) (basic_count : Z)
    (peerbloomfilters fPruneMode : bool) : option string * Z :=
  let r := signal_compact_filters peerblockfilters basic_count initial_services in
  match r.1 with
  | Some e => (Some e, r.2)
  | None => (None, unset_node_network fPruneMode (signal_bloom peerbloomfilters r.2))
  end.

(** Each flag is one bit, all different. *)
Definition bits_ok (net bloom cf lim hc : Z) : Prop :=
  NODE_NETWORK B = 2^net /\ NODE_BLOOM B = 2^bloom /\
  NODE_COMPACT_FILTERS B = 2^cf /\ NODE_NETWORK_LIMITED B = 2^lim /\
  NODE_HEADERS_COMPRESSED B = 2^hc /\
  NoDup [net; bloom; cf; lim; hc] /\
  Forall (fun i => 0 <= i < 64) [net; bloom; cf; lim; hc].

End Services.

(** The bits as upstream numbers them. *)
Definition upstream_bits : ServiceBits :=
  {| NODE_NETWORK := 1; NODE_BLOOM := 4; NODE_COMPACT_FILTERS := 64;
     NODE_NETWORK_LIMITED := 1024; NODE_HEADERS_COMPRESSED := 2048 |}.

(** What lines 1807-1844 set: the proxy per network, the name proxy, and
    whether the onion network counts as reachable.  An address is an
    abstract value. *)
Record ProxySettings := {
  proxy_ipv4 : option nat;
  proxy_ipv6 : option nat;
  proxy_onion : option nat;
  name_proxy : option nat;
  onion_reachable : bool }.

Definition GetArgStr (a : Args) (k : string) (strDefault : string) : string :=
  match a !! k with
  | Some v => v
  | None => strDefault
  end.

(** Lines 1807-1844.  [Lookup s] is the address [Lookup] finds for [s] with
    which [proxyType::IsValid] agrees, if there is one. *)
Definition setup_proxies (Lookup : string -> option nat) (a : Args)
    (p : ProxySettings) : option string * ProxySettings :=
  let proxyArg := GetArgStr a "-proxy" "" in
  let p := {| proxy_ipv4 := proxy_ipv4 p; proxy_ipv6 := proxy_ipv6 p;
              proxy_onion := proxy_onion p; name_proxy := name_proxy p;
              onion_reachable := false |} in
  let r :=
    if negb (String.eqb proxyArg "") && negb (String.eqb proxyArg "0") then
      match Lookup proxyArg with
      | None => (Some "Invalid -proxy address or hostname: '%s'", p)
      | Some addrProxy =>
          (None, {| proxy_ipv4 := Some addrProxy; proxy_ipv6 := Some addrProxy;
                    proxy_onion := Some addrProxy; name_proxy := Some addrProxy;
                    onion_reachable := true |})
      end
    else (None, p) in
  match r.1 with
  | Some e => (Some e, r.2)
  | None =>
      let p := r.2 in
      let onionArg := GetArgStr a "-onion" "" in
      if negb (String.eqb onionArg "") then
        if String.eqb onionArg "0" then
          (None, {| proxy_ipv4 := proxy_ipv4 p; proxy_ipv6 := proxy_ipv6 p;
                    proxy_onion := proxy_onion p; name_proxy := name_proxy p;
                    onion_reachable := false |})
        else
          match Lookup onionArg with
          | None => (Some "Invalid -onion address or hostname: '%s'", p)
          | Some addrOnion =>
              (None, {| proxy_ipv4 := proxy_ipv4 p; proxy_ipv6 := proxy_ipv6 p;
                        proxy_onion := Some addrOnion;
                        name_proxy := name_proxy p;
                        onion_reachable := true |})
          end
      else (None, p)
  end.

(** An option that is given and is neither empty nor [0]. *)
Definition names_address (a : Args) (k : string) : bool :=
  negb (String.eqb (GetArgStr a k "") "") &&
  negb (String.eqb (GetArgStr a k "") "0").

(* ================================================================= *)
(** ** [CleanupBlockRevFiles] *)

(** An entry of the blocks directory as the directory iterator gives it. *)
Record DirEntry := {
  filename : string;                  (* it->path().filename().string() *)
  is_regular_file : bool }.

(** [std::string::substr(pos, n)], for [pos] within the string. *)
Definition substr (s : string) (pos n : nat) : string := String.substring pos n s.

(** [mapBlockFiles[k] = v] on a [std::map<std::string, fs::path>], kept as
    the list of its pairs in the order of the keys, which is the order of
    [std::string]: byte by byte. *)
Fixpoint map_assign (k v : string) (m : list (string * string))
    : list (string * string) :=
  match m with
  | [] => [(k, v)]
  | (k', v') :: rest =>
      match String.compare k k' with
      | Lt => (k, v) :: m
      | Eq => (k, v) :: rest
      | Gt => (k', v') :: map_assign k v rest
      end
  end.

(** The first loop: the undo files are removed at once, the block files
    are collected by the five characters after [blk].  The result is the
    map and the files removed, in the order of their removal. *)
Fixpoint glob_block_files (dir : list DirEntry) (mapBlockFiles : list (string * string))
    : list (string * string) * list string :=
  match dir with
  | [] => (mapBlockFiles, [])
  | it :: rest =>
      let name := filename it in
      if is_regular_file it && Nat.eqb (String.length name) 12
         && String.eqb (substr name 8 4) ".dat" then
        if String.eqb (substr name 0 3) "blk" then
          glob_block_files rest (map_assign (substr name 3 5) name mapBlockFiles)
        else if String.eqb (substr name 0 3) "rev" then
          let r := glob_block_files rest mapBlockFiles in (r.1, name :: r.2)
        else glob_block_files rest mapBlockFiles
      else glob_block_files rest mapBlockFiles
  end.

(** The second loop: the block files that do not continue the run that
    starts at file 0 are removed. *)
Fixpoint remove_after_gap (mapBlockFiles : list (string * string))
    (nContigCounter : Z) : list string :=
  match mapBlockFiles with
  | [] => []
  | (key, path) :: rest =>
      if Z.eqb (atoi key) nContigCounter then
        remove_after_gap rest (wrap32 (nContigCounter + 1))
      else path :: remove_after_gap rest nContigCounter
  end.

(** The files [CleanupBlockRevFiles] removes, in the order of removal. *)
Definition CleanupBlockRevFiles (dir : list DirEntry) : list string :=
  let r := glob_block_files dir [] in
  r.2 ++ remove_after_gap r.1 0.

(** A regular file named like a block file or an undo file:
    twelve characters, [.dat] at the end, [prefix] at the start. *)
Definition names_like (prefix : string) (it : DirEntry) : bool :=
  is_regular_file it && Nat.eqb (String.length (filename it)) 12
  && String.eqb (substr (filename it) 8 4) ".dat"
  && String.eqb (substr (filename it) 0 3) prefix.

(** The five characters by which a block file is filed. *)
Definition block_file_key (it : DirEntry) : string := substr (filename it) 3 5.

Fixpoint all_digits (s : string) : bool :=
  match s with
  | EmptyString => true
  | String c r => bool_decide (is_Some (digit_of c)) && all_digits r
  end.

(** What the map holds while the directory is read: its pairs in the
    order of the numbers, each path named after its key. *)
Definition named_after_key (kp : string * string) : Prop :=
  String.length kp.1 = 5%nat /\ all_digits kp.1 = true /\
  kp.1 = substr kp.2 3 5 /\ kp.2 = ("blk" +:+ kp.1 +:+ ".dat")%string.

Fixpoint increasing (m : list (string * string)) : Prop :=
  match m with
  | [] => True
  | kp :: rest =>
      Forall (fun y => (digits_value kp.1 0 < digits_value y.1 0)%Z) rest /\
      increasing rest
  end.

Definition in_order (m : list (string * string)) : Prop :=
  increasing m /\ Forall named_after_key m.

(* ================================================================= *)
(** ** [WalletInit::ParameterInteraction] *)

(** Defaults declared in headers that are not among the sources at hand. *)
Record WalletDefaults := {
  DEFAULT_DISABLE_WALLET : bool;
  DEFAULT_COINJOIN_DENOMS_HARDCAP : Z;
  DEFAULT_COINJOIN_DENOMS_GOAL : Z }.

Section WalletParameterInteraction.

Local Open Scope code_scope.

(** What the function takes from elsewhere: [gArgs.ForceRemoveArg], the
    values of the option [-wallet], which may be given several times,
    [fs::is_directory] and [IsHex]. *)
Variable ForceRemoveArg : string -> Args -> Args.

Variable wallets : list string.

Variable is_directory : string -> bool.

Variable IsHex : string -> bool.

(** [wallet/init.cpp], lines 96-166.  The result is the error with which
    the function returns false, if it does; the trace holds the log lines
    and the warnings. *)
Definition WalletInit_ParameterInteraction (D : Defaults) (W : WalletDefaults)
    : M Args string (option string) :=
  a <- gets id ;;
  if GetBoolArg a "-disablewallet" (DEFAULT_DISABLE_WALLET W) then
    (fun s => (None, s,
       (fun _ : string => "parameter interaction: -disablewallet -> ignoring -wallet=%s")
         <$> wallets))
  else if IsArgSet a "-masternodeblsprivkey" then
    ret (Some "You can not start a masternode with wallet enabled.")
  else
    let is_multiwallet := Nat.ltb 1 (length wallets) in
    when (GetBoolArg a "-blocksonly" (DEFAULT_BLOCKSONLY D))
      (soft_set "-walletbroadcast" false
         "parameter interaction: -blocksonly=1 -> setting -walletbroadcast=0") ;;
    a <- gets id ;;
    let zapwallettxes := GetBoolArg a "-zapwallettxes" false in
    when zapwallettxes
      (soft_set "-persistmempool" false
         "parameter interaction: -zapwallettxes enabled -> setting -persistmempool=0") ;;
    if zapwallettxes && is_multiwallet then
      ret (Some "%s is only allowed with a single wallet file")
    else
      when zapwallettxes
        (soft_set "-rescan" true
           "parameter interaction: -zapwallettxes enabled -> setting -rescan=1") ;;
      a <- gets id ;;
      let rescan_mode := wrap32 (GetArg a "-rescan" 0) in
      when (Z.ltb rescan_mode 0 || Z.ltb 2 rescan_mode)
        (emit "Warning: incorrect -rescan mode, falling back to default value." ;;
         emit "Incorrect -rescan mode, falling back to default value" ;;
         modify (ForceRemoveArg "-rescan")) ;;
      a <- gets id ;;
      if is_multiwallet && GetBoolArg a "-upgradewallet" false then
        ret (Some "%s is only allowed with a single wallet file")
      else if GetBoolArg a "-sysperms" false then
        ret (Some "-sysperms is not allowed in combination with enabled wallet functionality")
      else if negb (Z.eqb (GetArg a "-prune" 0) 0) && GetBoolArg a "-rescan" false then
        ret (Some "Rescans are not possible in pruned mode. You will need to use -reindex which will download the whole blockchain again.")
      else
        when (IsArgSet a "-walletbackupsdir"
              && negb (is_directory (GetArgStr a "-walletbackupsdir" "")))
          (emit "Warning: incorrect parameter %s, path must exist! Using default path." ;;
           modify (ForceRemoveArg "-walletbackupsdir")) ;;
        a <- gets id ;;
        when (IsArgSet a "-hdseed" && IsHex (GetArgStr a "-hdseed" "not hex")
              && (IsArgSet a "-mnemonic" || IsArgSet a "-mnemonicpassphrase"))
          (emit "Warning: can't use %s and %s together, will prefer %s" ;;
           modify (ForceRemoveArg "-mnemonic") ;;
           modify (ForceRemoveArg "-mnemonicpassphrase")) ;;
        a <- gets id ;;
        if Z.ltb (GetArg a "-coinjoindenomshardcap" (DEFAULT_COINJOIN_DENOMS_HARDCAP W))
                 (GetArg a "-coinjoindenomsgoal" (DEFAULT_COINJOIN_DENOMS_GOAL W)) then
          ret (Some "%s can't be lower than %s")
        else ret None.

End WalletParameterInteraction.

Section WalletStores.

Variable ForceRemoveArg : string -> Args -> Args.

Variable is_directory : string -> bool.

Variable IsHex : string -> bool.

Variable D : Defaults.

(** The stores a run with the wallet enabled goes through: after the soft
    settings, after the rescan mode is put right, and at the end. *)
Definition wallet_soft_sets (a : Args) : Args :=
  let a1 := if GetBoolArg a "-blocksonly" (DEFAULT_BLOCKSONLY D)
            then soft a ("-walletbroadcast", "0") else a in
  let a2 := if GetBoolArg a1 "-zapwallettxes" false
            then soft a1 ("-persistmempool", "0") else a1 in
  if GetBoolArg a1 "-zapwallettxes" false then soft a2 ("-rescan", "1") else a2.

Definition bad_rescan_mode (a : Args) : bool :=
  Z.ltb (wrap32 (GetArg a "-rescan" 0)) 0 || Z.ltb 2 (wrap32 (GetArg a "-rescan" 0)).

Definition wallet_rescan_fixed (a : Args) : Args :=
  let a3 := wallet_soft_sets a in
  if bad_rescan_mode a3 then ForceRemoveArg "-rescan" a3 else a3.

Definition bad_backups_dir (a : Args) : bool :=
  IsArgSet a "-walletbackupsdir"
  && negb (is_directory (GetArgStr a "-walletbackupsdir" "")).

Definition seed_and_mnemonic (a : Args) : bool :=
  IsArgSet a "-hdseed" && IsHex (GetArgStr a "-hdseed" "not hex")
  && (IsArgSet a "-mnemonic" || IsArgSet a "-mnemonicpassphrase").

Definition wallet_final (a : Args) : Args :=
  let a4 := wallet_rescan_fixed a in
  let a5 := if bad_backups_dir a4 then ForceRemoveArg "-walletbackupsdir" a4 else a4 in
  if seed_and_mnemonic a5
  then ForceRemoveArg "-mnemonicpassphrase" (ForceRemoveArg "-mnemonic" a5)
  else a5.

End WalletStores.

(** [ForceRemoveArg] takes the option out of the store and touches no
    other. *)
Definition removes (ForceRemoveArg : string -> Args -> Args) : Prop :=
  forall k (a : Args),
    ForceRemoveArg k a !! k = None /\
    forall k', k' <> k -> ForceRemoveArg k a !! k' = a !! k'.

(** The options the function may write. *)
Definition wallet_targets : list string :=
  ["-walletbroadcast"; "-persistmempool"; "-rescan"; "-walletbackupsdir";
   "-mnemonic"; "-mnemonicpassphrase"].

(** Two stores that agree on every option outside [l]. *)
Definition same_outside (l : list string) (a b : Args) : Prop :=
  forall k, k ∉ l -> b !! k = a !! k.

(* ================================================================= *)
(** ** Further examples *)

(** Limits as a POSIX build of upstream has them, used in examples. *)
Definition example_fd_limits : FdLimits :=
  {| MIN_CORE_FILEDESCRIPTORS := 150; MAX_ADDNODE_CONNECTIONS := 8;
     USE_POLL := true; FD_SETSIZE := 1024 |}.

(** A system that grants what is asked for, up to 1024 descriptors. *)
Definition grant_up_to_1024 (n : Z) : Z := Z.max 0 (Z.min n 1024).

(** Defaults as upstream declares them, used in examples. *)
Definition example_check_defaults : CheckDefaults :=
  {| DEFAULT_TXINDEX := true; DEFAULT_PEERBLOOMFILTERS := true;
     DEFAULT_MAX_PEER_CONNECTIONS := 125 |}.

(** A lookup that knows one address, and settings with no proxy. *)
Definition example_lookup (s : string) : option nat :=
  if String.eqb s "127.0.0.1:9050" then Some 1%nat else None.

Definition no_proxies : ProxySettings :=
  {| proxy_ipv4 := None; proxy_ipv6 := None; proxy_onion := None;
     name_proxy := None; onion_reachable := false |}.

(** A blocks directory with a gap after the first block file. *)
Definition example_blocksdir : list DirEntry :=
  [ {| filename := "blk00000.dat"; is_regular_file := true |};
    {| filename := "rev00000.dat"; is_regular_file := true |};
    {| filename := "blk00002.dat"; is_regular_file := true |} ].

(** Wallet defaults as upstream declares them, used in examples. *)
Definition example_wallet_defaults : WalletDefaults :=
  {| DEFAULT_DISABLE_WALLET := false; DEFAULT_COINJOIN_DENOMS_HARDCAP := 300;
     DEFAULT_COINJOIN_DENOMS_GOAL := 50 |}.

(** The wallet's parameter interaction with one wallet, every directory
    there and removal by [delete]. *)
Definition example_wallet_interaction : M Args string (option string) :=
  WalletInit_ParameterInteraction (fun k a => delete k a) [] (fun _ => true)
    (fun _ => true) example_defaults example_wallet_defaults.

(* ================================================================= *)
(** * Proofs *)

(* ================================================================= *)
(** ** The cache budget *)

Section CacheBudgetProofs.
Local Open Scope Z_scope.

Lemma pow_2_20 : 2^20 = 1048576. Proof. reflexivity. Qed.

Lemma pow_2_23 : 2^23 = 8388608. Proof. reflexivity. Qed.

Lemma pow_2_43 : 2^43 = 8796093022208. Proof. reflexivity. Qed.

Lemma pow_2_63 : 2^63 = 9223372036854775808. Proof. reflexivity. Qed.

Lemma pow_2_64 : 2^64 = 18446744073709551616. Proof. reflexivity. Qed.

Lemma wrap64_small z :
  - 9223372036854775808 <= z < 9223372036854775808 -> wrap64 z = z.
Proof.
  intros H. unfold wrap64. rewrite pow_2_63, pow_2_64.
  rewrite Z.mod_small; lia.
Qed.

Lemma u64_small z : 0 <= z < 18446744073709551616 -> u64 z = z.
Proof. intros H. unfold u64. rewrite pow_2_64. apply Z.mod_small; lia. Qed.

Lemma shl20_small x : 0 <= x < 8796093022208 -> shl20 x = x * 1048576.
Proof.
  intros H. unfold shl20. rewrite Z.shiftl_mul_pow2 by lia.
  rewrite pow_2_20. apply wrap64_small. lia.
Qed.

Lemma quot_nonneg a b : 0 <= a -> 0 < b -> Z.quot a b = a / b.
Proof. intros. apply Z.quot_div_nonneg; lia. Qed.

(** C3, amended: for every [-dbcache] value between the minimum and the
    maximum, the budget follows the waterfall of the code.  The block index takes
    [min(total/8, cap)]; the index caches are served next, each stage taking
    [min(remaining/8, cap)]: the transaction index (nothing when it is
    disabled), then the block filter indexes, which share their stage
    evenly; the on-disk coin cache takes between a quarter and a half of the
    remainder, capped; the in-memory coin cache takes the rest.  The
    partitions add up to the configured total, so their sum never exceeds
    it, and none exceeds its cap. *)
Theorem cache_budget_waterfall (L : DbCacheLimits) (dbcache : Z) (txindex : bool) (n : Z) :
  limits_ok L -> nMinDbCache L <= dbcache <= nMaxDbCache L -> 0 <= n < 2^64 ->
  let total := dbcache * 2^20 in
  let b := cache_budget L dbcache txindex n in
  let r1 := total - nBlockTreeDBCache b in
  let r2 := r1 - nTxIndexCache b in
  let r3 := r2 - filter_index_cache b * n in
  nBlockTreeDBCache b = Z.min (total / 8) (nMaxBlockDBCache L * 2^20) /\
  nTxIndexCache b =
    Z.min (r1 / 8) (if txindex then nMaxTxIndexCache L * 2^20 else 0) /\
  filter_index_cache b =
    (if n =? 0 then 0
     else Z.min (r2 / 8) (max_filter_index_cache L * 2^20) / n) /\
  filter_index_cache b * n <= Z.min (r2 / 8) (max_filter_index_cache L * 2^20) /\
  nCoinDBCache b =
    Z.min (Z.min (r3 / 2) (r3 / 4 + 2^23)) (nMaxCoinsDBCache L * 2^20) /\
  r3 / 4 <= Z.min (r3 / 2) (r3 / 4 + 2^23) <= r3 / 2 /\
  nCoinCacheUsage b = r3 - nCoinDBCache b /\
  budget_sum n b = total /\
  budget_sum n b <= total /\
  0 <= nBlockTreeDBCache b <= nMaxBlockDBCache L * 2^20 /\
  0 <= nTxIndexCache b <= nMaxTxIndexCache L * 2^20 /\
  0 <= filter_index_cache b <= max_filter_index_cache L * 2^20 /\
  0 <= nCoinDBCache b <= nMaxCoinsDBCache L * 2^20 /\
  0 <= nCoinCacheUsage b.
Proof.
  intros (Hmin & Hmax & HB & HT & HF & HC) Hdb Hn.
  cbv zeta. unfold limits_ok in *.
  rewrite ?pow_2_20, ?pow_2_23, ?pow_2_43, ?pow_2_64 in *.
  assert (Htot : 0 <= dbcache * 1048576 < 9223372036854775808) by lia.
  unfold cache_budget. change (Z.shiftl 1 23) with 8388608.
  rewrite !shl20_small by lia.
  rewrite (Z.max_l (dbcache * 1048576)) by lia.
  rewrite (Z.min_l (dbcache * 1048576) (nMaxDbCache L * 1048576)) by lia.
  set (total := dbcache * 1048576).
  rewrite (quot_nonneg total 8) by lia.
  set (bt := Z.min (total / 8) (nMaxBlockDBCache L * 1048576)).
  assert (Hbt : 0 <= bt <= total / 8 /\ bt <= nMaxBlockDBCache L * 1048576).
  { subst bt. pose proof (Z.div_pos total 8). lia. }
  assert (Hd8 : total / 8 <= total) by (apply Z.div_le_upper_bound; lia).
  rewrite (wrap64_small (total - bt)) by lia.
  set (r1 := total - bt).
  rewrite (quot_nonneg r1 8) by lia.
  set (tx := Z.min (r1 / 8) (if txindex then nMaxTxIndexCache L * 1048576 else 0)).
  assert (Hr1d : 0 <= r1 / 8 <= r1).
  { split; [apply Z.div_pos; lia | apply Z.div_le_upper_bound; lia]. }
  assert (Htx : 0 <= tx <= r1 / 8 /\ tx <= nMaxTxIndexCache L * 1048576).
  { subst tx. destruct txindex; lia. }
  rewrite (wrap64_small (r1 - tx)) by lia.
  set (r2 := r1 - tx).
  assert (Hr2d : 0 <= r2 / 8 <= r2).
  { split; [apply Z.div_pos; lia | apply Z.div_le_upper_bound; lia]. }
  rewrite (quot_nonneg r2 8) by lia.
  set (pool := Z.min (r2 / 8) (max_filter_index_cache L * 1048576)).
  assert (Hpool : 0 <= pool <= r2 / 8 /\ pool <= max_filter_index_cache L * 1048576)
    by (subst pool; lia).
  assert (Hsplit : forall r3, 0 <= r3 < 9223372036854775808 ->
     0 <= r3 / 4 <= Z.min (r3 / 2) (r3 / 4 + 8388608) /\
     Z.min (r3 / 2) (r3 / 4 + 8388608) <= r3 / 2 /\ r3 / 2 <= r3 /\
     4 * (r3 / 4) <= r3).
  { intros r3 Hr3. pose proof (Z.div_pos r3 4).
    assert (r3 / 4 <= r3 / 2).
    { apply Z.div_le_lower_bound; [lia|]. pose proof (Z.mul_div_le r3 4). lia. }
    assert (r3 / 2 <= r3) by (apply Z.div_le_upper_bound; lia).
    pose proof (Z.mul_div_le r3 4). lia. }
  destruct (Z.eqb_spec n 0) as [Hn0 | Hn0]; cbn [negb].
  - (* no filter index is enabled *)
    subst n. cbn beta iota zeta.
    rewrite !(quot_nonneg r2) by lia.
    destruct (Hsplit r2) as (S1 & S2 & S3 & S4); [lia|].
    rewrite (wrap64_small (r2 / 4 + 8388608)) by lia.
    set (cdb := Z.min (Z.min (r2 / 2) (r2 / 4 + 8388608)) (nMaxCoinsDBCache L * 1048576)).
    assert (Hcdb : 0 <= cdb <= r2 / 2) by (subst cdb; lia).
    rewrite (wrap64_small (r2 - cdb)) by lia.
    unfold budget_sum.
    cbn [nBlockTreeDBCache nTxIndexCache filter_index_cache nCoinDBCache nCoinCacheUsage].
    fold r1 r2. rewrite !Z.mul_0_r, !Z.sub_0_r. fold pool. fold cdb.
    repeat split; try lia.
  - fold pool.
    rewrite (u64_small pool) by lia. rewrite (u64_small n) by lia.
    assert (Hfi : 0 <= pool / n <= pool).
    { split; [apply Z.div_pos; lia | apply Z.div_le_upper_bound; nia]. }
    assert (Hfin : 0 <= pool / n * n <= pool).
    { pose proof (Z.mul_div_le pool n). nia. }
    rewrite (wrap64_small (pool / n)) by lia.
    rewrite (u64_small (pool / n)) by lia.
    rewrite (u64_small (pool / n * n)) by lia.
    rewrite (u64_small r2) by lia.
    rewrite (wrap64_small (r2 - pool / n * n)) by lia.
    cbn beta iota zeta.
    set (r3 := r2 - pool / n * n).
    rewrite !(quot_nonneg r3) by lia.
    destruct (Hsplit r3) as (S1 & S2 & S3 & S4); [lia|].
    rewrite (wrap64_small (r3 / 4 + 8388608)) by lia.
    set (cdb := Z.min (Z.min (r3 / 2) (r3 / 4 + 8388608)) (nMaxCoinsDBCache L * 1048576)).
    assert (Hcdb : 0 <= cdb <= r3 / 2) by (subst cdb; lia).
    rewrite (wrap64_small (r3 - cdb)) by lia.
    unfold budget_sum.
    cbn [nBlockTreeDBCache nTxIndexCache filter_index_cache nCoinDBCache nCoinCacheUsage].
    fold r1 r2 pool r3 cdb.
    repeat split; try lia.
Qed.

(** The budget of the default 300 MiB with the transaction index and one
    block filter index. *)
Lemma cache_budget_waterfall_witness :
  budget_sum 1 (cache_budget upstream_limits 300 true 1) = 300 * 2^20.
Proof.
  apply (cache_budget_waterfall upstream_limits 300 true 1);
    vm_compute; repeat split; congruence.
Defined.

(** C3 as stated fails: the index caches do not split one second pool of
    an eighth of the total.  With [-dbcache=300], the transaction index and
    one block filter index, the transaction index alone takes an eighth of
    what the block index has left, and the filter index an eighth of what
    is left after that: the two shares differ, and together they come to
    more than an eighth of the total, and to more than an eighth of what
    the block index has left. *)
Lemma index_caches_share_no_pool :
  let total := 300 * 2^20 in
  let b := cache_budget upstream_limits 300 true 1 in
  nBlockTreeDBCache b = 2 * 2^20 /\
  nTxIndexCache b = 39059456 /\
  filter_index_cache b = 34177024 /\
  nTxIndexCache b <> filter_index_cache b /\
  total / 8 < nTxIndexCache b + filter_index_cache b /\
  (total - nBlockTreeDBCache b) / 8 < nTxIndexCache b + filter_index_cache b /\
  forall pool, ~ (nTxIndexCache b = pool / 2 /\ filter_index_cache b = pool / 2).
Proof.
  cbv zeta.
  assert (E : cache_budget upstream_limits 300 true 1 =
              {| nBlockTreeDBCache := 2097152; nTxIndexCache := 39059456;
                 filter_index_cache := 34177024; nCoinDBCache := 8388608;
                 nCoinCacheUsage := 230850560 |}) by (vm_compute; reflexivity).
  rewrite E.
  cbn [nBlockTreeDBCache nTxIndexCache filter_index_cache].
  split_and!; [reflexivity | reflexivity | reflexivity | discriminate
              | by vm_compute | by vm_compute |].
  intros pool [H1 H2]. rewrite <- H1 in H2. discriminate H2.
Qed.

End CacheBudgetProofs.

(* ================================================================= *)
(** ** Parameter interaction *)

Section MonadLaws.

Context {S E : Type}.

Lemma exec_bind {A B} (c : M S E A) (k : A -> M S E B) s :
  exec (bind c k) s = exec (k (result c s)) (exec c s).
Proof. reflexivity. Qed.

Lemma result_bind {A B} (c : M S E A) (k : A -> M S E B) s :
  result (bind c k) s = result (k (result c s)) (exec c s).
Proof. reflexivity. Qed.

Lemma trace_bind {A B} (c : M S E A) (k : A -> M S E B) s :
  trace (bind c k) s = trace c s ++ trace (k (result c s)) (exec c s).
Proof. reflexivity. Qed.

Lemma run_eta {A} (c : M S E A) s : c s = (result c s, exec c s, trace c s).
Proof. unfold result, exec, trace. destruct (c s) as [[a s'] t]. reflexivity. Qed.

End MonadLaws.

Lemma exec_soft_set k b msg a : exec (soft_set k b msg) a = soft a (k, bool_arg b).
Proof.
  unfold soft_set, SoftSetBoolArg, soft, exec, bind, IsArgSet. cbn.
  case_bool_decide as H; cbn.
  - destruct H as [v ->]. reflexivity.
  - destruct (a !! k) eqn:E; [exfalso; eauto | reflexivity].
Qed.

Lemma soft_extends a kv k v : a !! k = Some v -> soft a kv !! k = Some v.
Proof.
  intros H. unfold soft. destruct (a !! kv.1) eqn:E; [done|].
  rewrite lookup_insert_ne; [done | congruence].
Qed.

Lemma soft_other a kv k : kv.1 ≠ k -> soft a kv !! k = a !! k.
Proof.
  intros H. unfold soft. destruct (a !! kv.1); [done|]. by rewrite lookup_insert_ne.
Qed.

Lemma soft_fresh a k v : a !! k = None -> soft a (k, v) !! k = Some v.
Proof. intros H. unfold soft. cbn. rewrite H. apply lookup_insert_eq. Qed.

Lemma softs_extends l a k v : a !! k = Some v -> softs a l !! k = Some v.
Proof.
  revert a. induction l as [|kv l IH]; intros a H; [done|].
  cbn. apply IH. by apply soft_extends.
Qed.

Lemma softs_other l a k : k ∉ l.*1 -> softs a l !! k = a !! k.
Proof.
  revert a. induction l as [|kv l IH]; intros a H; [done|].
  cbn in *. apply not_elem_of_cons in H as [H1 H2].
  rewrite IH by done. apply soft_other. congruence.
Qed.

Lemma exec_gets {A B} (f : Args -> A) (k : A -> M Args string B) a :
  exec (bind (gets f) k) a = exec (k (f a)) a.
Proof. reflexivity. Qed.

Lemma exec_ret {A} (x : A) (a : Args) : exec (ret (E:=string) x) a = a.
Proof. reflexivity. Qed.

Ltac phase :=
  intros; rewrite exec_gets; unfold when; cbv [id];
  match goal with
  | |- context [exec (if ?g then _ else _) _] =>
      destruct g; [| reflexivity]
  end;
  rewrite ?exec_bind, ?exec_soft_set; reflexivity.

Lemma pi_bind_exec a :
  exec pi_bind a = if IsArgSet a "-bind" then softs a [("-listen", "1")] else a.
Proof. unfold pi_bind. phase. Qed.

Lemma pi_whitebind_exec a :
  exec pi_whitebind a =
  if IsArgSet a "-whitebind" then softs a [("-listen", "1")] else a.
Proof. unfold pi_whitebind. phase. Qed.

Lemma pi_connect_exec a :
  exec pi_connect a =
  if IsArgSet a "-connect"
  then softs a [("-dnsseed", "0"); ("-listen", "0")] else a.
Proof. unfold pi_connect. phase. Qed.

Lemma pi_proxy_exec a :
  exec pi_proxy a =
  if IsArgSet a "-proxy"
  then softs a [("-listen", "0"); ("-upnp", "0"); ("-natpmp", "0");
                ("-discover", "0")]
  else a.
Proof. unfold pi_proxy. phase. Qed.

Lemma pi_nolisten_exec D a :
  exec (pi_nolisten D) a =
  if negb (GetBoolArg a "-listen" (DEFAULT_LISTEN D))
  then softs a [("-upnp", "0"); ("-natpmp", "0"); ("-discover", "0");
                ("-listenonion", "0")]
  else a.
Proof. unfold pi_nolisten. phase. Qed.

Lemma pi_externalip_exec a :
  exec pi_externalip a =
  if IsArgSet a "-externalip" then softs a [("-discover", "0")] else a.
Proof. unfold pi_externalip. phase. Qed.

Lemma pi_blocksonly_exec D a :
  exec (pi_blocksonly D) a =
  if GetBoolArg a "-blocksonly" (DEFAULT_BLOCKSONLY D)
  then softs a [("-whitelistrelay", "0")] else a.
Proof. unfold pi_blocksonly. phase. Qed.

Lemma pi_forcerelay_exec D a :
  exec (pi_forcerelay D) a =
  if GetBoolArg a "-whitelistforcerelay" (DEFAULT_WHITELISTFORCERELAY D)
  then softs a [("-whitelistrelay", "1")] else a.
Proof. unfold pi_forcerelay. phase. Qed.

Lemma pi_prune_exec a :
  exec pi_prune a =
  if Z.ltb 0 (GetArg a "-prune" 0)
  then softs a [("-disablegovernance", "1"); ("-txindex", "0")] else a.
Proof. unfold pi_prune. phase. Qed.

Lemma pi_masternode_exec a :
  exec pi_masternode a =
  if IsArgSet a "-masternodeblsprivkey"
  then softs a [("-disablewallet", "1")] else a.
Proof. unfold pi_masternode. phase. Qed.

Lemma pi_indexes_exec D a :
  exec (pi_indexes D) a = a \/ exec (pi_indexes D) a = <["-checklevel" := "4"]> a.
Proof.
  unfold pi_indexes. rewrite exec_gets. unfold when. cbv [id].
  match goal with
  | |- context [exec (if ?g then _ else _) _] => destruct g
  end; [right | left]; reflexivity.
Qed.

Lemma guarded_extends (g : bool) l (a : Args) k v :
  a !! k = Some v -> (if g then softs a l else a) !! k = Some v.
Proof. intros H. destruct g; [by apply softs_extends | done]. Qed.

Lemma guarded_other (g : bool) l (a : Args) k :
  k ∉ l.*1 -> (if g then softs a l else a) !! k = a !! k.
Proof. intros H. destruct g; [by apply softs_other | done]. Qed.

Ltac not_among :=
  let H := fresh in
  intros H; cbn in H; rewrite ?elem_of_cons in H;
  repeat (destruct H as [H | H]; [first [discriminate H | congruence] |]);
  by apply elem_of_nil in H.

Lemma IPI_exec D a :
  exec (InitParameterInteraction D) a =
  exec pi_masternode (exec (pi_indexes D) (exec pi_prune (upto_forcerelay D a))).
Proof.
  unfold InitParameterInteraction, upto_forcerelay, upto_proxy.
  by rewrite !exec_bind.
Qed.

Lemma upto_proxy_extends a k v : a !! k = Some v -> upto_proxy a !! k = Some v.
Proof.
  intros H. unfold upto_proxy.
  rewrite pi_proxy_exec, pi_connect_exec, pi_whitebind_exec, pi_bind_exec.
  by repeat apply guarded_extends.
Qed.

Lemma upto_forcerelay_extends D a k v :
  a !! k = Some v -> upto_forcerelay D a !! k = Some v.
Proof.
  intros H. unfold upto_forcerelay.
  rewrite pi_forcerelay_exec, pi_blocksonly_exec, pi_externalip_exec,
    pi_nolisten_exec.
  repeat apply guarded_extends. by apply upto_proxy_extends.
Qed.

Lemma tail_extends D a k v :
  k ≠ "-checklevel" -> a !! k = Some v ->
  exec pi_masternode (exec (pi_indexes D) (exec pi_prune a)) !! k = Some v.
Proof.
  intros Hk H. rewrite pi_masternode_exec. apply guarded_extends.
  destruct (pi_indexes_exec D (exec pi_prune a)) as [-> | ->].
  - rewrite pi_prune_exec. by apply guarded_extends.
  - rewrite lookup_insert_ne by done. rewrite pi_prune_exec.
    by apply guarded_extends.
Qed.

Lemma IPI_extends D a k v :
  k ≠ "-checklevel" -> a !! k = Some v ->
  exec (InitParameterInteraction D) a !! k = Some v.
Proof.
  intros Hk H. rewrite IPI_exec. apply tail_extends; [done|].
  by apply upto_forcerelay_extends.
Qed.

Lemma IsArgSet_true (a : Args) k : IsArgSet a k = true <-> is_Some (a !! k).
Proof. unfold IsArgSet. apply bool_decide_eq_true. Qed.

Lemma IsArgSet_false (a : Args) k : IsArgSet a k = false <-> a !! k = None.
Proof.
  unfold IsArgSet. rewrite bool_decide_eq_false. rewrite eq_None_not_Some. done.
Qed.

(** The listen option after the first four rules, by precedence. *)
Lemma upto_proxy_listen a :
  a !! "-listen" = None ->
  upto_proxy a !! "-listen" =
    if IsArgSet a "-bind" || IsArgSet a "-whitebind" then Some "1"
    else if IsArgSet a "-connect" || IsArgSet a "-proxy" then Some "0"
    else None.
Proof.
  intros Hl. unfold upto_proxy.
  rewrite pi_proxy_exec, pi_connect_exec, pi_whitebind_exec, pi_bind_exec.
  set (a1 := if IsArgSet a "-bind" then softs a [("-listen", "1")] else a).
  assert (E1 : a1 !! "-listen" = if IsArgSet a "-bind" then Some "1" else None).
  { subst a1. destruct (IsArgSet a "-bind"); [|done]. cbn. by apply soft_fresh. }
  assert (X1 : forall k, k ≠ "-listen" -> a1 !! k = a !! k).
  { intros k Hk. subst a1. apply guarded_other. not_among. }
  assert (W1 : IsArgSet a1 "-whitebind" = IsArgSet a "-whitebind").
  { unfold IsArgSet. by rewrite X1. }
  rewrite W1.
  set (a2 := if IsArgSet a "-whitebind" then softs a1 [("-listen", "1")] else a1).
  assert (E2 : a2 !! "-listen" =
               if IsArgSet a "-bind" || IsArgSet a "-whitebind" then Some "1" else None).
  { subst a2. destruct (IsArgSet a "-bind"), (IsArgSet a "-whitebind"); cbn;
      try done.
    - by apply soft_extends.
    - by apply soft_fresh. }
  assert (X2 : forall k, k ≠ "-listen" -> a2 !! k = a !! k).
  { intros k Hk. subst a2. rewrite guarded_other by not_among. by apply X1. }
  assert (W2 : IsArgSet a2 "-connect" = IsArgSet a "-connect").
  { unfold IsArgSet. by rewrite X2. }
  rewrite W2.
  set (a3 := if IsArgSet a "-connect"
             then softs a2 [("-dnsseed", "0"); ("-listen", "0")] else a2).
  assert (E3 : a3 !! "-listen" =
    if IsArgSet a "-bind" || IsArgSet a "-whitebind" then Some "1"
    else if IsArgSet a "-connect" then Some "0" else None).
  { subst a3. destruct (IsArgSet a "-connect"); cbn.
    - destruct (IsArgSet a "-bind" || IsArgSet a "-whitebind").
      + apply soft_extends. by rewrite soft_other.
      + apply soft_fresh. by rewrite soft_other.
    - rewrite E2. by destruct (IsArgSet a "-bind" || IsArgSet a "-whitebind"). }
  assert (W3 : IsArgSet a3 "-proxy" = IsArgSet a "-proxy").
  { unfold IsArgSet. subst a3. rewrite guarded_other by not_among.
    by rewrite X2. }
  rewrite W3.
  destruct (IsArgSet a "-proxy"); cbn.
  - rewrite !soft_other by done.
    destruct (IsArgSet a "-bind" || IsArgSet a "-whitebind").
    + rewrite ?orb_true_r. by apply soft_extends.
    + destruct (IsArgSet a "-connect"); cbn.
      * by apply soft_extends.
      * by apply soft_fresh.
  - rewrite ?orb_false_r. done.
Qed.

Lemma softs_fresh l1 k v l2 (a : Args) :
  k ∉ l1.*1 -> a !! k = None -> softs a (l1 ++ (k, v) :: l2) !! k = Some v.
Proof.
  intros Hk Ha. unfold softs. rewrite foldl_app. cbn.
  apply (softs_extends l2). apply soft_fresh.
  fold (softs a l1). by rewrite softs_other.
Qed.

Lemma upto_whitebind_other a k :
  k ≠ "-listen" -> exec pi_whitebind (exec pi_bind a) !! k = a !! k.
Proof.
  intros Hk. rewrite pi_whitebind_exec, pi_bind_exec.
  rewrite !guarded_other by not_among. done.
Qed.

Lemma upto_connect_other a k :
  k ∉ ["-listen"; "-dnsseed"] ->
  exec pi_connect (exec pi_whitebind (exec pi_bind a)) !! k = a !! k.
Proof.
  intros Hk. rewrite !not_elem_of_cons in Hk. destruct Hk as (? & ? & _).
  rewrite pi_connect_exec. rewrite guarded_other by not_among.
  by apply upto_whitebind_other.
Qed.

Lemma upto_proxy_other a k :
  k ∉ ["-listen"; "-dnsseed"; "-upnp"; "-natpmp"; "-discover"] ->
  upto_proxy a !! k = a !! k.
Proof.
  intros Hk. rewrite !not_elem_of_cons in Hk.
  destruct Hk as (? & ? & ? & ? & ? & _).
  unfold upto_proxy. rewrite pi_proxy_exec.
  rewrite guarded_other by not_among.
  apply upto_connect_other. rewrite !not_elem_of_cons.
  repeat split; try done. apply not_elem_of_nil.
Qed.

Lemma after_proxy_other D a k :
  k ∉ ["-upnp"; "-natpmp"; "-discover"; "-listenonion"; "-whitelistrelay"] ->
  exec (pi_forcerelay D) (exec (pi_blocksonly D)
    (exec pi_externalip (exec (pi_nolisten D) a))) !! k = a !! k.
Proof.
  intros Hk. rewrite !not_elem_of_cons in Hk.
  destruct Hk as (? & ? & ? & ? & ? & _).
  rewrite pi_forcerelay_exec, pi_blocksonly_exec, pi_externalip_exec,
    pi_nolisten_exec.
  rewrite !guarded_other by not_among. done.
Qed.

Lemma tail_other D a k :
  k ∉ ["-disablegovernance"; "-txindex"; "-checklevel"; "-disablewallet"] ->
  exec pi_masternode (exec (pi_indexes D) (exec pi_prune a)) !! k = a !! k.
Proof.
  intros Hk. rewrite !not_elem_of_cons in Hk.
  destruct Hk as (? & ? & ? & ? & _).
  rewrite pi_masternode_exec. rewrite guarded_other by not_among.
  destruct (pi_indexes_exec D (exec pi_prune a)) as [-> | ->];
    rewrite ?lookup_insert_ne by done;
    rewrite pi_prune_exec; by rewrite guarded_other by not_among.
Qed.

Ltac among := rewrite !not_elem_of_cons; repeat split; try done; apply not_elem_of_nil.

Lemma IPI_listen D a :
  exec (InitParameterInteraction D) a !! "-listen" = upto_proxy a !! "-listen".
Proof.
  rewrite IPI_exec. rewrite tail_other by among.
  unfold upto_forcerelay. by rewrite after_proxy_other by among.
Qed.

Lemma IPI_dnsseed D a :
  IsArgSet a "-connect" = true -> a !! "-dnsseed" = None ->
  exec (InitParameterInteraction D) a !! "-dnsseed" = Some "0".
Proof.
  intros Hc Hd. rewrite IPI_exec. apply tail_extends; [done|].
  unfold upto_forcerelay, upto_proxy.
  rewrite pi_forcerelay_exec, pi_blocksonly_exec, pi_externalip_exec,
    pi_nolisten_exec, pi_proxy_exec.
  repeat apply guarded_extends.
  rewrite pi_connect_exec.
  assert (Hc' : IsArgSet (exec pi_whitebind (exec pi_bind a)) "-connect" = true).
  { unfold IsArgSet in *. by rewrite upto_whitebind_other. }
  rewrite Hc'. apply (softs_fresh []); [apply not_elem_of_nil|].
  by rewrite upto_whitebind_other.
Qed.

Lemma IPI_proxy D a k l1 l2 :
  [("-listen", "0"); ("-upnp", "0"); ("-natpmp", "0"); ("-discover", "0")]
    = l1 ++ (k, "0") :: l2 ->
  k ∉ l1.*1 -> k ∉ ["-listen"; "-dnsseed"; "-checklevel"] ->
  IsArgSet a "-proxy" = true -> a !! k = None ->
  exec (InitParameterInteraction D) a !! k = Some "0".
Proof.
  intros El Hl1 Hk Hp Hn. rewrite !not_elem_of_cons in Hk.
  destruct Hk as (? & ? & ? & _).
  rewrite IPI_exec. apply tail_extends; [done|].
  unfold upto_forcerelay, upto_proxy.
  rewrite pi_forcerelay_exec, pi_blocksonly_exec, pi_externalip_exec,
    pi_nolisten_exec.
  repeat apply guarded_extends.
  rewrite pi_proxy_exec.
  set (a3 := exec pi_connect (exec pi_whitebind (exec pi_bind a))).
  assert (X : forall j, j ∉ ["-listen"; "-dnsseed"] -> a3 !! j = a !! j).
  { intros j Hj. by apply upto_connect_other. }
  assert (Hp' : IsArgSet a3 "-proxy" = true).
  { unfold IsArgSet in *. rewrite X; [done | among]. }
  rewrite Hp', El. apply softs_fresh; [done|]. rewrite X; [done | among].
Qed.

Lemma IPI_prune D a k v l1 l2 :
  [("-disablegovernance", "1"); ("-txindex", "0")] = l1 ++ (k, v) :: l2 ->
  k ∉ l1.*1 ->
  k ∉ ["-listen"; "-dnsseed"; "-upnp"; "-natpmp"; "-discover";
       "-listenonion"; "-whitelistrelay"; "-checklevel"] ->
  (0 < GetArg a "-prune" 0)%Z -> a !! k = None ->
  exec (InitParameterInteraction D) a !! k = Some v.
Proof.
  intros El Hl1 Hk Hp Hn. rewrite !not_elem_of_cons in Hk.
  destruct Hk as (? & ? & ? & ? & ? & ? & ? & ? & _).
  rewrite IPI_exec. rewrite pi_masternode_exec. apply guarded_extends.
  assert (X : forall j,
    j ∉ ["-listen"; "-dnsseed"; "-upnp"; "-natpmp"; "-discover";
         "-listenonion"; "-whitelistrelay"] ->
    upto_forcerelay D a !! j = a !! j).
  { intros j Hj. rewrite !not_elem_of_cons in Hj.
    destruct Hj as (? & ? & ? & ? & ? & ? & ? & _).
    unfold upto_forcerelay. rewrite after_proxy_other by among.
    apply upto_proxy_other. among. }
  assert (G : GetArg (upto_forcerelay D a) "-prune" 0 = GetArg a "-prune" 0).
  { unfold GetArg. rewrite X; [done | among]. }
  assert (P : exec pi_prune (upto_forcerelay D a) !! k = Some v).
  { rewrite pi_prune_exec, G.
    destruct (Z.ltb_spec 0 (GetArg a "-prune" 0)); [|lia].
    rewrite El. apply softs_fresh; [done|]. rewrite X; [done | among]. }
  destruct (pi_indexes_exec D (exec pi_prune (upto_forcerelay D a))) as [-> | ->];
    [done | by rewrite lookup_insert_ne].
Qed.

(** C5, amended: no rule of the four overrides a value the user has set;
    [-bind] and [-whitebind] turn [-listen] on and take precedence over
    [-connect] and [-proxy], which turn it off only when neither is given;
    [-connect] turns [-dnsseed] off; [-proxy] turns [-upnp], [-natpmp] and
    [-discover] off; [-prune] turns [-txindex] off and governance
    validation off ([-disablegovernance=1]). *)
Theorem parameter_interaction_rules D a :
  let a' := exec (InitParameterInteraction D) a in
  (forall k v, k ≠ "-checklevel" -> a !! k = Some v -> a' !! k = Some v) /\
  (a !! "-listen" = None ->
     a' !! "-listen" =
       if IsArgSet a "-bind" || IsArgSet a "-whitebind" then Some "1"
       else if IsArgSet a "-connect" || IsArgSet a "-proxy" then Some "0"
       else None) /\
  (IsArgSet a "-connect" = true -> a !! "-dnsseed" = None ->
     a' !! "-dnsseed" = Some "0") /\
  (IsArgSet a "-proxy" = true ->
     forall k, k ∈ ["-upnp"; "-natpmp"; "-discover"] -> a !! k = None ->
     a' !! k = Some "0") /\
  ((0 < GetArg a "-prune" 0)%Z ->
     (a !! "-txindex" = None -> a' !! "-txindex" = Some "0") /\
     (a !! "-disablegovernance" = None -> a' !! "-disablegovernance" = Some "1")).
Proof.
  intros a'. subst a'. repeat split.
  - intros k v. apply IPI_extends.
  - intros Hl. rewrite IPI_listen. by apply upto_proxy_listen.
  - apply IPI_dnsseed.
  - intros Hp k Hk Hn. rewrite !elem_of_cons in Hk.
    destruct Hk as [-> | [-> | [-> | Hk]]]; [| | | by apply elem_of_nil in Hk].
    + apply (IPI_proxy D a _ [("-listen", "0")] [("-natpmp", "0"); ("-discover", "0")]);
        [reflexivity | cbn; among | among | done | done].
    + apply (IPI_proxy D a _ [("-listen", "0"); ("-upnp", "0")] [("-discover", "0")]);
        [reflexivity | cbn; among | among | done | done].
    + apply (IPI_proxy D a _ [("-listen", "0"); ("-upnp", "0"); ("-natpmp", "0")] []);
        [reflexivity | cbn; among | among | done | done].
  - intros Hn.
    apply (IPI_prune D a _ _ [("-disablegovernance", "1")] []);
      [reflexivity | cbn; among | among | done | done].
  - intros Hn.
    apply (IPI_prune D a _ _ [] [("-txindex", "0")]);
      [reflexivity | apply not_elem_of_nil | among | done | done].
Qed.

(** C5 as stated fails: with [-bind] and [-connect] given and [-listen]
    left unset, the node listens. *)
Lemma connect_with_bind_still_listens :
  IsArgSet bind_and_connect "-connect" = true /\
  bind_and_connect !! "-listen" = None /\
  exec (InitParameterInteraction example_defaults) bind_and_connect !! "-listen"
    = Some "1" /\
  listen_after example_defaults bind_and_connect = true.
Proof. vm_compute. repeat split; reflexivity. Qed.

(** A pruning node behind a proxy gets [-txindex=0]. *)
Lemma parameter_interaction_rules_witness :
  exec (InitParameterInteraction example_defaults)
    (<["-proxy" := "127.0.0.1:9050"]> (<["-prune" := "550"]> ∅)) !! "-txindex"
  = Some "0".
Proof.
  pose proof (parameter_interaction_rules example_defaults
                (<["-proxy" := "127.0.0.1:9050"]> (<["-prune" := "550"]> ∅)))
    as H.
  cbv zeta in H. destruct H as (_ & _ & _ & _ & H).
  apply H; vm_compute; reflexivity.
Defined.

(* ================================================================= *)
(** ** The import thread *)

Lemma reindex_loop_quiet files : forall n s,
  fRequestShutdown s = false -> no_arrival (readable_prefix files) ->
  reindex_loop files n s = (None, s, replay_events n (length (readable_prefix files))).
Proof.
  induction files as [|f files IH]; intros n s Hs Hq; [reflexivity|].
  destruct f as [| |arrives]; try reflexivity.
  cbn [readable_prefix] in Hq. apply Forall_cons in Hq as [-> Hq].
  cbn [reindex_loop readable_prefix length].
  unfold replay_events. cbn [seq flat_map].
  specialize (IH (S n) s Hs Hq).
  destruct s as [fr rd sd ml]. cbn in Hs. subst sd.
  unfold bind. cbn. rewrite IH. reflexivity.
Qed.

Lemma with_shutdown_id s : with_shutdown (fRequestShutdown s) s = s.
Proof. by destruct s. Qed.

Lemma reindex_loop_cons arrives rest n s :
  reindex_loop (BlkReadable arrives :: rest) n s =
  let s1 := with_shutdown (fRequestShutdown s || arrives) s in
  if fRequestShutdown s || arrives then
    (Some ExitShutdownRequested, s1,
     [EvLog "Reindexing block file"; EvLoadExternalBlockFile (SrcBlockFile n);
      EvLog "Shutdown requested. Exit"])
  else
    (result (reindex_loop rest (S n)) s1, exec (reindex_loop rest (S n)) s1,
     [EvLog "Reindexing block file"; EvLoadExternalBlockFile (SrcBlockFile n)]
     ++ trace (reindex_loop rest (S n)) s1).
Proof.
  cbn [reindex_loop]. unfold bind, replay, signal_arrives, emit, modify, gets.
  cbn. fold (with_shutdown (fRequestShutdown s || arrives) s).
  destruct (fRequestShutdown s || arrives); reflexivity.
Qed.

(** A reindex loop that is left by [return] has seen a shutdown request and
    has left both reindex flags alone. *)
Lemma reindex_loop_interrupted files : forall n s e,
  result (reindex_loop files n) s = Some e ->
  e = ExitShutdownRequested /\
  exec (reindex_loop files n) s = with_shutdown true s /\
  marks_reindex_complete (trace (reindex_loop files n) s) = false.
Proof.
  induction files as [|f files IH]; intros n s e H; [discriminate|].
  destruct f as [| |arrives]; try discriminate.
  unfold result, exec, trace in H |- *.
  rewrite reindex_loop_cons in H |- *. cbv zeta in H |- *.
  destruct (fRequestShutdown s || arrives) eqn:Hsd.
  - cbn in H. injection H as <-. done.
  - apply orb_false_elim in Hsd as [Hsd _].
    assert (Hs1 : with_shutdown false s = s).
    { rewrite <- Hsd. apply with_shutdown_id. }
    rewrite Hs1 in H |- *.
    unfold result, exec, trace in H |- *. cbn [fst snd] in H |- *.
    destruct (IH _ _ _ H) as (He & Hx & Hm).
    unfold exec, trace in Hx, Hm. split; [exact He|]. split; [exact Hx|].
    cbn. exact Hm.
Qed.

Lemma replayed_replay_events n k :
  replayed_block_files (replay_events n k) = seq n k.
Proof.
  revert n. induction k as [|k IH]; intros n; [reflexivity|].
  unfold replay_events, replayed_block_files in *. cbn. by rewrite IH.
Qed.

Lemma readable_prefix_spec files :
  let k := length (readable_prefix files) in
  (forall i, i < k -> exists a, files !! i = Some (BlkReadable a)) /\
  (files !! k = None \/ files !! k = Some BlkMissing \/
   files !! k = Some BlkUnopenable).
Proof.
  induction files as [|f files IH]; cbn.
  - split; [lia | by left].
  - destruct f as [| |a]; cbn.
    + split; [lia | right; by left].
    + split; [lia | right; by right].
    + destruct IH as [IH1 IH2]. split; [|exact IH2].
      intros [|i] Hi; cbn; [eauto | apply IH1; lia].
Qed.

Section AndThen.

Context {X : Type}.

Lemma andthen_None (c k : M ImportState ImportEvent (option X)) s :
  result c s = None ->
  andthen c k s = (result k (exec c s), exec k (exec c s),
                   trace c s ++ trace k (exec c s)).
Proof.
  intros H. unfold andthen, bind. fold (result c s) (exec c s) (trace c s).
  rewrite H. reflexivity.
Qed.

Lemma andthen_Some (c k : M ImportState ImportEvent (option X)) s e :
  result c s = Some e ->
  andthen c k s = (Some e, exec c s, trace c s).
Proof.
  intros H. unfold andthen, bind. fold (result c s) (exec c s) (trace c s).
  rewrite H. cbn. by rewrite app_nil_r.
Qed.

End AndThen.

Lemma reindex_phase_on env s :
  fReindex s = true ->
  reindex_phase env s =
  andthen (reindex_loop (blockfiles env) 0) (bind finish_reindex (fun _ => ret None)) s.
Proof.
  intros H. unfold reindex_phase, bind at 1. cbn. rewrite H.
  destruct (andthen _ _ s) as [[r s'] t]. cbn. reflexivity.
Qed.

Lemma reindex_phase_off env s :
  fReindex s = false -> reindex_phase env s = (None, s, []).
Proof. intros H. unfold reindex_phase, bind. cbn. by rewrite H. Qed.

(** C6, amended: with [fReindex] set and no shutdown request, the import
    thread replays the block files 0, 1, 2, ... in ascending order up to,
    and not including, the first one that is missing or cannot be opened;
    only then does it clear the reindexing marker and the flag and call
    [LoadGenesisBlock] again. *)
Theorem reindex_replays_readable_prefix env s :
  fReindex s = true -> fRequestShutdown s = false ->
  no_arrival (readable_prefix (blockfiles env)) ->
  let k := length (readable_prefix (blockfiles env)) in
  reindex_phase env s = (None, reindex_done s, replay_events 0 k ++ finish_events) /\
  replayed_block_files (trace (reindex_phase env) s) = seq 0 k /\
  (forall i, i < k -> exists a, blockfiles env !! i = Some (BlkReadable a)) /\
  (blockfiles env !! k = None \/ blockfiles env !! k = Some BlkMissing \/
   blockfiles env !! k = Some BlkUnopenable).
Proof.
  intros Hr Hs Hq k.
  assert (E : reindex_phase env s =
              (None, reindex_done s, replay_events 0 k ++ finish_events)).
  { rewrite reindex_phase_on by done.
    pose proof (reindex_loop_quiet (blockfiles env) 0 s Hs Hq) as HL.
    rewrite andthen_None by (unfold result; by rewrite HL).
    unfold exec, trace, result. rewrite HL. reflexivity. }
  split; [exact E|]. split.
  - unfold trace. rewrite E. cbn [snd]. unfold replayed_block_files.
    rewrite omap_app. fold (replayed_block_files (replay_events 0 k)).
    rewrite replayed_replay_events. cbn. by rewrite app_nil_r.
  - apply readable_prefix_spec.
Qed.

Lemma without_warnings_app t1 t2 :
  without_warnings (t1 ++ t2) = without_warnings t1 ++ without_warnings t2.
Proof. apply List.filter_app. Qed.

Lemma sim_bind {A B} (c c' : M ImportState ImportEvent A)
    (k k' : A -> M ImportState ImportEvent B) :
  sim c c' -> (forall a, sim (k a) (k' a)) -> sim (bind c k) (bind c' k').
Proof.
  intros Hc Hk s. destruct (Hc s) as (R & X & T).
  rewrite !result_bind, !exec_bind, !trace_bind, without_warnings_app.
  rewrite <- R, <- X, T. destruct (Hk (result c s) (exec c s)) as (R2 & X2 & T2).
  by rewrite R2, X2, T2.
Qed.

Lemma sim_andthen {X} (c c' k k' : M ImportState ImportEvent (option X)) :
  sim c c' -> sim k k' -> sim (andthen c k) (andthen c' k').
Proof.
  intros Hc Hk. unfold andthen. apply sim_bind; [done|].
  intros [e|]; [|done]. intros s. done.
Qed.

Lemma sim_quiet {A} (c : M ImportState ImportEvent A) :
  (forall s, without_warnings (trace c s) = trace c s) -> sim c c.
Proof. intros H s. by rewrite H. Qed.

Lemma reindex_loop_no_warning files : forall n s,
  without_warnings (trace (reindex_loop files n) s) = trace (reindex_loop files n) s.
Proof.
  induction files as [|f files IH]; intros n s; [reflexivity|].
  destruct f as [| |arrives]; try reflexivity.
  unfold trace. rewrite reindex_loop_cons. cbv zeta.
  destruct (fRequestShutdown s || arrives); [reflexivity|].
  cbn [snd]. rewrite without_warnings_app. by rewrite IH.
Qed.

Lemma reindex_phase_no_warning env s :
  without_warnings (trace (reindex_phase env) s) = trace (reindex_phase env) s.
Proof.
  destruct (fReindex s) eqn:Hr.
  - unfold trace. rewrite reindex_phase_on by done.
    destruct (result (reindex_loop (blockfiles env) 0) s) as [e|] eqn:Hres.
    + rewrite (andthen_Some _ _ _ e) by done. cbn [snd].
      apply reindex_loop_no_warning.
    + rewrite andthen_None by done. cbn [snd].
      rewrite without_warnings_app, reindex_loop_no_warning. reflexivity.
  - unfold trace. by rewrite reindex_phase_off.
Qed.

Lemma bootstrap_phase_sim env :
  sim (bootstrap_phase env) (bootstrap_phase (readable_only env)).
Proof.
  intros s. unfold bootstrap_phase, readable_only. cbn.
  destruct (pathBootstrap env) as [| |arrives [|]]; done.
Qed.

Lemma loadblock_phase_cons f rest s :
  loadblock_phase (f :: rest) s =
  if can_open f then
    let s1 := with_shutdown (fRequestShutdown s || arrives_during f) s in
    if fRequestShutdown s || arrives_during f then
      (Some ExitShutdownRequested, s1,
       [EvLog "Importing blocks file";
        EvLoadExternalBlockFile (SrcLoadBlock (path f));
        EvLog "Shutdown requested. Exit"])
    else
      (result (loadblock_phase rest) s1, exec (loadblock_phase rest) s1,
       [EvLog "Importing blocks file";
        EvLoadExternalBlockFile (SrcLoadBlock (path f))]
       ++ trace (loadblock_phase rest) s1)
  else
    (result (loadblock_phase rest) s, exec (loadblock_phase rest) s,
     EvWarningCouldNotOpen (SrcLoadBlock (path f)) :: trace (loadblock_phase rest) s).
Proof.
  cbn [loadblock_phase]. destruct (can_open f); [|reflexivity].
  unfold bind, replay, signal_arrives, emit, modify, gets.
  cbn. fold (with_shutdown (fRequestShutdown s || arrives_during f) s).
  destruct (fRequestShutdown s || arrives_during f); reflexivity.
Qed.

Lemma loadblock_phase_sim files :
  sim (loadblock_phase files) (loadblock_phase (List.filter can_open files)).
Proof.
  induction files as [|f files IH]; intros s; [done|].
  cbn [List.filter]. unfold result, exec, trace.
  rewrite loadblock_phase_cons. destruct (can_open f) eqn:Hf.
  - rewrite loadblock_phase_cons, Hf. cbv zeta.
    destruct (fRequestShutdown s || arrives_during f); [done|].
    cbn [fst snd]. rewrite without_warnings_app.
    destruct (IH (with_shutdown false s)) as (R & X & T).
    by rewrite R, X, T.
  - cbn [fst snd]. destruct (IH s) as (R & X & T).
    change (without_warnings (EvWarningCouldNotOpen (SrcLoadBlock (path f))
              :: trace (loadblock_phase files) s))
      with (without_warnings (trace (loadblock_phase files) s)).
    by rewrite R, X, T.
Qed.

Lemma activate_and_finish_no_warning env s :
  without_warnings (trace (activate_and_finish env) s) =
  trace (activate_and_finish env) s.
Proof.
  unfold activate_and_finish, after_import, StartShutdown.
  destruct env as [bf pb ok stop mn pm]. cbn.
  destruct ok, stop, mn, pm; reflexivity.
Qed.

Lemma ThreadImport_sim env files :
  sim (ThreadImport env files)
      (ThreadImport (readable_only env) (List.filter can_open files)).
Proof.
  unfold ThreadImport. apply sim_bind.
  - unfold import_sources. apply sim_andthen.
    + apply sim_quiet. apply reindex_phase_no_warning.
    + apply sim_andthen; [apply bootstrap_phase_sim | apply loadblock_phase_sim].
  - intros [e|]; [done|]. apply sim_quiet. apply activate_and_finish_no_warning.
Qed.

Lemma loadblock_phase_app l1 : forall l2 s,
  result (loadblock_phase l1) s = None ->
  loadblock_phase (l1 ++ l2) s =
  (result (loadblock_phase l2) (exec (loadblock_phase l1) s),
   exec (loadblock_phase l2) (exec (loadblock_phase l1) s),
   trace (loadblock_phase l1) s ++ trace (loadblock_phase l2) (exec (loadblock_phase l1) s)).
Proof.
  induction l1 as [|f l1 IH]; intros l2 s H.
  - cbn. apply run_eta.
  - cbn [app]. unfold result, exec, trace in H |- *.
    rewrite loadblock_phase_cons in H |- *. rewrite (loadblock_phase_cons f l1).
    destruct (can_open f).
    + cbv zeta in H |- *. destruct (fRequestShutdown s || arrives_during f);
        [discriminate|].
      cbn [fst snd] in H |- *. unfold result, exec, trace in IH |- *.
      rewrite (IH l2 _ H). reflexivity.
    + cbn [fst snd] in H |- *. unfold result, exec, trace in IH |- *.
      rewrite (IH l2 _ H). reflexivity.
Qed.

Lemma reindex_loop_source_events files : forall n s,
  forallb source_event (trace (reindex_loop files n) s) = true.
Proof.
  induction files as [|f files IH]; intros n s; [reflexivity|].
  destruct f as [| |arrives]; try reflexivity.
  unfold trace. rewrite reindex_loop_cons. cbv zeta.
  destruct (fRequestShutdown s || arrives); [reflexivity|].
  cbn [snd]. rewrite forallb_app. by rewrite IH.
Qed.

Lemma loadblock_phase_source_events files : forall s,
  forallb source_event (trace (loadblock_phase files) s) = true.
Proof.
  induction files as [|f files IH]; intros s; [reflexivity|].
  unfold trace. rewrite loadblock_phase_cons. destruct (can_open f).
  - cbv zeta. destruct (fRequestShutdown s || arrives_during f); [reflexivity|].
    cbn [snd]. rewrite forallb_app. by rewrite IH.
  - cbn [snd forallb source_event andb]. apply IH.
Qed.

Lemma andthen_source_events {X} (c k : M ImportState ImportEvent (option X)) s :
  (forall s, forallb source_event (trace c s) = true) ->
  (forall s, forallb source_event (trace k s) = true) ->
  forallb source_event (trace (andthen c k) s) = true.
Proof.
  intros Hc Hk. unfold trace at 1.
  destruct (result c s) as [e|] eqn:Hres.
  - rewrite (andthen_Some _ _ _ e) by done. apply Hc.
  - rewrite andthen_None by done. cbn [snd]. rewrite forallb_app.
    by rewrite Hc, Hk.
Qed.

Lemma import_sources_source_events env files s :
  forallb source_event (trace (import_sources env files) s) = true.
Proof.
  unfold import_sources. apply andthen_source_events.
  - intros s0. destruct (fReindex s0) eqn:Hr.
    + unfold trace. rewrite reindex_phase_on by done.
      fold (trace (andthen (reindex_loop (blockfiles env) 0)
                     (bind finish_reindex (fun _ => ret None))) s0).
      apply andthen_source_events; [apply reindex_loop_source_events | done].
    + unfold trace. by rewrite reindex_phase_off.
  - intros s0. apply andthen_source_events.
    + intros s1. unfold bootstrap_phase.
      destruct (pathBootstrap env) as [| |arrives [|]]; reflexivity.
    + apply loadblock_phase_source_events.
Qed.

Lemma ThreadImport_run env files s :
  ThreadImport env files s =
  match result (import_sources env files) s with
  | Some e => (e, exec (import_sources env files) s,
               trace (import_sources env files) s)
  | None =>
      let s1 := exec (import_sources env files) s in
      (result (activate_and_finish env) s1, exec (activate_and_finish env) s1,
       trace (import_sources env files) s ++ trace (activate_and_finish env) s1)
  end.
Proof.
  unfold ThreadImport, bind.
  fold (result (import_sources env files) s) (exec (import_sources env files) s)
       (trace (import_sources env files) s).
  destruct (result (import_sources env files) s); [|reflexivity].
  cbn. by rewrite app_nil_r.
Qed.

Lemma andthen_assoc {X} (a b c : M ImportState ImportEvent (option X)) s :
  andthen a (andthen b c) s = andthen (andthen a b) c s.
Proof.
  unfold andthen, bind, ret. destruct (a s) as [[[e|] s1] t1]; cbn [fst snd].
  - by rewrite !app_nil_r.
  - destruct (b s1) as [[[e|] s2] t2]; cbn [fst snd].
    + by rewrite !app_nil_r.
    + destruct (c s2) as [[r s3] t3]; cbn [fst snd]. by rewrite app_assoc.
Qed.

Lemma andthen_ret_None {X} (a : M ImportState ImportEvent (option X)) s :
  andthen a (ret None) s = a s.
Proof.
  unfold andthen, bind, ret. destruct (a s) as [[[e|] s1] t1]; cbn [fst snd];
    by rewrite app_nil_r.
Qed.

Lemma andthen_ext {X} (a b b' : M ImportState ImportEvent (option X)) s :
  (forall s', b s' = b' s') -> andthen a b s = andthen a b' s.
Proof.
  intros H. unfold andthen, bind. destruct (a s) as [[[e|] s1] t1]; cbn [fst snd];
    [reflexivity | by rewrite H].
Qed.

(** The sources before the first [-loadblock] file, and the sources before
    the files [l2]. *)
Lemma import_sources_nil env s :
  import_sources env [] s =
  andthen (reindex_phase env) (bootstrap_phase env) s.
Proof.
  unfold import_sources. apply andthen_ext. intros s'.
  apply andthen_ret_None.
Qed.

Lemma loadblock_phase_andthen l1 l2 : forall s,
  loadblock_phase (l1 ++ l2) s =
  andthen (loadblock_phase l1) (loadblock_phase l2) s.
Proof.
  induction l1 as [|f l1 IH]; intros s.
  - cbn [app]. rewrite (andthen_None (loadblock_phase []) _ s) by reflexivity.
    unfold result, exec, trace. cbn [loadblock_phase ret fst snd app].
    by destruct (loadblock_phase l2 s) as [[r s'] t].
  - cbn [app]. rewrite loadblock_phase_cons.
    unfold andthen at 1, bind. rewrite (loadblock_phase_cons f l1).
    destruct (can_open f).
    + cbv zeta. destruct (fRequestShutdown s || arrives_during f).
      * cbn [fst snd ret]. by rewrite app_nil_r.
      * unfold result, exec, trace. rewrite IH. unfold andthen, bind.
        cbn [fst snd].
        destruct (loadblock_phase l1 _) as [[[e|] s1] t1]; cbn [fst snd];
          by rewrite <- ?app_assoc.
    + unfold result, exec, trace. rewrite IH. unfold andthen, bind.
      cbn [fst snd].
      destruct (loadblock_phase l1 _) as [[[e|] s1] t1]; cbn [fst snd];
        reflexivity.
Qed.

Lemma import_sources_app env l1 l2 s :
  import_sources env (l1 ++ l2) s =
  andthen (import_sources env l1) (loadblock_phase l2) s.
Proof.
  unfold import_sources. rewrite <- andthen_assoc. apply andthen_ext. intros s1.
  rewrite <- andthen_assoc. apply andthen_ext. intros s2.
  apply loadblock_phase_andthen.
Qed.

Lemma reindex_phase_exit env s e :
  result (reindex_phase env) s = Some e ->
  e = ExitShutdownRequested /\
  fRequestShutdown (exec (reindex_phase env) s) = true.
Proof.
  destruct (fReindex s) eqn:Hr.
  - unfold result, exec. rewrite reindex_phase_on by done.
    destruct (result (reindex_loop (blockfiles env) 0) s) as [e'|] eqn:Hl.
    + rewrite (andthen_Some _ _ s e') by done. cbn [fst snd]. intros [= <-].
      destruct (reindex_loop_interrupted _ _ _ _ Hl) as (-> & -> & _). done.
    + rewrite (andthen_None _ _ s) by done. discriminate.
  - unfold result. by rewrite reindex_phase_off.
Qed.

Lemma reindex_phase_falls env s :
  result (reindex_phase env) s = None ->
  fReindex (exec (reindex_phase env) s) = false.
Proof.
  destruct (fReindex s) eqn:Hr.
  - unfold result, exec. rewrite reindex_phase_on by done.
    destruct (result (reindex_loop (blockfiles env) 0) s) as [e'|] eqn:Hl.
    + rewrite (andthen_Some _ _ s e') by done. discriminate.
    + rewrite (andthen_None _ _ s) by done. reflexivity.
  - unfold result, exec. by rewrite reindex_phase_off.
Qed.

Lemma bootstrap_phase_run env s :
  bootstrap_phase env s =
  match pathBootstrap env with
  | BootReadable arrives false =>
      (Some ExitRenameFailed, with_shutdown (fRequestShutdown s || arrives) s,
       [EvLog "Importing bootstrap.dat..."; EvLoadExternalBlockFile SrcBootstrap])
  | BootReadable arrives true =>
      (None, with_shutdown (fRequestShutdown s || arrives) s,
       bootstrap_events (pathBootstrap env))
  | _ => (None, s, bootstrap_events (pathBootstrap env))
  end.
Proof.
  unfold bootstrap_phase. destruct (pathBootstrap env) as [| |a [|]]; reflexivity.
Qed.

Lemma bootstrap_phase_kept env s :
  fReindex (exec (bootstrap_phase env) s) = fReindex s.
Proof.
  unfold exec. rewrite bootstrap_phase_run.
  by destruct (pathBootstrap env) as [| |a [|]].
Qed.

Lemma loadblock_phase_falls files : forall s,
  result (loadblock_phase files) s = None ->
  trace (loadblock_phase files) s = flat_map loadblock_events files /\
  fReindex (exec (loadblock_phase files) s) = fReindex s.
Proof.
  induction files as [|f files IH]; intros s H; [done|].
  unfold result, exec, trace in H |- *. rewrite loadblock_phase_cons in H |- *.
  cbn [flat_map]. unfold loadblock_events at 1. destruct (can_open f).
  - cbv zeta in H |- *.
    destruct (fRequestShutdown s || arrives_during f); [discriminate H|].
    cbn [fst snd] in H |- *. destruct (IH _ H) as [-> ->]. done.
  - cbn [fst snd] in H |- *. destruct (IH _ H) as [-> ->]. done.
Qed.

Lemma loadblock_phase_left files : forall s e,
  result (loadblock_phase files) s = Some e ->
  e = ExitShutdownRequested /\
  fRequestShutdown (exec (loadblock_phase files) s) = true.
Proof.
  induction files as [|f files IH]; intros s e H; [discriminate H|].
  unfold result, exec in H |- *. rewrite loadblock_phase_cons in H |- *.
  destruct (can_open f).
  - cbv zeta in H |- *.
    destruct (fRequestShutdown s || arrives_during f); [|by apply IH].
    cbn [fst snd] in H |- *. by injection H as <-.
  - by apply IH.
Qed.

(** When the sources have been gone through, the reindex flag is down. *)
Lemma import_sources_falls env files s :
  result (import_sources env files) s = None ->
  fReindex (exec (import_sources env files) s) = false /\
  trace (import_sources env files) s =
    trace (reindex_phase env) s ++ bootstrap_events (pathBootstrap env) ++
    flat_map loadblock_events files.
Proof.
  unfold result, exec, trace, import_sources.
  destruct (result (reindex_phase env) s) as [e|] eqn:Hr.
  { rewrite (andthen_Some _ _ s e) by done. discriminate. }
  rewrite (andthen_None _ _ s) by done. cbn [fst snd].
  pose proof (reindex_phase_falls env s Hr) as Hf0.
  set (s1 := exec (reindex_phase env) s) in *.
  destruct (result (bootstrap_phase env) s1) as [e|] eqn:Hb.
  { unfold result. rewrite (andthen_Some _ _ s1 e) by done. discriminate. }
  unfold result, exec, trace. rewrite (andthen_None _ _ s1) by done.
  cbn [fst snd]. intros Hl.
  destruct (loadblock_phase_falls files _ Hl) as [Ht Hf].
  rewrite Ht, Hf, bootstrap_phase_kept. split; [exact Hf0|].
  f_equal. f_equal. unfold result in Hb. unfold trace.
  rewrite bootstrap_phase_run in Hb |- *.
  destruct (pathBootstrap env) as [| |a [|]]; first [reflexivity | discriminate Hb].
Qed.

Lemma import_sources_left env files s e :
  result (import_sources env files) s = Some e ->
  (e = ExitShutdownRequested /\
   fRequestShutdown (exec (import_sources env files) s) = true) \/
  (e = ExitRenameFailed /\ exists a, pathBootstrap env = BootReadable a false).
Proof.
  unfold result, exec, import_sources.
  destruct (result (reindex_phase env) s) as [e'|] eqn:Hr.
  { rewrite (andthen_Some _ _ s e') by done. cbn [fst snd]. intros [= <-].
    left. by apply reindex_phase_exit. }
  rewrite (andthen_None _ _ s) by done. cbn [fst snd].
  set (s1 := exec (reindex_phase env) s).
  destruct (result (bootstrap_phase env) s1) as [e'|] eqn:Hb.
  { unfold result. rewrite (andthen_Some _ _ s1 e') by done. cbn [fst snd].
    intros [= <-]. right. unfold result in Hb. rewrite bootstrap_phase_run in Hb.
    destruct (pathBootstrap env) as [| |a [|]]; try discriminate Hb.
    injection Hb as <-. eauto. }
  unfold result, exec. rewrite (andthen_None _ _ s1) by done. cbn [fst snd].
  intros Hl. left. by apply loadblock_phase_left in Hl.
Qed.

(** The thread that finds the reindex flag down and no bootstrap file goes
    through the [-loadblock] files. *)
Lemma import_sources_bootstrap_done env files s :
  fReindex s = false ->
  import_sources (bootstrap_done env) files s = loadblock_phase files s.
Proof.
  intros Hr. unfold import_sources.
  rewrite (andthen_None _ _ s) by (unfold result; by rewrite reindex_phase_off).
  unfold result, exec, trace. rewrite reindex_phase_off by done. cbn [fst snd].
  unfold andthen, bind, bootstrap_phase, bootstrap_done, ret. cbn [pathBootstrap fst snd app].
  by destruct (loadblock_phase files s) as [[r s'] t].
Qed.

(** The thread from the files [l2] on, when the sources before them have
    been gone through. *)
Lemma ThreadImport_splice env (before : M ImportState ImportEvent (option ImportExit))
    l2 files s :
  (forall s0, import_sources env files s0 = andthen before (loadblock_phase l2) s0) ->
  (result before s = None -> fReindex (exec before s) = false) ->
  match result before s with
  | Some e => ThreadImport env files s = (e, exec before s, trace before s)
  | None =>
      let rest := ThreadImport (bootstrap_done env) l2 in
      let s1 := exec before s in
      ThreadImport env files s =
        (result rest s1, exec rest s1, trace before s ++ trace rest s1)
  end.
Proof.
  intros Hd Hr. rewrite ThreadImport_run. unfold result, exec, trace.
  rewrite Hd.
  destruct (result before s) as [e|] eqn:Hb.
  - unfold result in Hb. rewrite Hb.
    rewrite (andthen_Some before _ s e) by exact Hb. reflexivity.
  - specialize (Hr eq_refl). unfold result in Hb. rewrite Hb.
    rewrite (andthen_None before _ s) by exact Hb. cbv zeta.
    rewrite ThreadImport_run. unfold result, exec, trace. unfold exec in Hr.
    rewrite (import_sources_bootstrap_done env l2 _ Hr).
    cbn [fst snd].
    destruct (loadblock_phase l2 (before s).1.2) as [[[e|] s2] t2]; cbn [fst snd].
    + reflexivity.
    + change (activate_and_finish (bootstrap_done env)) with (activate_and_finish env).
      by rewrite app_assoc.
Qed.

(** C7: a bootstrap file or a [-loadblock] file that cannot be opened
    costs a warning and nothing else.  Warnings apart, the thread returns
    what it returns, and leaves the state and the events it leaves, when
    the unreadable sources are not there at all.  When the thread comes to
    a bootstrap file or a [-loadblock] file it cannot open, it gives the
    warning for that source and goes on as it does with the remaining
    sources alone; it does not come to the source only when it has
    returned before.  When nothing makes the thread return while it
    imports, its events up to [ActivateBestChain] are those of the reindex,
    then of the bootstrap file, then of each [-loadblock] file in turn, a
    warning for a file that cannot be opened and the import for any other.
    The thread returns while it imports only on a shutdown request or on a
    bootstrap file that was imported and cannot be renamed. *)
Theorem unreadable_sources_are_skipped env files s :
  (result (ThreadImport env files) s =
     result (ThreadImport (readable_only env) (List.filter can_open files)) s /\
   exec (ThreadImport env files) s =
     exec (ThreadImport (readable_only env) (List.filter can_open files)) s /\
   without_warnings (trace (ThreadImport env files) s) =
     trace (ThreadImport (readable_only env) (List.filter can_open files)) s) /\
  (pathBootstrap env = BootUnopenable ->
   let before := reindex_phase env in
   match result before s with
   | Some e => ThreadImport env files s = (e, exec before s, trace before s)
   | None =>
       let rest := ThreadImport (bootstrap_done env) files in
       let s1 := exec before s in
       ThreadImport env files s =
         (result rest s1, exec rest s1,
          trace before s ++
          EvWarningCouldNotOpen SrcBootstrap :: trace rest s1)
   end) /\
  (forall l1 f l2, files = l1 ++ f :: l2 -> can_open f = false ->
   let before := import_sources env l1 in
   match result before s with
   | Some e => ThreadImport env files s = (e, exec before s, trace before s)
   | None =>
       let rest := ThreadImport (bootstrap_done env) l2 in
       let s1 := exec before s in
       ThreadImport env files s =
         (result rest s1, exec rest s1,
          trace before s ++
          EvWarningCouldNotOpen (SrcLoadBlock (path f)) :: trace rest s1)
   end) /\
  (result (import_sources env files) s = None ->
   let s1 := exec (import_sources env files) s in
   ThreadImport env files s =
     (result (activate_and_finish env) s1, exec (activate_and_finish env) s1,
      trace (reindex_phase env) s ++ bootstrap_events (pathBootstrap env) ++
      flat_map loadblock_events files ++ trace (activate_and_finish env) s1)) /\
  (forall e, result (import_sources env files) s = Some e ->
   (e = ExitShutdownRequested /\
    fRequestShutdown (exec (import_sources env files) s) = true) \/
   (e = ExitRenameFailed /\ exists a, pathBootstrap env = BootReadable a false)).
Proof.
  split; [apply ThreadImport_sim|]. split; [|split; [|split]].
  - intros Hb before. subst before.
    pose proof (ThreadImport_splice env
                  (andthen (reindex_phase env) (bootstrap_phase env))
                  files files s) as Sp.
    destruct (result (reindex_phase env) s) as [e|] eqn:Hr.
    + rewrite ThreadImport_run. unfold import_sources, result, exec, trace.
      rewrite (andthen_Some _ _ s e) by exact Hr. reflexivity.
    + assert (Hab : andthen (reindex_phase env) (bootstrap_phase env) s =
                    (None, exec (reindex_phase env) s,
                     trace (reindex_phase env) s ++ [EvWarningCouldNotOpen SrcBootstrap])).
      { rewrite (andthen_None _ _ s) by exact Hr.
        unfold result, exec, trace. rewrite bootstrap_phase_run, Hb. reflexivity. }
      unfold result, exec, trace in Sp. rewrite Hab in Sp. cbn [fst snd] in Sp.
      cbv zeta in Sp |- *. unfold result, exec, trace.
      rewrite Sp.
      * by rewrite <- app_assoc.
      * intros s0. unfold import_sources. apply andthen_assoc.
      * intros _. by apply reindex_phase_falls.
  - intros l1 f l2 -> Hf before. subst before.
    pose proof (ThreadImport_splice env (import_sources env (l1 ++ [f])) l2
                  (l1 ++ f :: l2) s) as Sp.
    assert (Hrun : import_sources env (l1 ++ [f]) s =
                   (result (import_sources env l1) s, exec (import_sources env l1) s,
                    trace (import_sources env l1) s ++
                    match result (import_sources env l1) s with
                    | Some _ => []
                    | None => [EvWarningCouldNotOpen (SrcLoadBlock (path f))]
                    end)).
    { rewrite import_sources_app.
      destruct (result (import_sources env l1) s) as [e|] eqn:Hr.
      - rewrite (andthen_Some _ _ s e) by exact Hr. by rewrite app_nil_r.
      - rewrite (andthen_None _ _ s) by exact Hr.
        unfold result, exec, trace. rewrite loadblock_phase_cons, Hf. reflexivity. }
    unfold result, exec, trace in Sp, Hrun |- *. rewrite Hrun in Sp.
    cbn [fst snd] in Sp.
    destruct ((import_sources env l1 s).1.1) as [e|] eqn:Hr.
    + rewrite app_nil_r in Sp. apply Sp.
      * intros s0. change (l1 ++ f :: l2) with (l1 ++ [f] ++ l2).
        rewrite app_assoc. apply import_sources_app.
      * discriminate.
    + cbv zeta in Sp |- *. rewrite Sp.
      * by rewrite <- app_assoc.
      * intros s0. change (l1 ++ f :: l2) with (l1 ++ [f] ++ l2).
        rewrite app_assoc. apply import_sources_app.
      * intros _. by apply (import_sources_falls env l1 s).
  - intros Hn s1. subst s1. rewrite ThreadImport_run. rewrite Hn. cbv zeta.
    destruct (import_sources_falls env files s Hn) as [_ ->].
    by rewrite <- !app_assoc.
  - apply import_sources_left.
Qed.


(** C8: when the import sources have been gone through, the thread calls
    [ActivateBestChain], and never before; when that fails it logs, calls
    [StartShutdown] and returns.  A thread that is left while importing
    ([return] on a shutdown request, the exception of a failed rename) does
    not reach the call. *)
Theorem best_chain_failure_starts_shutdown env files s :
  let s1 := exec (import_sources env files) s in
  let t1 := trace (import_sources env files) s in
  (result (import_sources env files) s = None ->
     (exists t2, trace (ThreadImport env files) s = t1 ++ EvActivateBestChain :: t2)
     /\ (ActivateBestChain_ok env = false ->
         ThreadImport env files s =
           (ExitBestChainFailed, with_shutdown true s1,
            t1 ++ [EvActivateBestChain; EvLog "Failed to connect best block";
                   EvStartShutdown]))) /\
  (forall e, result (import_sources env files) s = Some e ->
     ThreadImport env files s = (e, s1, t1)) /\
  ~ In EvActivateBestChain t1.
Proof.
  intros s1 t1. split; [|split].
  - intros Hres.
    change (trace (ThreadImport env files) s) with (snd (ThreadImport env files s)).
    rewrite ThreadImport_run, Hres. fold s1 t1. cbv zeta. split.
    + cbn [snd]. eexists. f_equal.
    + intros Hok. unfold activate_and_finish, StartShutdown. rewrite Hok.
      reflexivity.
  - intros e Hres. by rewrite ThreadImport_run, Hres.
  - intros Hin. pose proof (import_sources_source_events env files s) as Hall.
    rewrite forallb_forall in Hall. by specialize (Hall _ Hin).
Qed.

(* ================================================================= *)
(** ** The load loop *)

Section Keeps.

Context {S E : Type} (R : S -> S -> Prop) `{!PreOrder R} (ok : E -> bool).

Lemma keeps_ret {A} (x : A) : keeps R ok (ret x).
Proof. intros s. split; [reflexivity | reflexivity]. Qed.

Lemma keeps_gets {A} (f : S -> A) : keeps R ok (gets f).
Proof. intros s. split; [reflexivity | reflexivity]. Qed.

Lemma keeps_emit e : ok e = true -> keeps R ok (emit e).
Proof. intros H s. split; [reflexivity | cbn; by rewrite H]. Qed.

Lemma keeps_modify f : (forall s, R s (f s)) -> keeps R ok (modify f).
Proof. intros H s. split; [apply H | reflexivity]. Qed.

Lemma keeps_bind {A B} (c : M S E A) (k : A -> M S E B) :
  keeps R ok c -> (forall a, keeps R ok (k a)) -> keeps R ok (bind c k).
Proof.
  intros Hc Hk s. destruct (Hc s) as [R1 T1].
  destruct (Hk (result c s) (exec c s)) as [R2 T2].
  rewrite exec_bind, trace_bind, forallb_app. split.
  - by transitivity (exec c s).
  - by rewrite T1, T2.
Qed.

Lemma keeps_if {A} (b : bool) (c1 c2 : M S E A) :
  keeps R ok c1 -> keeps R ok c2 -> keeps R ok (if b then c1 else c2).
Proof. by destruct b. Qed.

Lemma keeps_when (b : bool) (c : M S E unit) :
  keeps R ok c -> keeps R ok (when b c).
Proof. intros H. unfold when. apply keeps_if; [done | apply keeps_ret]. Qed.

End Keeps.

Ltac keeps_step :=
  first [ apply keeps_bind; [tc_solve | | intros ?]
        | apply keeps_if; [ | ]
        | apply keeps_when; [tc_solve |]
        | apply keeps_ret; tc_solve
        | apply keeps_gets; tc_solve
        | apply keeps_emit; [tc_solve | reflexivity] ].

Lemma keeps_try_call (R : ImportState -> ImportState -> Prop)
    `{!PreOrder R} env c call k :
  keeps R attempt_event call -> keeps R attempt_event k ->
  keeps R attempt_event (try_call env c call k).
Proof.
  intros Hc Hk. unfold try_call, caught.
  repeat first [ keeps_step | exact Hc | exact Hk ].
Qed.

Ltac keeps_try :=
  first [ apply keeps_try_call; [tc_solve | | ] | keeps_step ].

Lemma verify_chain_pure cfg env e :
  keeps eq attempt_event (verify_chain cfg env e).
Proof. unfold verify_chain. repeat keeps_try. Qed.

Lemma load_chain_tip_pure cfg env e :
  keeps eq attempt_event (load_chain_tip cfg env e).
Proof.
  unfold load_chain_tip. cbv zeta.
  repeat first [ apply verify_chain_pure | keeps_try ].
Qed.

Lemma load_coins_pure cfg env fReset :
  keeps eq attempt_event (load_coins cfg env fReset).
Proof.
  unfold load_coins.
  repeat first [ apply load_chain_tip_pure | keeps_try ].
Qed.

Lemma check_block_index_pure cfg env fReset :
  keeps eq attempt_event (check_block_index cfg env fReset).
Proof.
  unfold check_block_index.
  repeat first [ apply load_coins_pure | keeps_try ].
Qed.

#[local] Instance attempt_rel_preorder : PreOrder attempt_rel.
Proof.
  split.
  - intros s. by repeat split.
  - intros a b c (A1 & A2 & A3) (B1 & B2 & B3). repeat split; eauto; congruence.
Qed.




(** The loop is left at its condition when a shutdown request is there. *)
Lemma load_loop_stop fuel cfg envs n s :
  fRequestShutdown s || arrives_before_attempt (envs n) = true ->
  load_loop (S fuel) cfg envs n s = (LoopLeft false, with_shutdown true s, []).
Proof.
  intros H. cbn [load_loop].
  cbv beta iota zeta delta [bind gets ret emit modify signal_arrives fst snd].
  cbn [fRequestShutdown]. rewrite H. reflexivity.
Qed.

(** One round of the loop, given what the pass through the [do] body
    yields. *)
Lemma load_loop_step fuel cfg envs n s o s1 t1 :
  fRequestShutdown s || arrives_before_attempt (envs n) = false ->
  load_attempt cfg (envs n) (fReindex s) (with_shutdown false s) = (o, s1, t1) ->
  let s2 := with_shutdown (fRequestShutdown s1 || arrives_late (envs n)) s1 in
  let s3 := with_shutdown false (with_reindex true s2) in
  let next := load_loop fuel cfg envs (S n) in
  load_loop (S fuel) cfg envs n s =
  match o with
  | AttInitError msg =>
      (LoopReturned (FailInitError msg), s1,
       LdLoadingBlockIndex :: t1 ++ [LdInitError msg])
  | AttLoaded => (LoopLeft true, s2, LdLoadingBlockIndex :: t1)
  | AttBreak err =>
      if fRequestShutdown s1 || arrives_late (envs n) then
        (result next s2, exec next s2, LdLoadingBlockIndex :: t1 ++ trace next s2)
      else if negb (fReindex s) then
        if user_accepts (envs n) then
          (result next s3, exec next s3,
           LdLoadingBlockIndex :: t1 ++
           [LdQuestion err; LdAbortShutdown] ++ trace next s3)
        else
          (LoopReturned FailDeclined, s2,
           LdLoadingBlockIndex :: t1 ++
           [LdQuestion err; LdLog "Aborted block database rebuild. Exiting."])
      else
        (LoopReturned (FailInitError err), s2,
         LdLoadingBlockIndex :: t1 ++ [LdInitError err])
  end.
Proof.
  intros H E. unfold with_shutdown, with_reindex in *. cbn [load_loop].
  cbv beta iota zeta delta [bind gets ret emit modify signal_arrives set_fReindex
    set_fRequestShutdown fst snd exec result trace].
  cbn [fRequestShutdown fReindex reindexing_on_disk mempool_is_loaded].
  rewrite H. cbn [fReindex]. rewrite E.
  destruct o as [|err|msg].
  - cbn [app fst snd]. by rewrite app_nil_r.
  - cbn [app fst snd fRequestShutdown fReindex reindexing_on_disk mempool_is_loaded].
    destruct (fRequestShutdown s1 || arrives_late (envs n)); [reflexivity|].
    destruct (fReindex s); cbn [negb]; [reflexivity|].
    destruct (user_accepts (envs n)); reflexivity.
  - reflexivity.
Qed.

Lemma quiet_pass_inv env :
  quiet_pass env = true ->
  arrives_before_attempt env = false /\ arrives_during_open env = false /\
  arrives_during_LoadBlockIndex env = false /\ arrives_late env = false.
Proof.
  unfold quiet_pass. rewrite !andb_true_iff, !negb_true_iff. tauto.
Qed.

Lemma signal_arrives_false {E} (s : ImportState) :
  exec (signal_arrives (E:=E) false) s = s.
Proof. destruct s as [a b c d]. cbn. by rewrite orb_false_r. Qed.

#[local] Instance calm_preorder : PreOrder calm.
Proof.
  split; [intros s H; exact H | intros a b c H1 H2 H; apply H2, H1, H].
Qed.

Lemma load_attempt_calm cfg env fReset :
  arrives_during_open env = false -> arrives_during_LoadBlockIndex env = false ->
  keeps calm attempt_event (load_attempt cfg env fReset).
Proof.
  intros H1 H2.
  assert (C : keeps calm attempt_event (check_block_index cfg env fReset)).
  { intros s0. destruct (check_block_index_pure cfg env fReset s0) as [Hx T].
    split; [unfold calm; by rewrite <- Hx | done]. }
  unfold load_attempt, load_block_index, open_blocktree, WriteReindexing,
    LoadBlockIndex, signal_arrives, set_reindexing_on_disk. cbv zeta.
  rewrite H1, H2.
  repeat first
    [ exact C
    | keeps_try
    | apply keeps_modify; intros [fr rd sd ml]; unfold calm; cbn;
        intros; subst; done ].
Qed.

Lemma check_block_index_mismatch cfg env fReset s :
  passes_identity_checks cfg env = true -> flags_mismatch cfg env = true ->
  exists msg, rebuild_required msg /\
    check_block_index cfg env fReset s = (AttBreak msg, s, []).
Proof.
  unfold passes_identity_checks, flags_mismatch, rebuild_required.
  rewrite !andb_true_iff, !negb_true_iff. intros ((G & W) & D) Hm.
  unfold check_block_index. rewrite G, W, D.
  destruct (negb (Bool.eqb (fAddressIndex env) (arg_addressindex cfg)));
    [eexists; split; [|reflexivity]; tauto|].
  destruct (negb (Bool.eqb (fTimestampIndex env) (arg_timestampindex cfg)));
    [eexists; split; [|reflexivity]; tauto|].
  destruct (negb (Bool.eqb (fSpentIndex env) (arg_spentindex cfg)));
    [eexists; split; [|reflexivity]; tauto|].
  cbn in Hm. rewrite Hm. eexists; split; [|reflexivity]; tauto.
Qed.

Lemma try_call_ok env c call k s :
  throws env c = false ->
  try_call env c call k s =
    (result k (exec call s), exec k (exec call s),
     trace call s ++ trace k (exec call s)).
Proof. intros H. unfold try_call. by rewrite H. Qed.

Lemma try_call_thrown env c call k s :
  throws env c = true ->
  try_call env c call k s =
    (AttBreak "Error opening block database",
     (if thrown_late env then exec call s else s),
     (if thrown_late env then trace call s else []) ++ [LdExceptionLogged]).
Proof. intros H. unfold try_call. rewrite H. by destruct (thrown_late env). Qed.

Lemma opens_coins_db_app t1 t2 :
  opens_coins_db (t1 ++ t2) = opens_coins_db t1 || opens_coins_db t2.
Proof. apply existsb_app. Qed.

Lemma harmless_bind {A} (c : M ImportState LoadEvent A) k :
  leaves_coins_db c -> (forall a, harmless (k a)) -> harmless (bind c k).
Proof.
  intros Hc Hk s. destruct (Hk (result c s) (exec c s)) as [R T].
  rewrite result_bind, trace_bind, opens_coins_db_app, Hc, T. by split.
Qed.

Lemma harmless_if (b : bool) c1 c2 :
  harmless c1 -> harmless c2 -> harmless (if b then c1 else c2).
Proof. by destruct b. Qed.

Lemma harmless_break err : harmless (ret (AttBreak err)).
Proof. intros s. by split. Qed.

Lemma harmless_try_call env c call k :
  leaves_coins_db call -> harmless k -> harmless (try_call env c call k).
Proof.
  intros Hc Hk s. destruct (throws env c) eqn:Ht.
  - unfold result, trace. rewrite try_call_thrown by done. cbn [fst snd].
    split; [discriminate|]. rewrite opens_coins_db_app.
    destruct (thrown_late env); [by rewrite Hc | reflexivity].
  - unfold result, trace. rewrite try_call_ok by done. cbn [fst snd].
    destruct (Hk (exec call s)) as [R T].
    rewrite opens_coins_db_app, Hc. by split.
Qed.

Lemma check_block_index_harmless cfg env fReset :
  flags_mismatch cfg env = true -> harmless (check_block_index cfg env fReset).
Proof.
  unfold flags_mismatch. intros Hm s. unfold check_block_index.
  repeat match goal with
         | |- context [if ?b then ret (?o ?m) else _] =>
             lazymatch b with
             | context [fHavePruned] => fail
             | _ => destruct b eqn:?; [split; [discriminate | reflexivity]|]
             end
         end.
  cbn [orb] in Hm. rewrite Hm. split; [discriminate | reflexivity].
Qed.

Ltac harmless_step :=
  first [ apply harmless_try_call; [intros ?; reflexivity|]
        | apply harmless_bind; [intros ?; reflexivity | intros ?]
        | apply harmless_if; [ | ]
        | apply harmless_break ].

(** A pass that finds a persisted flag different from the requested one
    never ends with [fLoaded = true] and never comes to the coin
    database. *)
Lemma load_attempt_harmless cfg env fReset :
  flags_mismatch cfg env = true -> harmless (load_attempt cfg env fReset).
Proof.
  intros Hm. pose proof (check_block_index_harmless cfg env fReset Hm) as C.
  unfold load_attempt, load_block_index. cbv zeta.
  destruct fReset; repeat first [ exact C | harmless_step ].
Qed.

Lemma no_throw_cons env c l :
  no_throw env (c :: l) = true -> throws env c = false /\ no_throw env l = true.
Proof.
  unfold no_throw. cbn [forallb]. rewrite andb_true_iff, negb_true_iff. tauto.
Qed.

Lemma no_throw_app env l1 l2 :
  no_throw env (l1 ++ l2) = true -> no_throw env l1 = true /\ no_throw env l2 = true.
Proof. unfold no_throw. rewrite forallb_app, andb_true_iff. tauto. Qed.

Ltac no_throws H :=
  repeat match type of H with
         | no_throw _ (_ :: _) = true =>
             let H1 := fresh "Hc" in apply no_throw_cons in H as [H1 H]
         end.

(** The pass when the databases open without an exception. *)
Lemma load_attempt_opened cfg env fReset s :
  no_throw env (opening_calls cfg fReset) = true ->
  let rest := load_block_index cfg env fReset in
  load_attempt cfg env fReset s =
  (result rest (opened fReset s), exec rest (opened fReset s),
   open_events cfg fReset ++ trace rest (opened fReset s)).
Proof.
  intros H rest. subst rest. unfold opening_calls in H.
  apply no_throw_app in H as [H H'].
  no_throws H. unfold load_attempt, try_call. cbv zeta.
  rewrite Hc, Hc0, Hc1, Hc2, Hc3, Hc4, Hc5.
  unfold open_events, opened. destruct s as [fr rd sd ml].
  destruct fReset.
  - no_throws H'. rewrite Hc6. destruct (fPruneMode cfg).
    + no_throws H'. rewrite Hc7. reflexivity.
    + reflexivity.
  - reflexivity.
Qed.

(** The rest of the pass when no shutdown request is there and the block
    index loads without an exception. *)
Lemma load_block_index_run cfg env fReset s :
  throws env CallLoadBlockIndex = false -> fRequestShutdown s = false ->
  arrives_during_open env = false -> LoadBlockIndex_ok env = true ->
  let s' := exec (signal_arrives (E:=LoadEvent) (arrives_during_LoadBlockIndex env))
              (exec LoadBlockIndex s) in
  let chk := check_block_index cfg env fReset in
  load_block_index cfg env fReset s =
  (result chk s', exec chk s', LdLoadBlockIndex :: trace chk s').
Proof.
  intros Ht Hs Ho Hl s' chk. subst s' chk.
  unfold load_block_index, try_call. rewrite Ht, Ho, Hl. cbn [negb].
  destruct s as [fr rd sd ml]. cbn in Hs. subst sd.
  unfold exec, trace, result, bind.
  cbn -[check_block_index]. rewrite ?orb_false_r. reflexivity.
Qed.

Lemma load_attempt_reaches_checks cfg env fReset s :
  no_throw env (opening_calls cfg fReset ++ [CallLoadBlockIndex]) = true ->
  fRequestShutdown s = false ->
  arrives_during_open env = false -> LoadBlockIndex_ok env = true ->
  let s' := exec (signal_arrives (E:=LoadEvent) (arrives_during_LoadBlockIndex env))
              (exec LoadBlockIndex (opened fReset s)) in
  let chk := check_block_index cfg env fReset in
  load_attempt cfg env fReset s =
  (result chk s', exec chk s',
   open_events cfg fReset ++ [LdLoadBlockIndex] ++ trace chk s').
Proof.
  intros Ht Hs Ho Hl s' chk. apply no_throw_app in Ht as [Ht Hb].
  no_throws Hb. rewrite load_attempt_opened by done. cbv zeta.
  assert (Hs' : fRequestShutdown (opened fReset s) = false)
    by (unfold opened; by destruct fReset).
  unfold result, exec, trace.
  rewrite (load_block_index_run cfg env fReset _ Hc Hs' Ho Hl). reflexivity.
Qed.











Lemma attempt_reaching_mismatch cfg env fReset s :
  flags_mismatch cfg env = true ->
  reaches_flag_checks cfg env fReset s ->
  exists msg, rebuild_required msg /\
    result (load_attempt cfg env fReset) s = AttBreak msg /\
    trace (load_attempt cfg env fReset) s =
      open_events cfg fReset ++ [LdLoadBlockIndex].
Proof.
  intros Hm (Ht & Hs & Ho & Hl & Hp).
  pose proof (load_attempt_reaches_checks cfg env fReset s Ht Hs Ho Hl) as E.
  cbv zeta in E.
  match type of E with context [result _ ?x] => set (s' := x) in E end.
  destruct (check_block_index_mismatch cfg env fReset s' Hp Hm) as (msg & Hr & Hc).
  unfold result, exec, trace in E |- *. rewrite Hc in E. rewrite E.
  exists msg. split; [done|]. split; reflexivity.
Qed.

(** C2, amended: a load attempt that finds a persisted index flag different
    from the requested one, or pruned blocks with pruning off, never ends
    with the chain state loaded and never opens the coin database.  When it
    comes to the flag checks (no call made while the databases are opened
    and the block index is loaded throws, no shutdown request is pending or
    arrives while the databases are opened, the block index loads, and the
    checks on the transaction index with governance, on the genesis block
    and on the devnet genesis block find no error), it is left with one of
    the four rebuild-required errors, the block index being the last thing
    it has loaded.  When the attempt is left with a load error and no
    shutdown request is pending before or after it, start-up fails with
    that error when the attempt was already a reindex, fails when the user
    declines the rebuild, and otherwise runs the load again with [fReindex]
    set, which wipes the databases. *)
Theorem flag_mismatch_requires_rebuild cfg env :
  flags_mismatch cfg env = true ->
  (forall fReset s,
     result (load_attempt cfg env fReset) s <> AttLoaded /\
     opens_coins_db (trace (load_attempt cfg env fReset) s) = false) /\
  (forall fReset s,
     reaches_flag_checks cfg env fReset s ->
     exists msg, rebuild_required msg /\
       result (load_attempt cfg env fReset) s = AttBreak msg /\
       trace (load_attempt cfg env fReset) s =
         open_events cfg fReset ++ [LdLoadBlockIndex]) /\
  (forall fuel envs n s msg s1 t1,
     envs n = env ->
     fRequestShutdown s || arrives_before_attempt env = false ->
     load_attempt cfg env (fReindex s) (with_shutdown false s)
       = (AttBreak msg, s1, t1) ->
     fRequestShutdown s1 || arrives_late env = false ->
     let r := result (load_loop (S fuel) cfg envs n) s in
     let s3 := with_shutdown false (with_reindex true s1) in
     if fReindex s then r = LoopReturned (FailInitError msg)
     else if user_accepts env then
       r = result (load_loop fuel cfg envs (S n)) s3 /\ fReindex s3 = true
     else r = LoopReturned FailDeclined).
Proof.
  intros Hm. split; [|split].
  - intros fReset s. by apply load_attempt_harmless.
  - intros fReset s. by apply attempt_reaching_mismatch.
  - intros fuel envs n s msg s1 t1 <- Hsd0 E Hsd2 r s3. subst r. unfold result.
    rewrite (load_loop_step _ _ _ _ _ _ _ _ Hsd0 E). cbv zeta. rewrite Hsd2.
    destruct (fReindex s); cbn [negb]; [reflexivity|].
    destruct (user_accepts (envs n)); [|reflexivity].
    split; [|reflexivity]. cbn [fst]. unfold result. subst s3.
    unfold with_shutdown, with_reindex. cbn. reflexivity.
Qed.

Lemma load_chain_state_run fuel cfg envs s :
  load_chain_state fuel cfg envs s =
  let s' := with_reindex (arg_reindex cfg) s in
  let loop := load_loop fuel cfg envs 0 in
  match result loop s' with
  | LoopOutOfFuel => (LoadOutOfFuel, exec loop s', trace loop s')
  | LoopReturned why => (LoadReturnedFalse why, exec loop s', trace loop s')
  | LoopLeft _ =>
      if fRequestShutdown (exec loop s') then
        (LoadReturnedFalse FailShutdown, exec loop s',
         trace loop s' ++ [LdLog "Shutdown requested. Exiting."])
      else (LoadSucceeded, exec loop s', trace loop s')
  end.
Proof.
  cbv zeta. unfold load_chain_state, bind, set_fReindex, modify.
  cbn [fst snd app]. fold (with_reindex (arg_reindex cfg) s).
  unfold result, exec, trace.
  destruct (load_loop fuel cfg envs 0 (with_reindex (arg_reindex cfg) s))
    as [[r s1] t1].
  cbn [fst snd]. destruct r as [fLoaded|why|]; cbn [fst snd gets].
  - destruct (fRequestShutdown s1); cbn; by rewrite ?app_nil_r.
  - cbn. by rewrite app_nil_r.
  - cbn. by rewrite app_nil_r.
Qed.


(* ================================================================= *)
(** ** The reindexing marker, and examples *)


#[local] Instance marker_kept_preorder : PreOrder marker_kept.
Proof.
  split.
  - intros s. reflexivity.
  - intros s1 s2 s3 H1 H2. unfold marker_kept in *. congruence.
Qed.






(** A reindex loop that falls through its end has replayed the readable
    files in front of the first gap and has seen no shutdown request. *)
Lemma reindex_loop_completes files : forall n s,
  result (reindex_loop files n) s = None ->
  reindex_loop files n s =
    (None, s, replay_events n (length (readable_prefix files))).
Proof.
  induction files as [|f files IH]; intros n s H; [reflexivity|].
  destruct f as [| |arrives]; try reflexivity.
  unfold result in H. rewrite reindex_loop_cons in H |- *. cbv zeta in H |- *.
  destruct (fRequestShutdown s || arrives) eqn:Hsd; [discriminate H|].
  apply orb_false_elim in Hsd as [Hsd _].
  assert (Hs1 : with_shutdown false s = s).
  { rewrite <- Hsd. apply with_shutdown_id. }
  rewrite Hs1 in H |- *. cbn [fst] in H.
  unfold result, exec, trace. rewrite (IH _ _ H). reflexivity.
Qed.

Lemma marks_reindex_complete_replay n k :
  marks_reindex_complete (replay_events n k) = false.
Proof.
  revert n. induction k as [|k IH]; intros n; [reflexivity|].
  unfold replay_events in *. cbn. apply IH.
Qed.




(** C2 as stated fails: the address index is requested over a database
    written without it, the user accepts the rebuild, and start-up goes
    on. *)
Lemma accepted_rebuild_lets_startup_proceed :
  flags_mismatch example_cfg (rebuild_offered true 0) = true /\
  result (load_chain_state 3 example_cfg (rebuild_offered true)) fresh_start
    = LoadSucceeded /\
  ~ (exists why,
       result (load_chain_state 3 example_cfg (rebuild_offered true))
         fresh_start = LoadReturnedFalse why).
Proof.
  split; [reflexivity|]. split; [reflexivity|]. intros [why H].
  vm_compute in H. discriminate H.
Qed.

(** A database written without the address index, which is now asked for. *)
Lemma flag_mismatch_requires_rebuild_witness :
  exists msg, rebuild_required msg /\
    result (load_attempt example_cfg (stale_attempt false) false) fresh_start
      = AttBreak msg /\
    trace (load_attempt example_cfg (stale_attempt false) false) fresh_start
      = open_events example_cfg false ++ [LdLoadBlockIndex].
Proof.
  apply (proj1 (proj2 (flag_mismatch_requires_rebuild example_cfg
                         (stale_attempt false) eq_refl))).
  repeat split; reflexivity.
Defined.



(** C6 as stated fails: block file 1 exists but cannot be opened; the loop
    ends there, file 2 is never replayed although the first missing file
    is number 3, and the reindex is marked complete. *)
Lemma reindex_stops_at_unopenable_file :
  let t := trace (reindex_phase unopenable_second) reindex_start in
  first_missing (blockfiles unopenable_second) = 3 /\
  blockfiles unopenable_second !! 2 = Some (BlkReadable false) /\
  replayed_block_files t = [0] /\
  replayed_block_files t <> seq 0 (first_missing (blockfiles unopenable_second)) /\
  marks_reindex_complete t = true.
Proof. vm_compute. repeat split; try reflexivity. discriminate. Qed.

(** Two block files are replayed in order. *)
Lemma reindex_replays_readable_prefix_witness :
  replayed_block_files (trace (reindex_phase two_block_files) reindex_start)
    = [0; 1].
Proof.
  apply (reindex_replays_readable_prefix two_block_files reindex_start);
    [reflexivity | reflexivity | repeat constructor].
Defined.

(** Neither the bootstrap file nor the first and the third [-loadblock]
    file can be opened: three warnings, the second and the fourth file are
    imported, and the thread goes on to [ActivateBestChain] and to its
    end. *)
Lemma unreadable_sources_are_skipped_witness :
  ThreadImport (import_env [] BootUnopenable true) mixed_sources fresh_start =
  (ExitDone,
   {| fReindex := false; reindexing_on_disk := false;
      fRequestShutdown := false; mempool_is_loaded := true |},
   [EvWarningCouldNotOpen SrcBootstrap;
    EvWarningCouldNotOpen (SrcLoadBlock "a.dat");
    EvLog "Importing blocks file"; EvLoadExternalBlockFile (SrcLoadBlock "b.dat");
    EvWarningCouldNotOpen (SrcLoadBlock "c.dat");
    EvLog "Importing blocks file"; EvLoadExternalBlockFile (SrcLoadBlock "d.dat");
    EvActivateBestChain; EvInitializeCurrentBlockTip; EvFillCoinCache;
    EvAutoLockMasternodeCollaterals; EvLoadMempool]).
Proof.
  exact (proj1 (proj2 (proj2 (proj2
           (unreadable_sources_are_skipped (import_env [] BootUnopenable true)
              mixed_sources fresh_start)))) eq_refl).
Defined.

(** Nothing to import, and [ActivateBestChain] fails. *)
Lemma best_chain_failure_starts_shutdown_witness :
  ThreadImport (import_env [] BootAbsent false) [] fresh_start =
  (ExitBestChainFailed, with_shutdown true fresh_start,
   [EvActivateBestChain; EvLog "Failed to connect best block"; EvStartShutdown]).
Proof.
  apply (best_chain_failure_starts_shutdown (import_env [] BootAbsent false) []
           fresh_start); reflexivity.
Defined.



(* ================================================================= *)
(** ** The teardown *)

Lemma frees_app t1 t2 : frees (t1 ++ t2) = frees t1 ++ frees t2.
Proof. apply omap_app. Qed.

Lemma written_app t1 t2 : written (t1 ++ t2) = written t1 ++ written t2.
Proof. apply omap_app. Qed.

Lemma frees_CallOn f (l : list nat) : frees (map (CallOn f) l) = [].
Proof. induction l as [|i l IH]; [done | exact IH]. Qed.

Lemma written_CallOn f (l : list nat) : written (map (CallOn f) l) = [].
Proof. induction l as [|i l IH]; [done | exact IH]. Qed.

Lemma frees_Free (h : nat -> Handle) (l : list nat) :
  frees (map (fun i => Free (h i)) l) = map h l.
Proof. induction l as [|i l IH]; [done | cbn; by rewrite <- IH]. Qed.

Lemma written_Free (h : nat -> Handle) (l : list nat) :
  written (map (fun i => Free (h i)) l) = [].
Proof. induction l as [|i l IH]; [done | exact IH]. Qed.

Lemma does_bind {A B} (c : M NodeState ShutdownEvent A)
    (k : A -> M NodeState ShutdownEvent B) s s1 s2 f1 f2 w1 w2 :
  does c s s1 f1 w1 -> does (k (result c s)) s1 s2 f2 w2 ->
  does (bind c k) s s2 (f1 ++ f2) (w1 ++ w2).
Proof.
  intros (X1 & F1 & W1) (X2 & F2 & W2). unfold does.
  rewrite exec_bind, trace_bind, frees_app, written_app, X1.
  by rewrite X2, F1, F2, W1, W2.
Qed.

Section Does.

Implicit Types s : NodeState.

Lemma does_ret {A} (x : A) s : does (ret x) s s [] [].
Proof. done. Qed.

Lemma does_gets {A} (f : NodeState -> A) s : does (gets f) s s [] [].
Proof. done. Qed.

Lemma does_call f s : does (emit (Call f)) s s [] [].
Proof. done. Qed.

Lemma does_log m s : does (emit (SdLog m)) s s [] [].
Proof. done. Qed.

Lemma does_remove f s : does (emit (RemoveFile f)) s s [] [].
Proof. done. Qed.

Lemma does_free h s : does (emit (Free h)) s s [h] [].
Proof. done. Qed.

Lemma does_write f c s : does (emit (WriteFile f c)) s s [] [f].
Proof. done. Qed.

Lemma does_modify f s : does (modify f) s (f s) [] [].
Proof. done. Qed.

Lemma does_when (b : bool) c s s1 fr wr :
  does c s s1 fr wr ->
  does (when b c) s (if b then s1 else s) (if b then fr else [])
    (if b then wr else []).
Proof. by destruct b. Qed.

Lemma does_if {A} (b : bool) (c1 c2 : M NodeState ShutdownEvent A)
    s s1 s2 f1 f2 w1 w2 :
  does c1 s s1 f1 w1 -> does c2 s s2 f2 w2 ->
  does (if b then c1 else c2) s (if b then s1 else s2)
    (if b then f1 else f2) (if b then w1 else w2).
Proof. by destruct b. Qed.

Lemma does_destroy (b : bool) h s : does (destroy b h) s s (if b then [h] else []) [].
Proof. by destruct b. Qed.

Lemma does_each_call {A} (l : list A) f s :
  does (for_each l (CallOn f)) s s [] [].
Proof.
  unfold does, exec, trace, for_each. cbn.
  by rewrite frees_CallOn, written_CallOn.
Qed.

Lemma does_each_free {A} (l : list A) (h : nat -> Handle) s :
  does (for_each l (fun i => Free (h i))) s s (map h (seq 0 (length l))) [].
Proof.
  unfold does, exec, trace, for_each. cbn.
  by rewrite frees_Free, written_Free.
Qed.

Lemma does_weaken {A} (c : M NodeState ShutdownEvent A) s s1 s' f1 fr w1 wr :
  does c s s1 f1 w1 -> s1 = s' -> f1 = fr -> w1 = wr -> does c s s' fr wr.
Proof. by intros H <- <- <-. Qed.

End Does.

Ltac does_step :=
  first
    [ eapply does_bind;
        [ | cbn [result gets emit modify ret fst snd]; intros ]
    | apply does_ret | apply does_gets | apply does_call | apply does_log
    | apply does_remove | apply does_free | apply does_write
    | apply does_destroy | apply does_each_call | apply does_each_free
    | eapply does_when | eapply does_if | apply does_modify ].

Ltac does_run := eapply does_weaken; [repeat does_step | | | ].

Lemma stop_servers_does s : does stop_servers s s [] [].
Proof. unfold stop_servers. does_run; reflexivity. Qed.

Lemma stop_network_does s : does stop_network s s [] [].
Proof.
  unfold stop_network. does_run.
  - by destruct (peerLogic (net s)), (g_connman (net s)), (g_txindex (net s)).
  - by destruct (peerLogic (net s)), (g_connman (net s)), (g_txindex (net s)).
  - by destruct (peerLogic (net s)), (g_connman (net s)), (g_txindex (net s)).
Qed.

Lemma stop_threads_does s : does stop_threads s s [] [].
Proof. unfold stop_threads. does_run; reflexivity. Qed.

Ltac unfold_updates :=
  unfold with_net, with_chain, with_listeners, with_disk,
    set_fFeeEstimatesInitialized.

Lemma dump_caches_does env w s :
  does (dump_caches env w) s
    (if w then s else put_disk (snapshots_taken env (disk s)) s)
    [] (if w then [] else snapshot_files env).
Proof.
  unfold dump_caches, dump_mncache, dump_netfulfilled, dump_sporks,
    dump_governance, snapshot_files, snapshots_taken, put_disk.
  unfold_updates. does_run.
  - destruct w, (fDisableGovernance env), s as [n c l f []]; reflexivity.
  - destruct w, (fDisableGovernance env); reflexivity.
  - destruct w, (fDisableGovernance env); reflexivity.
Qed.

Lemma destroy_network_does s :
  does destroy_network s (put_net no_net s)
    (opt (peerLogic (net s)) HPeerLogic ++ opt (g_connman (net s)) HConnman ++
     opt (g_banman (net s)) HBanman ++ opt (g_txindex (net s)) HTxIndex ++
     map HFilterIndex (seq 0 (length (filter_indexes (net s))))) [].
Proof.
  unfold destroy_network, put_net, no_net, opt. unfold_updates. does_run.
  - reflexivity.
  - cbn [app]. by rewrite ?app_nil_r.
  - reflexivity.
Qed.

Lemma persist_mempool_and_fees_does env s :
  does (persist_mempool_and_fees env) s
    (put_fee false
       (put_disk (mempool_and_fees_persisted env (fFeeEstimatesInitialized s)
                    (disk s)) s))
    []
    ((if mempool_IsLoaded env && persistmempool env then ["mempool.dat"] else [])
     ++ (if fFeeEstimatesInitialized s && est_fileout_opens env
         then ["fee_estimates.dat"] else [])).
Proof.
  unfold persist_mempool_and_fees, DumpMempool, write_fee_estimates,
    mempool_and_fees_persisted, put_fee, put_disk.
  unfold_updates. does_run.
  - destruct s as [n c l f [d1 d2 d3 d4 d5 d6 d7]].
    destruct (mempool_IsLoaded env && persistmempool env), f,
      (est_fileout_opens env); reflexivity.
  - destruct s as [n c l f d].
    destruct (mempool_IsLoaded env && persistmempool env), f,
      (est_fileout_opens env); reflexivity.
  - destruct s as [n c l f d].
    destruct (mempool_IsLoaded env && persistmempool env), f,
      (est_fileout_opens env); reflexivity.
Qed.

Lemma flush_chainstate_does env s : does (flush_chainstate env) s s [] [].
Proof.
  unfold flush_chainstate. does_run;
    by destruct (g_chainstate env && coins_views (chain s)).
Qed.

Lemma close_databases_does env s :
  does (close_databases env) s (put_chain (databases_closed env (chain s)) s)
    (opt (g_chainstate env && coins_views (chain s)) HCoinsViews ++
     opt (pblocktree (chain s)) HBlockTree ++
     opt (llmq_system (chain s)) HLLMQSystem ++
     opt (quorumSnapshotManager (chain s)) HQuorumSnapshotManager ++
     opt (deterministicMNManager (chain s)) HDeterministicMNManager ++
     opt (evoDb (chain s)) HEvoDb) [].
Proof.
  unfold close_databases, databases_closed, put_chain, opt.
  unfold_updates. does_run.
  - destruct s as [n [cv bt lq qs dm ev] l f d].
    destruct (g_chainstate env), cv; reflexivity.
  - destruct s as [n [cv bt lq qs dm ev] l f d].
    destruct (g_chainstate env), cv; cbn; by rewrite ?app_nil_r.
  - by destruct (g_chainstate env && coins_views (chain s)).
Qed.

Lemma unregister_listeners_does env s :
  does (unregister_listeners env) s (put_listeners (listeners_gone (listeners s)) s)
    (opt (g_zmq_notification_interface (listeners s)) HZmqNotificationInterface ++
     opt (pdsNotificationInterface (listeners s)) HDSNotificationInterface ++
     opt (blsKeyOperator (listeners s)) HBlsKeyOperator ++
     opt (blsPubKeyOperator (listeners s)) HBlsPubKeyOperator) [].
Proof.
  unfold unregister_listeners, listeners_gone, put_listeners, opt.
  unfold_updates. does_run.
  - destruct s as [n c [z p k1 k2 cl] f d].
    destruct z, p, (fMasternodeMode env); reflexivity.
  - destruct s as [n c [z p k1 k2 cl] f d].
    destruct z, p, (fMasternodeMode env); cbn; by rewrite ?app_nil_r.
  - destruct s as [n c [z p k1 k2 cl] f d].
    destruct z, p, (fMasternodeMode env); reflexivity.
Qed.

Lemma final_cleanup_does s :
  does final_cleanup s (cleaned_up s)
    (map HChainClient (seq 0 (length (chain_clients (listeners s))))) [].
Proof.
  unfold final_cleanup, remove_pid_file, cleaned_up. unfold_updates. does_run.
  - destruct s as [n c [z p k1 k2 cl] f [d1 d2 d3 d4 d5 d6 []]]; reflexivity.
  - destruct (pid_file (disk s)); cbn; by rewrite ?app_nil_r.
  - by destruct (pid_file (disk s)).
Qed.

Lemma PrepareShutdown_does env s :
  does (PrepareShutdown env) s (torn_down env s) (freed env s)
    (files_written env s).
Proof.
  unfold PrepareShutdown, torn_down, freed, files_written.
  destruct (cs_Shutdown_held env).
  { eapply does_weaken;
      [eapply does_bind; [apply does_log | intros; apply does_ret]
      | reflexivity ..]. }
  cbv zeta.
  eapply does_weaken.
  { eapply does_bind; [apply does_log | intros].
    eapply does_bind; [apply stop_servers_does | intros].
    eapply does_bind; [apply stop_network_does | intros].
    eapply does_bind; [apply stop_threads_does | intros].
    eapply does_bind; [apply dump_caches_does | intros].
    eapply does_bind; [apply destroy_network_does | intros].
    eapply does_bind; [apply persist_mempool_and_fees_does | intros].
    eapply does_bind; [apply flush_chainstate_does | intros].
    eapply does_bind; [apply close_databases_does | intros].
    eapply does_bind; [apply unregister_listeners_does | intros].
    apply final_cleanup_does. }
  - destruct s as [n c l f d]. destruct (fRPCInWarmup env); reflexivity.
  - destruct s as [n c l f d]. destruct (fRPCInWarmup env); cbn [app];
      rewrite ?app_nil_r; reflexivity.
  - destruct s as [n c l f d]. destruct (fRPCInWarmup env); cbn [app];
      rewrite ?app_nil_r; reflexivity.
Qed.

Lemma torn_down_twice env s : torn_down env (torn_down env s) = torn_down env s.
Proof.
  unfold torn_down. destruct (cs_Shutdown_held env); [reflexivity|].
  destruct s as [n [cv bt lq qs dm ev] l f [d1 d2 d3 d4 d5 d6 d7]].
  unfold databases_closed, mempool_and_fees_persisted, snapshots_taken.
  cbn.
  destruct (fRPCInWarmup env), (fDisableGovernance env), (g_chainstate env), cv,
    (mempool_IsLoaded env && persistmempool env), f, (est_fileout_opens env);
    reflexivity.
Qed.

Lemma freed_after_teardown env s : freed env (torn_down env s) = [].
Proof.
  unfold freed, torn_down. destruct (cs_Shutdown_held env); [reflexivity|].
  cbn. destruct (g_chainstate env), (coins_views (chain s)); reflexivity.
Qed.

Lemma NoDup_opt_app b h l : h ∉ l -> NoDup l -> NoDup (opt b h ++ l).
Proof. intros Hh Hl. destruct b; [by apply NoDup_cons | done]. Qed.

Lemma elem_of_opt_app x b h l : x ∈ opt b h ++ l -> x = h \/ x ∈ l.
Proof.
  destruct b; cbn; [|by right]. rewrite elem_of_cons. tauto.
Qed.

#[local] Instance HFilterIndex_inj : Inj (=) (=) HFilterIndex.
Proof. by intros i j [= ->]. Qed.

#[local] Instance HChainClient_inj : Inj (=) (=) HChainClient.
Proof. by intros i j [= ->]. Qed.

Ltac not_freed :=
  let H := fresh in
  intros H;
  repeat (first
    [ apply elem_of_opt_app in H as [H | H]; [discriminate H |]
    | apply elem_of_app in H as [H | H] ]);
  try (apply list_elem_of_fmap in H as (? & H & _); discriminate H);
  try (by apply elem_of_nil in H).

Lemma freed_NoDup env s : NoDup (freed env s).
Proof.
  unfold freed. destruct (cs_Shutdown_held env); [constructor|].
  rewrite <- !app_assoc.
  repeat (apply NoDup_opt_app; [not_freed |]).
  apply NoDup_app. split; [apply (NoDup_fmap_2 _), NoDup_seq|].
  split.
  - intros x Hx. apply list_elem_of_fmap in Hx as (i & -> & _). not_freed.
  - repeat (apply NoDup_opt_app; [not_freed |]).
    apply (NoDup_fmap_2 _), NoDup_seq.
Qed.

(** C1: from any state of the globals the teardown assigns (any subset of
    the components initialized), a second [PrepareShutdown] leaves the state
    the first one left and destroys nothing, and no object is destroyed
    twice over the two calls. *)
Theorem PrepareShutdown_idempotent env s :
  let s1 := exec (PrepareShutdown env) s in
  exec (PrepareShutdown env) s1 = s1 /\
  frees (trace (PrepareShutdown env) s1) = [] /\
  NoDup (frees (trace (PrepareShutdown env) s)
         ++ frees (trace (PrepareShutdown env) s1)).
Proof.
  intros s1. subst s1.
  destruct (PrepareShutdown_does env s) as (X1 & F1 & _).
  destruct (PrepareShutdown_does env (torn_down env s)) as (X2 & F2 & _).
  rewrite X1, X2, F1, F2, torn_down_twice, freed_after_teardown, app_nil_r.
  split; [reflexivity|]. split; [reflexivity|]. apply freed_NoDup.
Qed.







(* ================================================================= *)
(** ** Parameter interaction, rule by rule *)

Lemma pi_bind_rule a : exec pi_bind a = apply_rule rule_bind a.
Proof. apply pi_bind_exec. Qed.

Lemma pi_whitebind_rule a : exec pi_whitebind a = apply_rule rule_whitebind a.
Proof. apply pi_whitebind_exec. Qed.

Lemma pi_connect_rule a : exec pi_connect a = apply_rule rule_connect a.
Proof. apply pi_connect_exec. Qed.

Lemma pi_proxy_rule a : exec pi_proxy a = apply_rule rule_proxy a.
Proof. apply pi_proxy_exec. Qed.

Lemma pi_nolisten_rule D a :
  exec (pi_nolisten D) a = apply_rule (rule_nolisten D) a.
Proof. apply pi_nolisten_exec. Qed.

Lemma pi_externalip_rule a :
  exec pi_externalip a = apply_rule rule_externalip a.
Proof. apply pi_externalip_exec. Qed.

Lemma pi_blocksonly_rule D a :
  exec (pi_blocksonly D) a = apply_rule (rule_blocksonly D) a.
Proof. apply pi_blocksonly_exec. Qed.

Lemma pi_forcerelay_rule D a :
  exec (pi_forcerelay D) a = apply_rule (rule_forcerelay D) a.
Proof. apply pi_forcerelay_exec. Qed.

Lemma pi_prune_rule a : exec pi_prune a = apply_rule rule_prune a.
Proof. apply pi_prune_exec. Qed.

Lemma pi_masternode_rule a :
  exec pi_masternode a = apply_rule rule_masternode a.
Proof. apply pi_masternode_exec. Qed.

Lemma IPI_steps D a :
  exec (InitParameterInteraction D) a = run_steps (interaction_steps D) a.
Proof.
  unfold InitParameterInteraction. rewrite !exec_bind.
  rewrite pi_masternode_rule, pi_prune_rule, pi_forcerelay_rule,
    pi_blocksonly_rule, pi_externalip_rule, pi_nolisten_rule, pi_proxy_rule,
    pi_connect_rule, pi_whitebind_rule, pi_bind_rule.
  unfold run_steps, interaction_steps. cbn [foldl]. reflexivity.
Qed.

Lemma disjointb_spec l1 l2 k : disjointb l1 l2 = true -> k ∈ l1 -> k ∉ l2.
Proof.
  unfold disjointb. rewrite forallb_forall. intros H Hk Hk2.
  apply list_elem_of_In in Hk. specialize (H _ Hk).
  apply negb_true_iff in H.
  assert (X : existsb (String.eqb k) l2 = true).
  { apply existsb_exists. exists k. split; [by apply list_elem_of_In|].
    apply String.eqb_refl. }
  congruence.
Qed.

Lemma softs_sets l : forall a kv, kv ∈ l -> is_Some (softs a l !! kv.1).
Proof.
  induction l as [|x l IH]; intros a kv H; [by apply elem_of_nil in H|].
  cbn. apply elem_of_cons in H as [-> | H]; [|by apply IH].
  assert (S : is_Some (soft a x !! x.1)).
  { unfold soft. destruct (a !! x.1) eqn:E; [by rewrite E|].
    rewrite lookup_insert_eq. eauto. }
  destruct S as [v S]. exists v. by apply softs_extends.
Qed.

Lemma softs_id l : forall a,
  (forall kv, kv ∈ l -> is_Some (a !! kv.1)) -> softs a l = a.
Proof.
  induction l as [|x l IH]; intros a H; [done|]. cbn.
  assert (E : soft a x = a).
  { unfold soft. destruct (H x) as [v ->]; [left | done]. }
  rewrite E. apply IH. intros kv Hkv. apply H. by right.
Qed.

Lemma softs_inflationary l : inflationary (fun a => softs a l).
Proof. intros a k [v H]. exists v. by apply softs_extends. Qed.

Lemma apply_rule_inflationary r : inflationary (apply_rule r).
Proof.
  intros a k H. unfold apply_rule. destruct (guard r a); [|done].
  by apply softs_inflationary.
Qed.

Lemma apply_rule_frames r : frames (apply_rule r) (sets r).*1.
Proof.
  intros a k H. unfold apply_rule. destruct (guard r a); [|done].
  by apply softs_other.
Qed.

(** A rule is at rest on a store when its guard fails or all its options
    have values. *)
Lemma apply_rule_fixed r a :
  apply_rule r a = a <->
  (guard r a = true -> forall kv, kv ∈ sets r -> is_Some (a !! kv.1)).
Proof.
  unfold apply_rule. split.
  - intros E G kv Hkv. rewrite G in E. rewrite <- E. by apply softs_sets.
  - intros H. destruct (guard r a); [|done]. apply softs_id. by apply H.
Qed.

Lemma apply_rule_idempotent r a : apply_rule r (apply_rule r a) = apply_rule r a.
Proof.
  apply apply_rule_fixed. intros G kv Hkv. revert G.
  unfold apply_rule. destruct (guard r a) eqn:Ga.
  - intros _. by apply softs_sets.
  - congruence.
Qed.

(** A rule at rest stays at rest under a later step that leaves alone what
    its guard reads. *)
Lemma apply_rule_rest_preserved r f W :
  reads_ok r -> frames f W -> inflationary f ->
  disjointb (reads r) W = true ->
  forall a, apply_rule r a = a -> apply_rule r (f a) = f a.
Proof.
  intros Hr Hf Hi Hd a Ha. apply apply_rule_fixed. intros G kv Hkv.
  assert (Ga : guard r (f a) = guard r a).
  { apply Hr. intros k Hk. apply Hf. by eapply disjointb_spec. }
  rewrite Ga in G. apply Hi. by apply (proj1 (apply_rule_fixed r a) Ha).
Qed.

Lemma pi_indexes_run D a :
  pi_indexes D a =
  if raises_checklevel D a
  then (tt, <["-checklevel" := "4"]> a,
        ["additional indexes -> setting -checklevel=4"])
  else (tt, a, []).
Proof.
  unfold pi_indexes, raises_checklevel, fAdditionalIndexes, bind, gets, when.
  cbv [id]. cbn [fst snd].
  match goal with
  | |- context [if ?g then _ else _] => destruct g
  end; reflexivity.
Qed.

Lemma GetArg_checklevel_4 (a : Args) d :
  GetArg (<["-checklevel" := "4"]> a) "-checklevel" d = 4%Z.
Proof. unfold GetArg. rewrite lookup_insert_eq. reflexivity. Qed.

Lemma raises_checklevel_reads D a b :
  (forall k, k ∈ ["-addressindex"; "-spentindex"; "-timestampindex";
                  "-checklevel"] -> a !! k = b !! k) ->
  raises_checklevel D a = raises_checklevel D b.
Proof.
  intros H. unfold raises_checklevel, fAdditionalIndexes, GetBoolArg, GetArg.
  rewrite !(H "-addressindex"), !(H "-spentindex"), !(H "-timestampindex"),
    !(H "-checklevel"); [done | ..]; rewrite !elem_of_cons; auto 10.
Qed.

Lemma pi_indexes_fixed D a :
  exec (pi_indexes D) a = a <-> raises_checklevel D a = false.
Proof.
  unfold exec. rewrite pi_indexes_run.
  destruct (raises_checklevel D a) eqn:G; cbn [fst snd]; [|done].
  split; [|done]. intros E. exfalso.
  assert (X : raises_checklevel D (<["-checklevel" := "4"]> a) = true)
    by (by rewrite E).
  unfold raises_checklevel in X. rewrite GetArg_checklevel_4 in X.
  by rewrite andb_false_r in X.
Qed.

Lemma pi_indexes_frames D : frames (exec (pi_indexes D)) ["-checklevel"].
Proof.
  intros a k Hk. unfold exec. rewrite pi_indexes_run.
  destruct (raises_checklevel D a); cbn [fst snd]; [|done].
  apply lookup_insert_ne. intros <-. apply Hk. by left.
Qed.

Lemma pi_indexes_inflationary D : inflationary (exec (pi_indexes D)).
Proof.
  intros a k H. unfold exec. rewrite pi_indexes_run.
  destruct (raises_checklevel D a); cbn [fst snd]; [|done].
  destruct (decide (k = "-checklevel")) as [-> | Hk].
  - rewrite lookup_insert_eq. eauto.
  - by rewrite lookup_insert_ne.
Qed.

Lemma pi_indexes_idempotent D a :
  exec (pi_indexes D) (exec (pi_indexes D) a) = exec (pi_indexes D) a.
Proof.
  apply pi_indexes_fixed. unfold exec. rewrite pi_indexes_run.
  destruct (raises_checklevel D a) eqn:G; cbn [fst snd]; [|done].
  unfold raises_checklevel. rewrite GetArg_checklevel_4.
  by rewrite andb_false_r.
Qed.

Lemma pi_indexes_rest_preserved D f W :
  frames f W ->
  disjointb ["-addressindex"; "-spentindex"; "-timestampindex"; "-checklevel"] W
    = true ->
  forall a, exec (pi_indexes D) a = a ->
  exec (pi_indexes D) (f a) = f a.
Proof.
  intros Hf Hd a Ha. apply pi_indexes_fixed. apply pi_indexes_fixed in Ha.
  rewrite <- Ha. apply raises_checklevel_reads. intros k Hk. apply Hf.
  by eapply disjointb_spec.
Qed.

(** Steps of which each is idempotent and leaves at rest what an earlier
    one has brought to rest: every step is at rest on the outcome. *)
Lemma rest_carried (f : Args -> Args) fs : forall a,
  Forall (fun g => forall b, f b = b -> f (g b) = g b) fs ->
  f a = a -> f (run_steps fs a) = run_steps fs a.
Proof.
  induction fs as [|g fs IH]; intros a H Ha; [done|].
  apply Forall_cons in H as [Hg H]. cbn. apply IH; [done|]. by apply Hg.
Qed.

Lemma steps_at_rest fs : forall a,
  Forall (fun f => forall b, f (f b) = f b) fs ->
  ForallOrdPairs (fun f g => forall b, f b = b -> f (g b) = g b) fs ->
  Forall (fun f => f (run_steps fs a) = run_steps fs a) fs.
Proof.
  induction fs as [|f fs IH]; intros a Hi Hp; [constructor|].
  apply Forall_cons in Hi as [Hf Hi]. inversion Hp as [|? ? Hfg Hp']; subst.
  constructor.
  - cbn. apply rest_carried; [done | apply Hf].
  - cbn. by apply IH.
Qed.

Lemma run_steps_at_rest fs a :
  Forall (fun f => f a = a) fs -> run_steps fs a = a.
Proof.
  induction fs as [|f fs IH]; intros H; [done|].
  apply Forall_cons in H as [Hf H]. cbn. rewrite Hf. by apply IH.
Qed.

Ltac reads_one :=
  let a := fresh "a" in let b := fresh "b" in let H := fresh "H" in
  intros a b H; cbn -[elem_of] in *;
  unfold IsArgSet, GetBoolArg, GetArg;
  rewrite H by (by left); reflexivity.

Lemma rule_bind_reads : reads_ok rule_bind.
Proof. reads_one. Qed.

Lemma rule_whitebind_reads : reads_ok rule_whitebind.
Proof. reads_one. Qed.

Lemma rule_connect_reads : reads_ok rule_connect.
Proof. reads_one. Qed.

Lemma rule_proxy_reads : reads_ok rule_proxy.
Proof. reads_one. Qed.

Lemma rule_nolisten_reads D : reads_ok (rule_nolisten D).
Proof. reads_one. Qed.

Lemma rule_externalip_reads : reads_ok rule_externalip.
Proof. reads_one. Qed.

Lemma rule_blocksonly_reads D : reads_ok (rule_blocksonly D).
Proof. reads_one. Qed.

Lemma rule_forcerelay_reads D : reads_ok (rule_forcerelay D).
Proof. reads_one. Qed.

Lemma rule_prune_reads : reads_ok rule_prune.
Proof. reads_one. Qed.

Lemma rule_masternode_reads : reads_ok rule_masternode.
Proof. reads_one. Qed.

Create HintDb rules.

#[local] Hint Resolve rule_bind_reads rule_whitebind_reads rule_connect_reads
  rule_proxy_reads rule_nolisten_reads rule_externalip_reads
  rule_blocksonly_reads rule_forcerelay_reads rule_prune_reads
  rule_masternode_reads : rules.

Ltac rest_step :=
  first
    [ eapply apply_rule_rest_preserved;
        [ auto with rules | apply apply_rule_frames
        | apply apply_rule_inflationary | reflexivity ]
    | eapply apply_rule_rest_preserved;
        [ auto with rules | apply pi_indexes_frames
        | apply pi_indexes_inflationary | reflexivity ]
    | eapply pi_indexes_rest_preserved;
        [ apply apply_rule_frames | reflexivity ] ].

Lemma interaction_steps_idempotent D :
  Forall (fun f => forall b, f (f b) = f b) (interaction_steps D).
Proof.
  unfold interaction_steps.
  repeat (apply Forall_cons; split;
          [first [apply apply_rule_idempotent | apply pi_indexes_idempotent] |]).
  constructor.
Qed.

Lemma interaction_steps_ordered D :
  ForallOrdPairs (fun f g => forall b, f b = b -> f (g b) = g b)
    (interaction_steps D).
Proof.
  unfold interaction_steps.
  repeat (constructor; [repeat (apply Forall_cons; split; [rest_step |]);
                        constructor |]).
  constructor.
Qed.

(** Every step is at rest on what [InitParameterInteraction] leaves. *)
Lemma interaction_at_rest D a :
  Forall (fun f => f (exec (InitParameterInteraction D) a)
                   = exec (InitParameterInteraction D) a)
    (interaction_steps D).
Proof.
  rewrite IPI_steps. apply steps_at_rest.
  - apply interaction_steps_idempotent.
  - apply interaction_steps_ordered.
Qed.

Lemma additive_ret : additive (ret tt).
Proof. split; intros a; [reflexivity | done]. Qed.

Lemma additive_soft_set k b msg : additive (soft_set k b msg).
Proof.
  split; intros a.
  - rewrite exec_soft_set. unfold soft. cbn.
    destruct (a !! k) eqn:E; [reflexivity | by apply insert_subseteq].
  - unfold exec, trace, soft_set, SoftSetBoolArg, bind, IsArgSet.
    case_bool_decide as H; cbn; [done|].
    intros E. exfalso. apply H. rewrite <- E. rewrite lookup_insert_eq. eauto.
Qed.

Lemma additive_bind (c1 c2 : M Args string unit) :
  additive c1 -> additive c2 -> additive (bind c1 (fun _ => c2)).
Proof.
  intros [S1 Q1] [S2 Q2]. split; intros a.
  - rewrite exec_bind. etrans; [apply S1 | apply S2].
  - rewrite exec_bind, trace_bind. intros E.
    assert (E1 : exec c1 a = a).
    { apply (anti_symm (⊆)); [|apply S1]. rewrite <- E at 2. apply S2. }
    rewrite E1 in E |- *. by rewrite Q1, Q2.
Qed.

Lemma additive_when (b : bool) c : additive c -> additive (when b c).
Proof. intros H. destruct b; [exact H | apply additive_ret]. Qed.

Lemma additive_if (b : bool) c1 c2 : additive c1 -> additive c2 -> additive (if b then c1 else c2).
Proof. by destruct b. Qed.

Lemma additive_gets {A} (f : Args -> A) (k : A -> M Args string unit) :
  (forall x, additive (k x)) -> additive (bind (gets f) k).
Proof.
  intros H. split; intros a.
  - apply (proj1 (H (f a))).
  - apply (proj2 (H (f a))).
Qed.

Ltac additive_step :=
  lazymatch goal with
  | |- additive (bind (gets _) _) => apply additive_gets; intros ?
  | |- additive (when _ _) => apply additive_when
  | |- additive (if _ then _ else _) => apply additive_if
  | |- additive (soft_set _ _ _) => apply additive_soft_set
  | |- additive (ret tt) => apply additive_ret
  | |- additive (bind _ _) => apply additive_bind
  end.

Lemma pi_indexes_quiet D a :
  exec (pi_indexes D) a = a -> trace (pi_indexes D) a = [].
Proof.
  intros H. apply pi_indexes_fixed in H. unfold trace.
  by rewrite pi_indexes_run, H.
Qed.

Lemma pi_bind_additive : additive pi_bind.
Proof. unfold pi_bind. repeat additive_step. Qed.

Lemma pi_whitebind_additive : additive pi_whitebind.
Proof. unfold pi_whitebind. repeat additive_step. Qed.

Lemma pi_connect_additive : additive pi_connect.
Proof. unfold pi_connect. repeat additive_step. Qed.

Lemma pi_proxy_additive : additive pi_proxy.
Proof. unfold pi_proxy. repeat additive_step. Qed.

Lemma pi_nolisten_additive D : additive (pi_nolisten D).
Proof. unfold pi_nolisten. repeat additive_step. Qed.

Lemma pi_externalip_additive : additive pi_externalip.
Proof. unfold pi_externalip. repeat additive_step. Qed.

Lemma pi_blocksonly_additive D : additive (pi_blocksonly D).
Proof. unfold pi_blocksonly. repeat additive_step. Qed.

Lemma pi_forcerelay_additive D : additive (pi_forcerelay D).
Proof. unfold pi_forcerelay. repeat additive_step. Qed.

Lemma pi_prune_additive : additive pi_prune.
Proof. unfold pi_prune. repeat additive_step. Qed.

Lemma pi_masternode_additive : additive pi_masternode.
Proof. unfold pi_masternode. repeat additive_step. Qed.

Lemma trace_at_rest (c k : M Args string unit) a :
  exec c a = a -> trace c a = [] -> trace (bind c (fun _ => k)) a = trace k a.
Proof. intros E T. by rewrite trace_bind, E, T. Qed.

Ltac quiet_head :=
  rewrite trace_at_rest;
  [ | assumption
    | first [ apply pi_indexes_quiet; assumption
            | apply pi_bind_additive; assumption
            | apply pi_whitebind_additive; assumption
            | apply pi_connect_additive; assumption
            | apply pi_proxy_additive; assumption
            | apply pi_nolisten_additive; assumption
            | apply pi_externalip_additive; assumption
            | apply pi_blocksonly_additive; assumption
            | apply pi_forcerelay_additive; assumption
            | apply pi_prune_additive; assumption ] ].

Lemma interaction_quiet D a :
  Forall (fun f => f a = a) (interaction_steps D) ->
  trace (InitParameterInteraction D) a = [].
Proof.
  unfold interaction_steps. intros H.
  repeat (apply Forall_cons in H as [?E H]).
  rewrite <- ?pi_bind_rule, <- ?pi_whitebind_rule, <- ?pi_connect_rule,
    <- ?pi_proxy_rule, <- ?pi_nolisten_rule, <- ?pi_externalip_rule,
    <- ?pi_blocksonly_rule, <- ?pi_forcerelay_rule, <- ?pi_prune_rule,
    <- ?pi_masternode_rule in *.
  unfold InitParameterInteraction.
  do 10 quiet_head.
  by apply pi_masternode_additive.
Qed.

(** X1: [InitParameterInteraction] is idempotent: run on the store it has
    produced, it leaves the store as it is and logs nothing. *)
Theorem InitParameterInteraction_idempotent D a :
  let a' := exec (InitParameterInteraction D) a in
  exec (InitParameterInteraction D) a' = a' /\
  trace (InitParameterInteraction D) a' = [].
Proof.
  intros a'. subst a'. pose proof (interaction_at_rest D a) as R. split.
  - rewrite (IPI_steps D (exec _ a)). by apply run_steps_at_rest.
  - by apply interaction_quiet.
Qed.

Lemma interaction_steps_frames D :
  Forall2 frames (interaction_steps D) step_writes.
Proof.
  unfold interaction_steps, step_writes.
  repeat (constructor;
          [lazymatch goal with
           | |- frames (apply_rule ?r) _ => exact (apply_rule_frames r)
           | |- frames (exec (pi_indexes ?D0)) _ => exact (pi_indexes_frames D0)
           end |]).
  constructor.
Qed.

Lemma run_steps_frames fs Ws :
  Forall2 frames fs Ws -> frames (run_steps fs) (concat Ws).
Proof.
  induction 1 as [|f W fs Ws Hf _ IH]; intros a k Hk; [done|].
  cbn [concat] in Hk. rewrite elem_of_app in Hk.
  change (run_steps (f :: fs) a) with (run_steps fs (f a)).
  rewrite IH by tauto. apply Hf. tauto.
Qed.

Lemma run_steps_app fs gs a :
  run_steps (fs ++ gs) a = run_steps gs (run_steps fs a).
Proof. apply foldl_app. Qed.

Lemma run_steps_split n fs a :
  run_steps fs a = run_steps (drop n fs) (run_steps (take n fs) a).
Proof. by rewrite <- run_steps_app, take_drop. Qed.

Lemma frames_before D n a k :
  k ∉ concat (take n step_writes) ->
  run_steps (take n (interaction_steps D)) a !! k = a !! k.
Proof.
  apply run_steps_frames, Forall2_take, interaction_steps_frames.
Qed.

Lemma frames_after D n a k :
  k ∉ concat (drop n step_writes) ->
  run_steps (drop n (interaction_steps D)) a !! k = a !! k.
Proof.
  apply run_steps_frames, Forall2_drop, interaction_steps_frames.
Qed.

Lemma IPI_keeps D a k :
  k ∉ interaction_targets ->
  exec (InitParameterInteraction D) a !! k = a !! k.
Proof.
  intros Hk. rewrite IPI_steps.
  rewrite <- (take_ge (interaction_steps D) 11) by (cbn; lia).
  apply frames_before. cbn. unfold interaction_targets in Hk.
  rewrite !not_elem_of_cons in Hk.
  destruct Hk as (? & ? & ? & ? & ? & ? & ? & ? & ? & ? & ? & _).
  rewrite !not_elem_of_cons.
  repeat split; first [assumption | apply not_elem_of_nil].
Qed.

(** X2: [InitParameterInteraction] writes no option but the eleven of
    [interaction_targets]: every other option has after it the value, or
    the absence of a value, it had before. *)
Theorem InitParameterInteraction_frame D a k :
  k ∉ interaction_targets ->
  exec (InitParameterInteraction D) a !! k = a !! k.
Proof. apply IPI_keeps. Qed.

Lemma softs_assigns l : assigns (fun a => softs a l) l.
Proof.
  induction l as [|[k0 v0] l IH]; intros a k v H; [by left|].
  cbn in H. apply IH in H as [H | H]; [|right; by right].
  unfold soft in H. cbn in H. destruct (a !! k0) eqn:E; [by left|].
  destruct (decide (k = k0)) as [-> | Hk].
  - rewrite lookup_insert_eq in H. injection H as <-. right. by left.
  - rewrite lookup_insert_ne in H by done. by left.
Qed.

Lemma apply_rule_assigns r : assigns (apply_rule r) (sets r).
Proof.
  intros a k v H. unfold apply_rule in H.
  destruct (guard r a); [by apply softs_assigns | by left].
Qed.

Lemma pi_indexes_assigns D : assigns (exec (pi_indexes D)) [("-checklevel", "4")].
Proof.
  intros a k v. unfold exec. rewrite pi_indexes_run.
  destruct (raises_checklevel D a); cbn [fst snd]; [|by left].
  destruct (decide (k = "-checklevel")) as [-> | Hk].
  - rewrite lookup_insert_eq. intros [= <-]. right. by left.
  - rewrite lookup_insert_ne by done. by left.
Qed.

Lemma interaction_steps_assigns D :
  Forall2 assigns (interaction_steps D) step_assigns.
Proof.
  unfold interaction_steps, step_assigns.
  repeat (constructor;
          [lazymatch goal with
           | |- assigns (apply_rule ?r) _ => exact (apply_rule_assigns r)
           | |- assigns (exec (pi_indexes ?D0)) _ => exact (pi_indexes_assigns D0)
           end |]).
  constructor.
Qed.

Lemma run_steps_assigns fs Ps :
  Forall2 assigns fs Ps -> assigns (run_steps fs) (concat Ps).
Proof.
  induction 1 as [|f P fs Ps Hf _ IH]; intros a k v H; [by left|].
  change (run_steps (f :: fs) a) with (run_steps fs (f a)) in H.
  cbn [concat]. rewrite elem_of_app.
  apply IH in H as [H | H]; [|tauto].
  apply Hf in H. tauto.
Qed.

Lemma interaction_steps_inflationary D :
  Forall inflationary (interaction_steps D).
Proof.
  unfold interaction_steps.
  repeat (constructor;
          [first [apply apply_rule_inflationary | apply pi_indexes_inflationary] |]).
  constructor.
Qed.

Lemma run_steps_inflationary fs :
  Forall inflationary fs -> inflationary (run_steps fs).
Proof.
  induction 1 as [|f fs Hf _ IH]; intros a k H; [done|].
  change (run_steps (f :: fs) a) with (run_steps fs (f a)).
  apply IH. by apply Hf.
Qed.

Lemma GetBoolArg_reads (a b : Args) k d :
  a !! k = b !! k -> GetBoolArg a k d = GetBoolArg b k d.
Proof. unfold GetBoolArg. by intros ->. Qed.

(** X3: when the user has not set [-whitelistrelay], parameter interaction
    sets it to 0 in blocks-only mode, otherwise to 1 when
    [-whitelistforcerelay] holds, and otherwise leaves it unset: of the two
    rules that write the option, the blocks-only rule comes first and
    wins. *)
Theorem whitelistrelay_precedence D a :
  a !! "-whitelistrelay" = None ->
  exec (InitParameterInteraction D) a !! "-whitelistrelay" =
    if GetBoolArg a "-blocksonly" (DEFAULT_BLOCKSONLY D) then Some "0"
    else if GetBoolArg a "-whitelistforcerelay" (DEFAULT_WHITELISTFORCERELAY D)
         then Some "1"
         else None.
Proof.
  intros Hn. rewrite IPI_steps, (run_steps_split 8).
  rewrite frames_after by (cbn; among).
  rewrite (run_steps_split 6).
  set (a6 := run_steps (take 6 (take 8 (interaction_steps D))) a).
  assert (X : forall k, k ∉ concat (take 6 step_writes) -> a6 !! k = a !! k).
  { intros k Hk. subst a6. apply (frames_before D 6). exact Hk. }
  change (run_steps (drop 6 (take 8 (interaction_steps D))) a6) with
    (apply_rule (rule_forcerelay D) (apply_rule (rule_blocksonly D) a6)).
  set (a7 := apply_rule (rule_blocksonly D) a6).
  assert (N : a6 !! "-whitelistrelay" = None).
  { rewrite X; [done | cbn; among]. }
  assert (G7 : guard (rule_blocksonly D) a6
               = GetBoolArg a "-blocksonly" (DEFAULT_BLOCKSONLY D)).
  { apply GetBoolArg_reads, X. cbn. among. }
  assert (G8 : guard (rule_forcerelay D) a7
               = GetBoolArg a "-whitelistforcerelay"
                   (DEFAULT_WHITELISTFORCERELAY D)).
  { apply GetBoolArg_reads. subst a7.
    rewrite (apply_rule_frames (rule_blocksonly D)) by (cbn; among).
    apply X. cbn. among. }
  unfold apply_rule at 1. rewrite G8. subst a7. unfold apply_rule. rewrite G7.
  cbn [sets rule_blocksonly rule_forcerelay].
  destruct (GetBoolArg a "-blocksonly" (DEFAULT_BLOCKSONLY D)),
    (GetBoolArg a "-whitelistforcerelay" (DEFAULT_WHITELISTFORCERELAY D));
    cbn [softs foldl]; try done.
  - apply soft_extends. by apply soft_fresh.
  - by apply soft_fresh.
  - by apply soft_fresh.
Qed.

Lemma turned_off_only_0 : turned_off_only = true.
Proof. reflexivity. Qed.

(** X4: whenever the node ends up not listening after parameter
    interaction, whatever rule or user setting made it so, each of [-upnp],
    [-natpmp], [-discover] and [-listenonion] that the user has not set is
    set to 0. *)
Theorem not_listening_turns_off D a k :
  GetBoolArg (exec (InitParameterInteraction D) a) "-listen" (DEFAULT_LISTEN D)
    = false ->
  k ∈ ["-upnp"; "-natpmp"; "-discover"; "-listenonion"] ->
  a !! k = None ->
  exec (InitParameterInteraction D) a !! k = Some "0".
Proof.
  intros Hl Hk Hn.
  assert (S : is_Some (exec (InitParameterInteraction D) a !! k)).
  { rewrite IPI_steps in Hl |- *. rewrite (run_steps_split 4) in Hl |- *.
    set (a4 := run_steps (take 4 (interaction_steps D)) a) in *.
    rewrite (GetBoolArg_reads _ a4 "-listen") in Hl
      by (apply frames_after; cbn; among).
    change (drop 4 (interaction_steps D)) with
      (apply_rule (rule_nolisten D) :: drop 5 (interaction_steps D)).
    cbn [run_steps foldl].
    apply (run_steps_inflationary (drop 5 (interaction_steps D))).
    { apply Forall_drop, interaction_steps_inflationary. }
    assert (G : guard (rule_nolisten D) a4 = true).
    { change (guard (rule_nolisten D) a4)
        with (negb (GetBoolArg a4 "-listen" (DEFAULT_LISTEN D))).
      by rewrite Hl. }
    unfold apply_rule. rewrite G. cbn [sets rule_nolisten].
    rewrite !elem_of_cons in Hk.
    destruct Hk as [-> | [-> | [-> | [-> | Hk]]]];
      [ apply (softs_sets _ _ ("-upnp", "0"))
      | apply (softs_sets _ _ ("-natpmp", "0"))
      | apply (softs_sets _ _ ("-discover", "0"))
      | apply (softs_sets _ _ ("-listenonion", "0"))
      | by apply elem_of_nil in Hk ];
      rewrite !elem_of_cons; auto 10. }
  destruct S as [v S]. rewrite S. f_equal.
  rewrite IPI_steps in S.
  apply (run_steps_assigns _ _ (interaction_steps_assigns D)) in S
    as [S | S]; [congruence|].
  pose proof turned_off_only_0 as F. unfold turned_off_only in F.
  rewrite forallb_forall in F. apply list_elem_of_In in S.
  specialize (F _ S). cbn [fst snd] in F.
  assert (E : existsb (String.eqb k)
                ["-upnp"; "-natpmp"; "-discover"; "-listenonion"] = true).
  { apply existsb_exists. exists k. split; [by apply list_elem_of_In|].
    apply String.eqb_refl. }
  rewrite E in F. cbn [implb] in F. by apply String.eqb_eq in F.
Qed.

(** X5: after parameter interaction [-checklevel] holds 4 when one of the
    additional indexes is enabled and the level asked for is below 4, and
    is as the user left it otherwise; so with an additional index enabled
    the level read afterwards is 4 at least. *)
Theorem additional_indexes_raise_checklevel D a :
  let a' := exec (InitParameterInteraction D) a in
  a' !! "-checklevel" =
    (if raises_checklevel D a then Some "4" else a !! "-checklevel") /\
  (fAdditionalIndexes D a = true ->
   (4 <= GetArg a' "-checklevel" (DEFAULT_CHECKLEVEL D))%Z).
Proof.
  intros a'. subst a'.
  assert (E : exec (InitParameterInteraction D) a !! "-checklevel" =
              if raises_checklevel D a then Some "4" else a !! "-checklevel").
  { rewrite IPI_steps, (run_steps_split 10).
    rewrite frames_after by (cbn; among).
    rewrite (run_steps_split 9).
    set (a9 := run_steps (take 9 (take 10 (interaction_steps D))) a).
    assert (X : forall k, k ∉ concat (take 9 step_writes) -> a9 !! k = a !! k).
    { intros k Hk. subst a9. apply (frames_before D 9). exact Hk. }
    cbn [interaction_steps take drop run_steps foldl].
    unfold exec. rewrite pi_indexes_run.
    assert (R : raises_checklevel D a9 = raises_checklevel D a).
    { apply raises_checklevel_reads. intros k Hk. apply X.
      rewrite !elem_of_cons in Hk.
      destruct Hk as [-> | [-> | [-> | [-> | Hk]]]];
        [ | | | | by apply elem_of_nil in Hk ]; cbn; among. }
    rewrite R. destruct (raises_checklevel D a); cbn [fst snd].
    - apply lookup_insert_eq.
    - apply X. cbn. among. }
  split; [exact E|]. intros Ha. unfold GetArg at 1. rewrite E.
  unfold raises_checklevel. rewrite Ha. cbn [andb].
  destruct (Z.ltb_spec (GetArg a "-checklevel" (DEFAULT_CHECKLEVEL D)) 4)
    as [Hlt | Hge].
  - vm_compute. discriminate.
  - exact Hge.
Qed.

(* ================================================================= *)
(** ** The ways out of the import thread *)

#[local] Instance import_rel_preorder : PreOrder import_rel.
Proof.
  split.
  - intros s. unfold import_rel. tauto.
  - intros s1 s2 s3 (A1 & B1 & C1 & D1) (A2 & B2 & C2 & D2).
    unfold import_rel. repeat split.
    + auto.
    + apply B2 in H as [H _]. by apply B1 in H as [H _].
    + destruct (B2 H) as [H2 E2]. destruct (B1 H2) as [_ E1]. congruence.
    + apply C1 in H as [H _]. by apply C2 in H as [H _].
    + destruct (C1 H) as [H1 E1]. destruct (C2 H1) as [_ E2]. congruence.
    + congruence.
Qed.

Lemma import_rel_with_shutdown s b :
  import_rel s (with_shutdown (fRequestShutdown s || b) s).
Proof.
  destruct s as [fr rd sd ml]. unfold import_rel. cbn.
  repeat split; auto. intros ->. reflexivity.
Qed.

Lemma reindex_phase_rel env s : import_rel s (exec (reindex_phase env) s).
Proof.
  destruct (fReindex s) eqn:Hr.
  - unfold exec. rewrite reindex_phase_on by done.
    destruct (result (reindex_loop (blockfiles env) 0) s) as [e|] eqn:Hres.
    + rewrite (andthen_Some _ _ _ e) by done. cbn [fst snd].
      destruct (reindex_loop_interrupted _ _ _ _ Hres) as (_ & Hx & _).
      rewrite Hx.
      replace true with (fRequestShutdown s || true) by apply orb_true_r.
      apply import_rel_with_shutdown.
    + rewrite andthen_None by done. cbn [fst snd].
      assert (Ex : exec (reindex_loop (blockfiles env) 0) s = s).
      { unfold exec. by rewrite (reindex_loop_completes _ _ _ Hres). }
      rewrite Ex. unfold exec. cbn.
      destruct s as [fr rd sd ml]. cbn in Hr. subst fr.
      unfold import_rel. cbn. repeat split; auto; discriminate.
  - unfold exec. rewrite reindex_phase_off by done. reflexivity.
Qed.

Lemma bootstrap_phase_rel env s : import_rel s (exec (bootstrap_phase env) s).
Proof.
  unfold bootstrap_phase.
  destruct (pathBootstrap env) as [| |arrives [|]]; try reflexivity.
  - apply (import_rel_with_shutdown s arrives).
  - apply (import_rel_with_shutdown s arrives).
Qed.

Lemma loadblock_phase_rel files : forall s,
  import_rel s (exec (loadblock_phase files) s).
Proof.
  induction files as [|f files IH]; intros s; [reflexivity|].
  unfold exec. rewrite loadblock_phase_cons.
  destruct (can_open f); [|apply IH]. cbv zeta.
  destruct (fRequestShutdown s || arrives_during f) eqn:E; cbn [fst snd].
  - rewrite <- E. apply import_rel_with_shutdown.
  - etrans; [|apply IH]. rewrite <- E. apply import_rel_with_shutdown.
Qed.

Lemma andthen_rel {X} (c k : M ImportState ImportEvent (option X)) s :
  (forall s, import_rel s (exec c s)) -> (forall s, import_rel s (exec k s)) ->
  import_rel s (exec (andthen c k) s).
Proof.
  intros Hc Hk. unfold exec at 1.
  destruct (result c s) as [e|] eqn:Hres.
  - rewrite (andthen_Some _ _ _ e) by done. apply Hc.
  - rewrite andthen_None by done. cbn [fst snd]. etrans; [apply Hc | apply Hk].
Qed.

Lemma import_sources_rel env files s :
  import_rel s (exec (import_sources env files) s).
Proof.
  unfold import_sources. apply andthen_rel; [apply reindex_phase_rel|].
  intros s0. apply andthen_rel; [apply bootstrap_phase_rel|].
  apply loadblock_phase_rel.
Qed.

Lemma source_events_start_no_shutdown t :
  forallb source_event t = true -> starts_shutdown t = false.
Proof.
  induction t as [|e t IH]; [done|]. intros H.
  cbn [forallb] in H. apply andb_prop in H as [He Ht].
  change (starts_shutdown (e :: t)) with
    ((match e with EvStartShutdown => true | _ => false end)
     || starts_shutdown t).
  rewrite (IH Ht). by destruct e.
Qed.

Lemma starts_shutdown_app t1 t2 :
  starts_shutdown (t1 ++ t2) = starts_shutdown t1 || starts_shutdown t2.
Proof. apply existsb_app. Qed.

Lemma andthen_result {X} (c k : M ImportState ImportEvent (option X)) s e :
  result (andthen c k) s = Some e ->
  result c s = Some e \/ result k (exec c s) = Some e.
Proof.
  unfold result at 1. destruct (result c s) as [e'|] eqn:Hres.
  - rewrite (andthen_Some _ _ _ e') by done. cbn. intros [= <-]. by left.
  - rewrite andthen_None by done. cbn. by right.
Qed.

Lemma loadblock_phase_exits files : forall s e,
  result (loadblock_phase files) s = Some e -> e = ExitShutdownRequested.
Proof.
  induction files as [|f files IH]; intros s e; [discriminate|].
  unfold result. rewrite loadblock_phase_cons.
  destruct (can_open f); [|apply IH]. cbv zeta.
  destruct (fRequestShutdown s || arrives_during f); cbn [fst snd].
  - by intros [= <-].
  - apply IH.
Qed.

Lemma import_sources_exits env files s e :
  result (import_sources env files) s = Some e ->
  e = ExitShutdownRequested \/ e = ExitRenameFailed.
Proof.
  unfold import_sources. intros H.
  apply andthen_result in H as [H | H].
  - left. destruct (fReindex s) eqn:Hr.
    + unfold result in H. rewrite reindex_phase_on in H by done.
      fold (result (andthen (reindex_loop (blockfiles env) 0)
                      (bind finish_reindex (fun _ => ret None))) s) in H.
      apply andthen_result in H as [H | H].
      * by destruct (reindex_loop_interrupted _ _ _ _ H) as (-> & _).
      * discriminate H.
    + unfold result in H. by rewrite reindex_phase_off in H.
  - apply andthen_result in H as [H | H].
    + right. unfold bootstrap_phase in H.
      destruct (pathBootstrap env) as [| |arrives [|]]; try discriminate H.
      by injection H as <-.
    + left. by eapply loadblock_phase_exits.
Qed.

Lemma activate_and_finish_report env s :
  let r := result (activate_and_finish env) s in
  let s' := exec (activate_and_finish env) s in
  let t := trace (activate_and_finish env) s in
  (fRequestShutdown s = true -> fRequestShutdown s' = true) /\
  fReindex s' = fReindex s /\ reindexing_on_disk s' = reindexing_on_disk s /\
  (r <> ExitDone -> mempool_is_loaded s' = mempool_is_loaded s) /\
  (r = ExitDone ->
     mempool_is_loaded s' = negb (fRequestShutdown s') /\
     ActivateBestChain_ok env = true /\ stopafterblockimport env = false) /\
  (starts_shutdown t = true <->
     r = ExitBestChainFailed \/ r = ExitStopAfterImport) /\
  (starts_shutdown t = true -> fRequestShutdown s' = true).
Proof.
  unfold activate_and_finish, StartShutdown, after_import.
  destruct s as [fr rd sd ml].
  destruct (ActivateBestChain_ok env), (stopafterblockimport env),
    (fMasternodeMode_import env), (persistmempool_import env); cbn;
    (split; [tauto|]); (split; [reflexivity|]); (split; [reflexivity|]);
    (split; [intros H; first [reflexivity | by destruct H]|]);
    (split; [intros H; first [discriminate H | done]|]);
    (split; [split; [intros H; first [discriminate H | tauto]
                    | intros [H | H]; first [discriminate H | reflexivity]]
            | intros H; first [discriminate H | reflexivity]]).
Qed.

(** X6: whichever way [ThreadImport] is left, it never lowers the shutdown
    flag and never raises [fReindex], and it changes [fReindex] and the
    reindexing marker only by finishing a reindex; the mempool flag is
    changed only when the thread runs to its end, where it becomes the
    negation of the shutdown flag; the thread runs to its end only when
    [ActivateBestChain] has succeeded and [-stopafterblockimport] is off;
    and it starts a shutdown exactly when it is left for a failed
    [ActivateBestChain] or for [-stopafterblockimport]. *)
Theorem ThreadImport_exit_report env files s :
  let r := result (ThreadImport env files) s in
  let s' := exec (ThreadImport env files) s in
  let t := trace (ThreadImport env files) s in
  (fRequestShutdown s = true -> fRequestShutdown s' = true) /\
  (fReindex s' = true ->
     fReindex s = true /\ reindexing_on_disk s' = reindexing_on_disk s) /\
  (fReindex s = false ->
     fReindex s' = false /\ reindexing_on_disk s' = reindexing_on_disk s) /\
  (r <> ExitDone -> mempool_is_loaded s' = mempool_is_loaded s) /\
  (r = ExitDone ->
     mempool_is_loaded s' = negb (fRequestShutdown s') /\
     ActivateBestChain_ok env = true /\ stopafterblockimport env = false) /\
  (starts_shutdown t = true <->
     r = ExitBestChainFailed \/ r = ExitStopAfterImport) /\
  (starts_shutdown t = true -> fRequestShutdown s' = true).
Proof.
  intros r s' t. subst r s' t. unfold result, exec, trace.
  rewrite ThreadImport_run.
  pose proof (import_sources_rel env files s) as (A & B & C & D).
  pose proof (source_events_start_no_shutdown _
                (import_sources_source_events env files s)) as N.
  destruct (result (import_sources env files) s) as [e|] eqn:Hres.
  - cbn [fst snd]. rewrite N.
    pose proof (import_sources_exits _ _ _ _ Hres) as He.
    split; [exact A|]. split; [exact B|]. split; [exact C|].
    split; [intros _; exact D|].
    split; [intros ->; destruct He; discriminate|].
    split; [|discriminate].
    split; [discriminate | intros [-> | ->]; destruct He; discriminate].
  - cbv zeta. cbn [fst snd]. set (s1 := exec (import_sources env files) s) in *.
    rewrite starts_shutdown_app, N. cbn [orb].
    destruct (activate_and_finish_report env s1)
      as (A' & B' & C' & D' & E' & F' & G').
    fold (result (activate_and_finish env) s1) (exec (activate_and_finish env) s1)
      (trace (activate_and_finish env) s1).
    split; [auto|].
    split; [rewrite B', C'; exact B|].
    split; [rewrite B', C'; exact C|].
    split; [intros H; rewrite D' by done; exact D|].
    split; [exact E'|]. split; [exact F' | exact G'].
Qed.

(* ================================================================= *)
(** ** A shutdown request during loading *)

(** X7: a shutdown request ends the loading of the chain state without a
    question to the user and without an error report: requested before the
    first pass, the loop body is not entered and only the shutdown is
    logged; pending after a pass that has loaded the chain state or has
    broken off, start-up is given up the same way. *)
Theorem shutdown_request_ends_loading cfg envs s :
  let s0 := with_reindex (arg_reindex cfg) s in
  (fRequestShutdown s || arrives_before_attempt (envs 0) = true ->
   forall fuel,
     load_chain_state (S fuel) cfg envs s =
       (LoadReturnedFalse FailShutdown, with_shutdown true s0,
        [LdLog "Shutdown requested. Exiting."])) /\
  (forall o s1 t1,
     fRequestShutdown s || arrives_before_attempt (envs 0) = false ->
     load_attempt cfg (envs 0) (arg_reindex cfg) (with_shutdown false s0)
       = (o, s1, t1) ->
     (forall msg, o <> AttInitError msg) ->
     fRequestShutdown s1 || arrives_late (envs 0) = true ->
     forall fuel,
       load_chain_state (S (S fuel)) cfg envs s =
         (LoadReturnedFalse FailShutdown, with_shutdown true s1,
          LdLoadingBlockIndex :: t1 ++ [LdLog "Shutdown requested. Exiting."])).
Proof.
  intros s0. split.
  - intros H fuel. rewrite load_chain_state_run. cbv zeta. fold s0.
    assert (H0 : fRequestShutdown s0 || arrives_before_attempt (envs 0) = true)
      by exact H.
    unfold result, exec, trace. rewrite (load_loop_stop _ _ _ _ _ H0).
    reflexivity.
  - intros o s1 t1 H E Ho Hp fuel. rewrite load_chain_state_run. cbv zeta.
    fold s0.
    assert (H0 : fRequestShutdown s0 || arrives_before_attempt (envs 0) = false)
      by exact H.
    assert (E0 : load_attempt cfg (envs 0) (fReindex s0) (with_shutdown false s0)
                 = (o, s1, t1)) by exact E.
    unfold result, exec, trace.
    rewrite (load_loop_step _ _ _ _ _ _ _ _ H0 E0). cbv zeta. rewrite Hp.
    destruct o as [|err|msg].
    + reflexivity.
    + assert (H2 : fRequestShutdown (with_shutdown true s1)
                   || arrives_before_attempt (envs 1) = true) by reflexivity.
      unfold result, exec, trace. rewrite (load_loop_stop _ _ _ _ _ H2).
      cbn. by rewrite app_nil_r.
    + by destruct (Ho msg).
Qed.

Lemma shutdown_request_ends_loading_witness :
  result (load_chain_state 2 example_cfg (fun _ => interrupted_attempt))
    fresh_start = LoadReturnedFalse FailShutdown.
Proof.
  unfold result.
  erewrite (proj2 (shutdown_request_ends_loading example_cfg
                     (fun _ => interrupted_attempt) fresh_start)
              (AttBreak EmptyString) _ _ eq_refl eq_refl);
    [reflexivity | discriminate | reflexivity].
Defined.

(* ================================================================= *)
(** ** Connection limit, prune target and script threads *)

Section LimitProofs.

Local Open Scope Z_scope.

Lemma wrap32_small z : - 2147483648 <= z < 2147483648 -> wrap32 z = z.
Proof.
  intros H. unfold wrap32.
  change (2^31) with 2147483648. change (2^32) with 4294967296.
  rewrite Z.mod_small by lia. lia.
Qed.

Lemma wrap32_range z : - 2147483648 <= wrap32 z < 2147483648.
Proof.
  unfold wrap32. change (2^31) with 2147483648. change (2^32) with 4294967296.
  pose proof (Z.mod_pos_bound (z + 2147483648) 4294967296). lia.
Qed.

(** X8: with limits and answers of [RaiseFileDescriptorLimit] that fit an
    [int], lines 1347-1365 fail exactly when fewer than
    [MIN_CORE_FILEDESCRIPTORS] descriptors are granted; otherwise the
    connection limit does not exceed what was asked for, it and the
    descriptors set aside fit what was granted, a positive limit also leaves
    room for the bound sockets within [fd_max], the limit is negative
    exactly when the descriptors granted do not cover those set aside, and
    the warning is given exactly when the limit is below what was asked
    for. *)
Theorem connections_fit_descriptors L nUserBind maxconnections raise :
  fd_limits_ok L -> 0 <= nUserBind < 2^20 ->
  (forall n, 0 <= raise n < 2^31) ->
  let r := trim_connections L nUserBind maxconnections raise in
  let c := r.2 in
  let reserved := MIN_CORE_FILEDESCRIPTORS L + MAX_ADDNODE_CONNECTIONS L in
  (r.1.1 = None <-> MIN_CORE_FILEDESCRIPTORS L <= nFD c) /\
  (r.1.1 = None ->
     nMaxConnections c <= Z.max (nUserMaxConnections c) 0 /\
     nMaxConnections c + reserved <= nFD c /\
     (0 < nMaxConnections c ->
        nMaxConnections c + Z.max nUserBind 1 + reserved
          <= (if USE_POLL L then nFD c else FD_SETSIZE L)) /\
     (0 <= nMaxConnections c <-> reserved <= nFD c) /\
     (r.1.2 <> [] <-> nMaxConnections c < nUserMaxConnections c)).
Proof.
  intros (Hm & Ha & Hs) Hb Hr r c reserved. subst r c reserved.
  unfold trim_connections.
  set (nBind := wrap32 (Z.max nUserBind 1)).
  set (user := wrap32 maxconnections).
  set (fd := raise _).
  assert (Hfd : 0 <= fd < 2147483648) by apply Hr.
  assert (Hu : - 2147483648 <= user < 2147483648) by apply wrap32_range.
  assert (Eb : nBind = Z.max nUserBind 1).
  { subst nBind. apply wrap32_small. change (2^20) with 1048576 in Hb. lia. }
  change (2^20) with 1048576 in *. change (2^30) with 1073741824 in *.
  set (fd_max := if USE_POLL L then fd else FD_SETSIZE L).
  assert (Hfm : 0 <= fd_max < 2147483648).
  { subst fd_max. destruct (USE_POLL L); lia. }
  rewrite (wrap32_small (fd_max - _ - _ - _)) by lia.
  destruct (Z.ltb_spec fd (MIN_CORE_FILEDESCRIPTORS L)) as [Hlt | Hge];
    cbn [fst snd nFD nMaxConnections nUserMaxConnections].
  - split; [split; [discriminate | lia] | discriminate].
  - rewrite (wrap32_small (fd - _ - _)) by lia.
    split; [split; [lia | reflexivity]|]. intros _.
    repeat split; try lia.
    + destruct (Z.ltb_spec
        (Z.min (fd - MIN_CORE_FILEDESCRIPTORS L - MAX_ADDNODE_CONNECTIONS L)
           (Z.max (Z.min (Z.max user 0)
              (fd_max - nBind - MIN_CORE_FILEDESCRIPTORS L
               - MAX_ADDNODE_CONNECTIONS L)) 0)) user); [lia | done].
    + destruct (Z.ltb_spec
        (Z.min (fd - MIN_CORE_FILEDESCRIPTORS L - MAX_ADDNODE_CONNECTIONS L)
           (Z.max (Z.min (Z.max user 0)
              (fd_max - nBind - MIN_CORE_FILEDESCRIPTORS L
               - MAX_ADDNODE_CONNECTIONS L)) 0)) user); [discriminate | lia].
Qed.

Lemma u64_small' z : 0 <= z < 18446744073709551616 -> u64 z = z.
Proof. intros H. unfold u64. change (2^64) with 18446744073709551616. by apply Z.mod_small. Qed.

(** X9: lines 1433-1455 reject a negative [-prune]; a target that is
    accepted and turns pruning on is never below the minimum (550 MiB on
    regtest, [MIN_DISK_SPACE_FOR_BLOCK_FILES] elsewhere); and for arguments
    below 2^44 MiB the argument is accepted exactly when it is 0, 1 or at
    least the minimum, pruning is on exactly when the argument is positive,
    and the target is the argument in bytes, or the largest [uint64_t] for
    the manual mode [-prune=1]. *)
Theorem prune_target_accepted MIN arg regtest p :
  0 <= MIN < 2^64 -> Prune.fPruneMode p = false -> - 2^63 <= arg < 2^63 ->
  let r := set_prune_target MIN arg regtest p in
  let need := if regtest then 550 * 2^20 else MIN in
  (arg < 0 -> r.1 <> None) /\
  (r.1 = None -> Prune.fPruneMode r.2 = true -> need <= Prune.nPruneTarget r.2 < 2^64) /\
  (0 <= arg < 2^44 ->
     (r.1 = None <-> arg <= 1 \/ need <= arg * 2^20) /\
     (r.1 = None ->
        Prune.fPruneMode r.2 = bool_decide (1 <= arg) /\
        Prune.nPruneTarget r.2 = if arg =? 1 then 2^64 - 1 else arg * 2^20)).
Proof.
  intros HM Hp Ha r need. subst r need. unfold set_prune_target.
  change (2^64) with 18446744073709551616 in *.
  change (2^63) with 9223372036854775808 in *.
  change (2^44) with 17592186044416.
  change (2^20) with 1048576.
  change (550 * 1024 * 1024) with 576716800.
  change (550 * 1048576) with 576716800.
  set (t := u64 (u64 (u64 arg * 1024) * 1024)).
  assert (Ht : 0 <= t < 18446744073709551616).
  { subst t. unfold u64. change (2^64) with 18446744073709551616.
    apply Z.mod_pos_bound. lia. }
  assert (Es : 0 <= arg < 17592186044416 -> t = arg * 1048576).
  { intros H. subst t. rewrite (u64_small' arg) by lia.
    rewrite (u64_small' (arg * 1024)) by lia.
    rewrite u64_small' by lia. lia. }
  destruct (Z.ltb_spec arg 0) as [Hneg | Hnn]; cbn [fst snd].
  { split; [discriminate|]. split; [discriminate|]. lia. }
  split; [lia|].
  destruct (Z.eqb_spec arg 1) as [-> | H1]; cbn [fst snd Prune.fPruneMode Prune.nPruneTarget].
  { split; [intros _ _; destruct regtest; lia|]. intros _.
    split; [split; [lia | reflexivity]|]. intros _. split; [|reflexivity].
    symmetry. apply bool_decide_eq_true. lia. }
  destruct (Z.eqb_spec t 0) as [E0 | N0]; cbn [negb fst snd Prune.fPruneMode Prune.nPruneTarget].
  { split; [intros _ H; congruence|]. intros Hs. rewrite (Es Hs) in E0.
    assert (arg = 0) by lia. subst arg.
    split; [split; [lia | reflexivity]|]. intros _.
    rewrite Hp. split; [|lia]. symmetry. apply bool_decide_eq_false. lia. }
  destruct regtest.
  - destruct (Z.ltb_spec t 576716800) as [Hlt | Hge];
      cbn [fst snd Prune.fPruneMode Prune.nPruneTarget].
    + split; [discriminate|]. intros Hs. rewrite (Es Hs) in *.
      split; [split; [discriminate | lia] | discriminate].
    + split; [lia|]. intros Hs. rewrite (Es Hs) in *.
      split; [split; [lia | reflexivity]|]. intros _. split; [|reflexivity].
      symmetry. apply bool_decide_eq_true. lia.
  - destruct (Z.ltb_spec t MIN) as [Hlt | Hge];
      cbn [fst snd Prune.fPruneMode Prune.nPruneTarget].
    + split; [discriminate|]. intros Hs. rewrite (Es Hs) in *.
      split; [split; [discriminate | lia] | discriminate].
    + split; [lia|]. intros Hs. rewrite (Es Hs) in *.
      split; [split; [lia | reflexivity]|]. intros _. split; [|reflexivity].
      symmetry. apply bool_decide_eq_true. lia.
Qed.

(** X10: whatever [-par] is given, the number of additional script
    verification threads lies between 0 and [MAX_SCRIPTCHECK_THREADS]: it
    is [-par] as the [int] the code stores it in (the 64-bit value of the
    option narrowed to 32 bits), less one, counted from the number of cores
    when that [int] is zero or negative, cut off at both ends.  No step of
    the computation overflows. *)
Theorem script_check_threads_bounds MAX cores par :
  0 <= MAX < 2^31 -> 1 <= cores < 2^31 ->
  let p := wrap32 par in
  let n := script_check_threads MAX cores par in
  0 <= n <= MAX /\
  n = Z.min (Z.max ((if p <=? 0 then p + cores else p) - 1) 0) MAX /\
  (- 2^31 <= par < 2^31 -> p = par).
Proof.
  intros HM Hc p n. subst n. unfold script_check_threads. fold p.
  change (2^31) with 2147483648 in *.
  pose proof (wrap32_range par) as Hp. fold p in Hp.
  assert (Hs : - 2147483648 <= par < 2147483648 -> p = par)
    by (intros H; subst p; by apply wrap32_small).
  destruct (Z.leb_spec p 0).
  - rewrite (wrap32_small (p + cores)) by lia.
    rewrite (wrap32_small (p + cores - 1)) by lia. lia.
  - rewrite (wrap32_small (p - 1)) by lia. lia.
Qed.

End LimitProofs.

(* ================================================================= *)
(** ** The pruning and masternode checks *)

Lemma GetArg_reads (a b : Args) k d : a !! k = b !! k -> GetArg a k d = GetArg b k d.
Proof. unfold GetArg. by intros ->. Qed.

Lemma IsArgSet_reads (a b : Args) k : a !! k = b !! k -> IsArgSet a k = IsArgSet b k.
Proof. unfold IsArgSet. by intros ->. Qed.

(** X11: parameter interaction and the pruning check of
    [AppInitParameterInteraction] agree: with [-prune] positive and neither
    [-txindex] nor [-disablegovernance] set by the user, the check passes
    after parameter interaction unless a block filter index is enabled;
    a [-txindex] the user has turned on is still refused, and so is a
    [-disablegovernance] the user has turned off. *)
Theorem pruning_check_after_interaction D C a ft :
  (0 < GetArg a "-prune" 0)%Z ->
  let a' := exec (InitParameterInteraction D) a in
  (a !! "-txindex" = None -> a !! "-disablegovernance" = None ->
   prune_compatibility C a' ft =
     if ft then None
     else Some "Prune mode is incompatible with -blockfilterindex.") /\
  (forall v, a !! "-txindex" = Some v -> InterpretBool v = true ->
   prune_compatibility C a' ft =
     Some "Prune mode is incompatible with -txindex.") /\
  (forall v, a !! "-disablegovernance" = Some v -> InterpretBool v = false ->
   is_Some (prune_compatibility C a' ft)).
Proof.
  intros Hp a'. subst a'.
  assert (P : GetArg (exec (InitParameterInteraction D) a) "-prune" 0
              = GetArg a "-prune" 0).
  { apply GetArg_reads, IPI_keeps. unfold interaction_targets. among. }
  unfold prune_compatibility. rewrite P.
  destruct (Z.eqb_spec (GetArg a "-prune" 0) 0) as [E | _]; [lia|]. cbn [negb].
  split; [|split].
  - intros Ht Hg.
    assert (T : exec (InitParameterInteraction D) a !! "-txindex" = Some "0").
    { apply (IPI_prune D a _ _ [("-disablegovernance", "1")] []);
        [reflexivity | cbn; among | among | done | done]. }
    assert (G : exec (InitParameterInteraction D) a !! "-disablegovernance"
                = Some "1").
    { apply (IPI_prune D a _ _ [] [("-txindex", "0")]);
        [reflexivity | apply not_elem_of_nil | among | done | done]. }
    unfold GetBoolArg. rewrite T, G. cbn. by destruct ft.
  - intros v Hv Hb. unfold GetBoolArg.
    rewrite (IPI_extends D a "-txindex" v) by done. by rewrite Hb.
  - intros v Hv Hb. unfold GetBoolArg.
    rewrite (IPI_extends D a "-disablegovernance" v) by done. rewrite Hb.
    cbn [negb]. destruct (exec _ a !! "-txindex") as [w|];
      [destruct (InterpretBool w) | destruct (DEFAULT_TXINDEX C)]; eauto.
Qed.

(** X12: once the pruning check has passed, the masternode check never
    gives its own message on pruning: a masternode that prunes is refused
    before, for not listening or for its transaction index being off. *)
Theorem pruned_masternode_rejected D C routable a ft :
  prune_compatibility C a ft = None ->
  masternode_requirements D C routable a
    <> Some "Masternode must have no pruning enabled, set -prune=0" /\
  (IsArgSet a "-masternodeblsprivkey" = true -> GetArg a "-prune" 0 <> 0%Z ->
   masternode_requirements D C routable a =
     Some (if negb (GetBoolArg a "-listen" (DEFAULT_LISTEN D)) && routable
           then "Masternode must accept connections from outside, set -listen=1"
           else "Masternode must have transaction index enabled, set -txindex=1")).
Proof.
  unfold prune_compatibility, masternode_requirements. intros Hc.
  destruct (IsArgSet a "-masternodeblsprivkey"); [|split; [discriminate | done]].
  destruct (negb (GetBoolArg a "-listen" (DEFAULT_LISTEN D)) && routable);
    [split; [discriminate | done]|].
  destruct (Z.eqb_spec (GetArg a "-prune" 0) 0) as [E | NE].
  - rewrite E. cbn [Z.ltb Z.compare].
    split; [|done].
    repeat match goal with |- context [if ?b then _ else _] =>
      destruct b; try discriminate end.
  - cbn [negb] in Hc.
    destruct (GetBoolArg a "-txindex" (DEFAULT_TXINDEX C)); [discriminate Hc|].
    cbn [negb]. split; [discriminate | done].
Qed.

(** X13: where a routable address is required, a masternode that is told to
    connect out or to use a proxy, without [-bind], [-whitebind] or
    [-listen], is refused after parameter interaction, which has turned
    listening off. *)
Theorem masternode_behind_proxy_rejected D C a :
  IsArgSet a "-masternodeblsprivkey" = true ->
  IsArgSet a "-connect" || IsArgSet a "-proxy" = true ->
  IsArgSet a "-bind" || IsArgSet a "-whitebind" = false ->
  a !! "-listen" = None ->
  masternode_requirements D C true (exec (InitParameterInteraction D) a) =
    Some "Masternode must accept connections from outside, set -listen=1".
Proof.
  intros Hm Hc Hb Hl. unfold masternode_requirements.
  rewrite (IsArgSet_reads _ a) by (apply IPI_keeps; unfold interaction_targets; among).
  rewrite Hm. unfold GetBoolArg at 1.
  rewrite IPI_listen, upto_proxy_listen by done. rewrite Hb, Hc. reflexivity.
Qed.

(* ================================================================= *)
(** ** Service bits and proxies *)

Section ServiceProofs.

Local Open Scope Z_scope.

Lemma testbit_pow2 i j : 0 <= i -> 0 <= j -> Z.testbit (2^i) j = bool_decide (i = j).
Proof.
  intros Hi Hj. case_bool_decide as E.
  - subst. by apply Z.pow2_bits_true.
  - apply Z.pow2_bits_false. lia.
Qed.

(** X14: when the flags are single bits, all different, the services a node
    announces fit 64 bits and hold: [NODE_NETWORK] unless the node prunes,
    [NODE_NETWORK_LIMITED] and [NODE_HEADERS_COMPRESSED] always,
    [NODE_BLOOM] exactly with [-peerbloomfilters], [NODE_COMPACT_FILTERS]
    exactly with [-peerblockfilters], which needs the basic filter index,
    and no other bit. *)
Theorem announced_services_bits B net bloom cf lim hc pbf n pbl prune s :
  bits_ok B net bloom cf lim hc ->
  announced_services B pbf n pbl prune = (None, s) ->
  0 <= s < 2^64 /\
  Z.testbit s net = negb prune /\
  Z.testbit s lim = true /\
  Z.testbit s hc = true /\
  Z.testbit s bloom = pbl /\
  Z.testbit s cf = pbf /\
  (pbf = true -> n = 1) /\
  (forall i, 0 <= i -> i ∉ [net; bloom; cf; lim; hc] -> Z.testbit s i = false).
Proof.
  intros (En & Eb & Ec & El & Eh & Hd & Hr) H.
  apply Forall_cons in Hr as [Rn Hr]. apply Forall_cons in Hr as [Rb Hr].
  apply Forall_cons in Hr as [Rc Hr]. apply Forall_cons in Hr as [Rl Hr].
  apply Forall_cons in Hr as [Rh _].
  apply NoDup_cons in Hd as [Dn Hd]. apply NoDup_cons in Hd as [Db Hd].
  apply NoDup_cons in Hd as [Dc Hd]. apply NoDup_cons in Hd as [Dl _].
  repeat match goal with
         | H : _ ∉ _ :: _ |- _ => apply not_elem_of_cons in H as [? H]
         end.
  unfold announced_services, signal_compact_filters, signal_bloom,
    unset_node_network, initial_services in H.
  rewrite En, Eb, Ec, El, Eh in H.
  assert (T : forall i, 0 <= i ->
    Z.testbit s i =
      (bool_decide (net = i) && negb prune) || bool_decide (lim = i)
      || bool_decide (hc = i) || (bool_decide (bloom = i) && pbl)
      || (bool_decide (cf = i) && pbf)).
  { intros i Hi.
    destruct pbf; [destruct (Z.eqb_spec n 1); [|discriminate H]|];
      cbn [negb fst snd] in H; injection H as <-;
      destruct pbl, prune;
      rewrite ?Z.land_spec, ?Z.lor_spec, ?Z.lnot_spec, ?Z.lor_spec by lia;
      rewrite !testbit_pow2 by lia;
      repeat case_bool_decide; subst; cbn; try reflexivity; lia. }
  assert (Hpbf : pbf = true -> n = 1).
  { intros ->. destruct (Z.eqb_spec n 1); [done | discriminate H]. }
  assert (Hhi : forall m, 64 <= m -> Z.testbit s m = false).
  { intros m Hm. rewrite T by lia.
    rewrite !bool_decide_eq_false_2 by lia. reflexivity. }
  assert (N : 0 <= s).
  { apply Z.bits_iff_nonneg_ex. exists 64. intros m Hm. apply Hhi. lia. }
  split; [|split; [|split; [|split; [|split; [|split; [|split]]]]]].
  - split; [exact N|].
    destruct (Z.eq_dec s 0) as [-> | Hs]; [done|].
    apply Z.log2_lt_pow2; [lia|].
    destruct (Z.lt_ge_cases (Z.log2 s) 64) as [?|Hge]; [done|].
    assert (X : Z.testbit s (Z.log2 s) = true) by (apply Z.bit_log2; lia).
    rewrite Hhi in X by lia. discriminate X.
  - rewrite T by lia. rewrite (bool_decide_eq_true_2 (net = net)) by done.
    rewrite !bool_decide_eq_false_2 by lia. by destruct prune, pbl, pbf.
  - rewrite T by lia. rewrite (bool_decide_eq_true_2 (lim = lim)) by done.
    rewrite !bool_decide_eq_false_2 by lia. by destruct prune, pbl, pbf.
  - rewrite T by lia. rewrite (bool_decide_eq_true_2 (hc = hc)) by done.
    rewrite !bool_decide_eq_false_2 by lia. by destruct prune, pbl, pbf.
  - rewrite T by lia. rewrite (bool_decide_eq_true_2 (bloom = bloom)) by done.
    rewrite !bool_decide_eq_false_2 by lia. by destruct prune, pbl, pbf.
  - rewrite T by lia. rewrite (bool_decide_eq_true_2 (cf = cf)) by done.
    rewrite !bool_decide_eq_false_2 by lia. by destruct prune, pbl, pbf.
  - exact Hpbf.
  - intros i Hi Hn.
    repeat match goal with
           | H : _ ∉ _ :: _ |- _ => apply not_elem_of_cons in H as [? H]
           end.
    rewrite T by lia. rewrite !bool_decide_eq_false_2 by congruence.
    reflexivity.
Qed.

End ServiceProofs.

(** X15: when the proxy set-up of lines 1807-1844 succeeds, the onion
    network is reachable exactly when [-onion] names an address, or is
    empty or absent while [-proxy] names one; the onion proxy is the
    address of [-onion] if it names one, else that of [-proxy] if it names
    one, else as before; and the other proxies are that of [-proxy] or as
    before. *)
Theorem onion_reachability Lookup a p p' :
  setup_proxies Lookup a p = (None, p') ->
  let proxy := GetArgStr a "-proxy" "" in
  let onion := GetArgStr a "-onion" "" in
  onion_reachable p' =
    (names_address a "-onion"
     || (String.eqb onion "" && names_address a "-proxy")) /\
  proxy_onion p' =
    (if names_address a "-onion" then Lookup onion
     else if names_address a "-proxy" then Lookup proxy
     else proxy_onion p) /\
  (if names_address a "-proxy" then
     is_Some (Lookup proxy) /\
     proxy_ipv4 p' = Lookup proxy /\ proxy_ipv6 p' = Lookup proxy /\
     name_proxy p' = Lookup proxy
   else
     proxy_ipv4 p' = proxy_ipv4 p /\ proxy_ipv6 p' = proxy_ipv6 p /\
     name_proxy p' = name_proxy p) /\
  (names_address a "-onion" = true -> is_Some (Lookup onion)).
Proof.
  intros H proxy onion. unfold setup_proxies, names_address in *.
  cbv zeta in H. fold proxy onion in H |- *.
  destruct (String.eqb proxy ""), (String.eqb proxy "0"),
    (String.eqb onion "") eqn:Eo, (String.eqb onion "0");
    cbn [negb andb orb fst snd] in H |- *;
    try (apply String.eqb_eq in Eo; rewrite Eo in * );
    repeat match type of H with
           | context [match Lookup ?x with _ => _ end] =>
               destruct (Lookup x) eqn:?; cbn [fst snd] in H
           end;
    try discriminate H; injection H as <-; cbn;
    repeat split; eauto; discriminate.
Qed.

(* ================================================================= *)
(** ** The clean-up of the blocks directory *)

Lemma map_assign_values k v m p :
  p ∈ (map_assign k v m).*2 -> p = v \/ p ∈ m.*2.
Proof.
  induction m as [|[k' v'] m IH]; cbn.
  - rewrite elem_of_cons. intros [-> | H]; [by left | by apply elem_of_nil in H].
  - destruct (String.compare k k'); cbn; rewrite !elem_of_cons; intros H.
    + destruct H as [-> | H]; [by left | right; by right].
    + destruct H as [-> | [-> | H]]; [by left | right; by left | right; by right].
    + destruct H as [-> | H]; [right; by left|].
      apply IH in H as [-> | H]; [by left | right; by right].
Qed.

Lemma remove_after_gap_values m : forall c p,
  p ∈ remove_after_gap m c -> p ∈ m.*2.
Proof.
  induction m as [|[k v] m IH]; intros c p; cbn; [done|].
  destruct (Z.eqb (atoi k) c); rewrite ?elem_of_cons; intros H.
  - right. by eapply IH.
  - destruct H as [-> | H]; [by left | right; by eapply IH].
Qed.

Lemma glob_block_files_spec dir : forall m,
  let r := glob_block_files dir m in
  (forall p, p ∈ r.1.*2 ->
     p ∈ m.*2 \/ exists it, it ∈ dir /\ filename it = p /\ names_like "blk" it = true) /\
  (forall p, p ∈ r.2 <->
     exists it, it ∈ dir /\ filename it = p /\ names_like "rev" it = true).
Proof.
  induction dir as [|it dir IH]; intros m; cbn [glob_block_files].
  - cbn. split; [by left|]. intros p. split.
    + intros H. by apply elem_of_nil in H.
    + intros (it & H & _). by apply elem_of_nil in H.
  - unfold names_like in *.
    destruct (is_regular_file it && Nat.eqb (String.length (filename it)) 12
              && String.eqb (substr (filename it) 8 4) ".dat") eqn:E.
    + destruct (String.eqb (substr (filename it) 0 3) "blk") eqn:Eb.
      * destruct (IH (map_assign (substr (filename it) 3 5) (filename it) m))
          as [IH1 IH2]. split.
        -- intros p Hp. apply IH1 in Hp as [Hp | (it' & Hi & Hn & Hl)].
           ++ apply map_assign_values in Hp as [-> | Hp]; [|by left].
              right. exists it. rewrite E, Eb. split; [by left | done].
           ++ right. exists it'. split; [by right | done].
        -- intros p. rewrite IH2. split.
           ++ intros (it' & Hi & Hn & Hl). exists it'. split; [by right | done].
           ++ intros (it' & Hi & Hn & Hl). apply elem_of_cons in Hi as [-> | Hi].
              ** apply String.eqb_eq in Eb. rewrite Eb in Hl.
                 rewrite E in Hl. discriminate Hl.
              ** by exists it'.
      * destruct (String.eqb (substr (filename it) 0 3) "rev") eqn:Er.
        -- destruct (IH m) as [IH1 IH2]. cbn [fst snd]. split.
           ++ intros p Hp. apply IH1 in Hp as [Hp | (it' & Hi & Hn & Hl)];
                [by left|]. right. exists it'. split; [by right | done].
           ++ intros p. rewrite elem_of_cons, IH2. split.
              ** intros [-> | (it' & Hi & Hn & Hl)].
                 --- exists it. rewrite E, Er. split; [by left | done].
                 --- exists it'. split; [by right | done].
              ** intros (it' & Hi & Hn & Hl).
                 apply elem_of_cons in Hi as [-> | Hi]; [by left|].
                 right. by exists it'.
        -- destruct (IH m) as [IH1 IH2]. split.
           ++ intros p Hp. apply IH1 in Hp as [Hp | (it' & Hi & Hn & Hl)];
                [by left|]. right. exists it'. split; [by right | done].
           ++ intros p. rewrite IH2. split.
              ** intros (it' & Hi & Hn & Hl). exists it'. split; [by right | done].
              ** intros (it' & Hi & Hn & Hl).
                 apply elem_of_cons in Hi as [-> | Hi]; [|by exists it'].
                 rewrite E, Er in Hl. discriminate Hl.
    + destruct (IH m) as [IH1 IH2]. split.
      * intros p Hp. apply IH1 in Hp as [Hp | (it' & Hi & Hn & Hl)];
          [by left|]. right. exists it'. split; [by right | done].
      * intros p. rewrite IH2. split.
        -- intros (it' & Hi & Hn & Hl). exists it'. split; [by right | done].
        -- intros (it' & Hi & Hn & Hl).
           apply elem_of_cons in Hi as [-> | Hi]; [|by exists it'].
           rewrite E in Hl. discriminate Hl.
Qed.

(** X16: [CleanupBlockRevFiles] removes nothing but regular files of the
    blocks directory named [blk?????.dat] or [rev?????.dat], and it removes
    every such undo file. *)
Theorem cleanup_removes_only_block_files dir :
  (forall p, p ∈ CleanupBlockRevFiles dir ->
     exists it, it ∈ dir /\ filename it = p /\
       (names_like "blk" it = true \/ names_like "rev" it = true)) /\
  (forall it, it ∈ dir -> names_like "rev" it = true ->
     filename it ∈ CleanupBlockRevFiles dir).
Proof.
  unfold CleanupBlockRevFiles. cbv zeta.
  destruct (glob_block_files_spec dir []) as [G1 G2]. split.
  - intros p Hp. apply elem_of_app in Hp as [Hp | Hp].
    + apply G2 in Hp as (it & Hi & Hn & Hl). exists it. auto.
    + apply remove_after_gap_values in Hp.
      apply G1 in Hp as [Hp | (it & Hi & Hn & Hl)];
        [by apply elem_of_nil in Hp|]. exists it. auto.
  - intros it Hi Hl. apply elem_of_app. left. apply G2. by exists it.
Qed.

Section ContiguousRun.

Local Open Scope Z_scope.

Lemma digit_of_spec c d :
  digit_of c = Some d -> 0 <= d <= 9 /\ d = Z.of_N (N_of_ascii c) - 48.
Proof.
  unfold digit_of. cbv zeta.
  replace (Z.of_nat (nat_of_ascii c)) with (Z.of_N (N_of_ascii c))
    by (unfold nat_of_ascii; by rewrite N_nat_Z).
  destruct (_ && _) eqn:E; [|discriminate]. intros [= <-].
  apply andb_true_iff in E as [E1 E2]. lia.
Qed.

Lemma digits_value_acc s : all_digits s = true -> forall acc,
  digits_value s acc = acc * 10 ^ Z.of_nat (String.length s) + digits_value s 0 /\
  0 <= digits_value s 0 < 10 ^ Z.of_nat (String.length s).
Proof.
  induction s as [|c r IH]; intros Hd acc.
  - cbn. lia.
  - cbn [all_digits] in Hd. apply andb_true_iff in Hd as [Hc Hr].
    apply bool_decide_eq_true in Hc as [d Hc].
    cbn [digits_value String.length]. rewrite Hc.
    destruct (digit_of_spec _ _ Hc) as [Hd _].
    destruct (IH Hr (10 * acc + d)) as [E1 B]. destruct (IH Hr (10 * 0 + d)) as [E2 _].
    rewrite E1, E2. rewrite Nat2Z.inj_succ, Z.pow_succ_r by lia. nia.
Qed.

Lemma compare_digits s : forall t,
  all_digits s = true -> all_digits t = true -> String.length s = String.length t ->
  String.compare s t = Z.compare (digits_value s 0) (digits_value t 0).
Proof.
  induction s as [|c r IH]; intros [|c' r'] Hs Ht Hl; try discriminate Hl.
  - reflexivity.
  - cbn [all_digits] in Hs, Ht.
    apply andb_true_iff in Hs as [Hc Hr]. apply andb_true_iff in Ht as [Hc' Hr'].
    apply bool_decide_eq_true in Hc as [d Hc].
    apply bool_decide_eq_true in Hc' as [d' Hc'].
    injection Hl as Hl.
    cbn [String.compare digits_value]. rewrite Hc, Hc'.
    destruct (digit_of_spec _ _ Hc) as [B ->].
    destruct (digit_of_spec _ _ Hc') as [B' ->].
    unfold Ascii.compare. rewrite <- (N2Z.inj_compare (N_of_ascii c) (N_of_ascii c')).
    set (x := Z.of_N (N_of_ascii c)) in *. set (x' := Z.of_N (N_of_ascii c')) in *.
    destruct (digits_value_acc r Hr (10 * 0 + (x - 48))) as [-> Br].
    destruct (digits_value_acc r' Hr' (10 * 0 + (x' - 48))) as [-> Br'].
    rewrite <- Hl in *. specialize (IH r' Hr Hr' Hl).
    set (p := 10 ^ Z.of_nat (String.length r)) in *.
    destruct (Z.compare_spec x x') as [E | L | G].
    + rewrite IH, E. symmetry.
      destruct (Z.compare_spec (digits_value r 0) (digits_value r' 0));
        [apply Z.compare_eq_iff | apply Z.compare_lt_iff | apply Z.compare_gt_iff]; lia.
    + symmetry. apply Z.compare_lt_iff. nia.
    + symmetry. apply Z.compare_gt_iff. nia.
Qed.

Lemma atoi_digits k :
  String.length k = 5%nat -> all_digits k = true ->
  atoi k = digits_value k 0 /\ 0 <= digits_value k 0 < 100000.
Proof.
  intros Hl Hd. destruct (digits_value_acc k Hd 0) as [_ B].
  rewrite Hl in B. change (10 ^ Z.of_nat 5) with 100000 in B. split; [|done].
  unfold atoi, strtoll. cbv zeta.
  destruct k as [|c r]; [discriminate Hl|].
  cbn [all_digits] in Hd. apply andb_true_iff in Hd as [Hc _].
  apply bool_decide_eq_true in Hc as [d Hc].
  assert (skip_spaces (String c r) = String c r /\ c <> "-"%char /\ c <> "+"%char)
    as (-> & Hm & Hp).
  { destruct (digit_of_spec _ _ Hc) as [Bd Ed].
    assert (48 <= Z.of_N (N_of_ascii c) <= 57) as Bc by lia.
    cbn [skip_spaces]. unfold is_space. cbv zeta.
    replace (Z.of_nat (nat_of_ascii c)) with (Z.of_N (N_of_ascii c))
      by (unfold nat_of_ascii; by rewrite N_nat_Z).
    replace (_ || _) with false.
    2:{ symmetry. apply orb_false_iff. split; [lia|].
        apply andb_false_iff. right. lia. }
    repeat split; intros ->; vm_compute in Bc; destruct Bc as [Bc1 Bc2];
      first [by apply Bc1 | by apply Bc2]. }
  assert ((match String c r with
     | String "-"%char r0 => - digits_value r0 0
     | String "+"%char r0 => digits_value r0 0
     | r0 => digits_value r0 0
     end) = digits_value (String c r) 0) as ->.
  { destruct c as [[] [] [] [] [] [] [] []]; try reflexivity; congruence. }
  unfold wrap32. rewrite Z.min_r, Z.max_r by lia.
  rewrite Z.mod_small by lia. lia.
Qed.

Lemma map_assign_elem k v m kp :
  kp ∈ map_assign k v m -> kp = (k, v) \/ kp ∈ m.
Proof.
  induction m as [|[k' v'] m IH]; cbn.
  - rewrite elem_of_cons. intros [-> | H]; [by left | by apply elem_of_nil in H].
  - destruct (String.compare k k'); rewrite !elem_of_cons; intros H.
    + destruct H as [-> | H]; [by left | right; by right].
    + destruct H as [-> | [-> | H]]; [by left | right; by left | right; by right].
    + destruct H as [-> | H]; [right; by left|].
      apply IH in H as [-> | H]; [by left | right; by right].
Qed.

Lemma map_assign_keys k v m k' :
  k' ∈ (map_assign k v m).*1 <-> k' = k \/ k' ∈ m.*1.
Proof.
  induction m as [|[k0 v0] m IH]; cbn.
  - rewrite elem_of_cons, elem_of_nil. tauto.
  - destruct (String.compare k k0) eqn:E; cbn; rewrite !elem_of_cons.
    + apply String.compare_eq_iff in E as ->. tauto.
    + tauto.
    + rewrite IH. tauto.
Qed.

Lemma map_assign_in_order k v m :
  named_after_key (k, v) -> in_order m -> in_order (map_assign k v m).
Proof.
  intros Hk [Hs Hn]. split.
  2:{ apply Forall_forall. intros kp Hkp.
      apply map_assign_elem in Hkp as [-> | Hkp]; [done|].
      by eapply Forall_forall in Hn. }
  induction m as [|[k' v'] m IH]; cbn.
  - repeat constructor.
  - destruct Hs as [Hh Hs].
    apply Forall_cons in Hn as [Hk' Hn].
    destruct Hk as (Hl & Hd & _). destruct Hk' as (Hl' & Hd' & _). cbn in *.
    rewrite (compare_digits k k') by congruence.
    destruct (Z.compare_spec (digits_value k 0) (digits_value k' 0)) as [E | L | G].
    + split; [|done]. cbn. by rewrite E.
    + split; [|by split]. constructor; [done|].
      eapply Forall_impl; [exact Hh|]. cbn. intros x Hx. lia.
    + split; [|by apply IH].
      apply Forall_forall. intros kp Hkp.
      apply map_assign_elem in Hkp as [-> | Hkp]; [cbn; lia|].
      by eapply Forall_forall in Hh.
Qed.

Lemma blk_name it :
  names_like "blk" it = true ->
  String.length (block_file_key it) = 5%nat /\
  filename it = ("blk" +:+ block_file_key it +:+ ".dat")%string.
Proof.
  unfold names_like, block_file_key, substr.
  intros H. apply andb_true_iff in H as [H Hb]. apply andb_true_iff in H as [H Hd].
  apply andb_true_iff in H as [_ Hl].
  apply Nat.eqb_eq in Hl. apply String.eqb_eq in Hb, Hd.
  destruct (filename it) as [|c0 [|c1 [|c2 [|c3 [|c4 [|c5 [|c6 [|c7 [|c8
    [|c9 [|c10 [|c11 [|c12 s]]]]]]]]]]]]]; try discriminate Hl.
  cbn in Hb, Hd |- *. injection Hb as -> -> ->. injection Hd as -> -> -> ->.
  done.
Qed.

Lemma glob_block_files_in_order dir : forall m,
  (forall it, it ∈ dir -> names_like "blk" it = true ->
     all_digits (block_file_key it) = true) ->
  in_order m ->
  in_order (glob_block_files dir m).1 /\
  (forall k, k ∈ (glob_block_files dir m).1.*1 <->
     k ∈ m.*1 \/ exists it, it ∈ dir /\ names_like "blk" it = true /\
                            block_file_key it = k).
Proof.
  induction dir as [|it dir IH]; intros m Hdir Hm; cbn [glob_block_files].
  - split; [done|]. intros k. cbn. split; [by left|].
    intros [H | (it & H & _)]; [done | by apply elem_of_nil in H].
  - assert (forall it', it' ∈ dir -> names_like "blk" it' = true ->
       all_digits (block_file_key it') = true) as Hdir'
      by (intros it' Hi; apply Hdir; by right).
    assert (forall k (m' : list (string * string)), (k ∈ m'.*1 \/ exists it', it' ∈ dir /\
              names_like "blk" it' = true /\ block_file_key it' = k) ->
            names_like "blk" it = false ->
            (k ∈ m'.*1 \/ exists it', it' ∈ it :: dir /\
              names_like "blk" it' = true /\ block_file_key it' = k)) as Hfwd.
    { intros k m' [H | (it' & Hi & Hb & Hk)] _; [by left|].
      right. exists it'. split; [by right | done]. }
    assert (forall k (m' : list (string * string)), (k ∈ m'.*1 \/ exists it', it' ∈ it :: dir /\
              names_like "blk" it' = true /\ block_file_key it' = k) ->
            names_like "blk" it = false ->
            (k ∈ m'.*1 \/ exists it', it' ∈ dir /\
              names_like "blk" it' = true /\ block_file_key it' = k)) as Hbwd.
    { intros k m' [H | (it' & Hi & Hb & Hk)] Hn; [by left|].
      apply elem_of_cons in Hi as [-> | Hi]; [congruence|].
      right. by exists it'. }
    assert (forall m', in_order m' -> names_like "blk" it = false ->
      in_order (glob_block_files dir m').1 /\
      (forall k, k ∈ (glob_block_files dir m').1.*1 <->
         k ∈ m'.*1 \/ exists it', it' ∈ it :: dir /\ names_like "blk" it' = true /\
                            block_file_key it' = k)) as Hskip.
    { intros m' Hm' Hn. destruct (IH m' Hdir' Hm') as [I1 I2]. split; [done|].
      intros k. rewrite I2. split; intros H; [by apply Hfwd | by apply Hbwd]. }
    pose proof (eq_refl (names_like "blk" it)) as Hnl. unfold names_like at 1 in Hnl.
    destruct (is_regular_file it && Nat.eqb (String.length (filename it)) 12
              && String.eqb (substr (filename it) 8 4) ".dat") eqn:E.
    + destruct (String.eqb (substr (filename it) 0 3) "blk") eqn:Eb.
      * cbn in Hnl. symmetry in Hnl.
        destruct (blk_name it Hnl) as [Hl Hname].
        assert (named_after_key (block_file_key it, filename it)) as Hk.
        { repeat split; cbn; [done | apply Hdir; [by left | done] | done]. }
        destruct (IH _ Hdir' (map_assign_in_order _ _ _ Hk Hm)) as [I1 I2].
        split; [exact I1|]. intros k. rewrite I2.
        fold (block_file_key it). rewrite map_assign_keys. split.
        -- intros [[-> | H] | (it' & Hi & Hb & Hk')].
           ++ right. exists it. split; [by left | done].
           ++ by left.
           ++ right. exists it'. split; [by right | done].
        -- intros [H | (it' & Hi & Hb & Hk')]; [left; by right|].
           apply elem_of_cons in Hi as [-> | Hi]; [left; by left|].
           right. by exists it'.
      * cbn in Hnl. symmetry in Hnl.
        destruct (String.eqb (substr (filename it) 0 3) "rev"); cbn [fst];
          by apply Hskip.
    + cbn in Hnl. symmetry in Hnl. by apply Hskip.
Qed.

Lemma remove_after_gap_spec m : forall c p,
  in_order m -> 0 <= c ->
  Forall (fun kp => c <= digits_value kp.1 0) m ->
  (p ∈ remove_after_gap m c <->
   exists k, (k, p) ∈ m /\
     exists j, c <= j < digits_value k 0 /\
       forall kp, kp ∈ m -> digits_value kp.1 0 <> j).
Proof.
  induction m as [|[k v] m IH]; intros c p [Hs Hn] Hc Hlow; cbn [remove_after_gap].
  - split; [intros H | intros (k & H & _)]; by apply elem_of_nil in H.
  - destruct Hs as [Hh Hs].
    apply Forall_cons in Hn as [Hk Hn]. apply Forall_cons in Hlow as [Hck Hlow].
    cbn in Hck. destruct Hk as (Hl & Hd & _). cbn in Hl, Hd.
    destruct (atoi_digits k Hl Hd) as [-> Bk].
    assert (Forall (fun kp => digits_value k 0 < digits_value kp.1 0) m) as Hh'
      by exact Hh.
    destruct (Z.eqb_spec (digits_value k 0) c) as [E | NE].
    + assert (wrap32 (c + 1) = c + 1) as ->.
      { unfold wrap32. rewrite Z.mod_small by lia. lia. }
      rewrite IH; [| by split | lia |
        eapply Forall_impl; [exact Hh'|]; cbn; intros; lia].
      split.
      * intros (k' & Hin & j & Hj & Hno). exists k'. split; [by right|].
        exists j. split; [lia|]. intros kp Hkp.
        apply elem_of_cons in Hkp as [-> | Hkp]; [cbn; lia | by apply Hno].
      * intros (k' & Hin & j & Hj & Hno).
        apply elem_of_cons in Hin as [[= -> ->] | Hin]; [lia|].
        exists k'. split; [done|]. exists j. split.
        -- assert (j <> c) by (specialize (Hno (k, v)); cbn in Hno;
             intros ->; apply Hno; [by left | done]). lia.
        -- intros kp Hkp. apply Hno. by right.
    + rewrite elem_of_cons. rewrite IH; [| by split | lia | done].
      assert (forall kp, kp ∈ (k, v) :: m -> digits_value kp.1 0 <> c) as Hnoc.
      { intros kp Hkp. apply elem_of_cons in Hkp as [-> | Hkp]; [cbn; lia|].
        eapply Forall_forall in Hh'; [|exact Hkp]. cbn in Hh'. lia. }
      split.
      * intros [-> | (k' & Hin & j & Hj & Hno)].
        -- exists k. split; [by left|]. exists c. split; [lia | done].
        -- exists k'. split; [by right|]. exists c. split; [|done].
           eapply Forall_forall in Hh'; [|exact Hin]. cbn in Hh'. lia.
      * intros (k' & Hin & j & Hj & Hno).
        apply elem_of_cons in Hin as [[= -> ->] | Hin]; [by left|].
        right. exists k'. split; [done|]. exists c. split.
        -- eapply Forall_forall in Hh'; [|exact Hin]. cbn in Hh'. lia.
        -- intros kp Hkp. apply Hnoc. by right.
Qed.

End ContiguousRun.

(** X17: in a blocks directory whose block files are numbered by five
    digits, [CleanupBlockRevFiles] removes a block file exactly when the
    block file of some lower number is missing: the run of block files
    that starts at 0 stays, everything after the first gap goes. *)
Theorem cleanup_keeps_contiguous_run dir :
  (forall it, it ∈ dir -> names_like "blk" it = true ->
     all_digits (block_file_key it) = true) ->
  forall it, it ∈ dir -> names_like "blk" it = true ->
    (filename it ∈ CleanupBlockRevFiles dir <->
     exists j, (0 <= j < atoi (block_file_key it))%Z /\
       forall it', it' ∈ dir -> names_like "blk" it' = true ->
         atoi (block_file_key it') <> j).
Proof.
  intros Hdir it Hit Hblk. unfold CleanupBlockRevFiles. cbv zeta.
  assert (in_order []) as H0 by (split; [exact I | constructor]).
  destruct (glob_block_files_in_order dir [] Hdir H0) as [Hord Hkeys].
  destruct (glob_block_files_spec dir []) as [_ Hrev].
  destruct Hord as [Hs Hn].
  assert (forall kp, kp ∈ (glob_block_files dir []).1 ->
            atoi kp.1 = digits_value kp.1 0 /\ (0 <= digits_value kp.1 0)%Z /\
            exists it', it' ∈ dir /\ names_like "blk" it' = true /\
                        block_file_key it' = kp.1 /\ filename it' = kp.2) as Hmap.
  { intros kp Hkp. pose proof Hkp as Hkp'.
    eapply Forall_forall in Hkp'; [|exact Hn].
    destruct Hkp' as (Hl & Hd & Hsub & Hname).
    destruct (atoi_digits _ Hl Hd) as [-> B]. split; [done|]. split; [lia|].
    assert (kp.1 ∈ (glob_block_files dir []).1.*1) as Hin
      by (apply list_elem_of_fmap; by exists kp).
    apply Hkeys in Hin as [Hin | (it' & Hi & Hb & Hk)]; [by apply elem_of_nil in Hin|].
    exists it'. repeat split; try done.
    destruct (blk_name it' Hb) as [_ ->]. by rewrite Hk, Hname. }
  assert (forall it', it' ∈ dir -> names_like "blk" it' = true ->
            (block_file_key it', filename it') ∈ (glob_block_files dir []).1) as Hall.
  { intros it' Hi Hb.
    assert (block_file_key it' ∈ (glob_block_files dir []).1.*1) as Hin
      by (apply Hkeys; right; by exists it').
    apply list_elem_of_fmap in Hin as ([k p] & Hk & Hin). cbn in Hk. subst k.
    eapply Forall_forall in Hn as (_ & _ & _ & Hname); [|exact Hin]. cbn in Hname.
    destruct (blk_name it' Hb) as [_ ->]. by rewrite <- Hname. }
  rewrite elem_of_app.
  rewrite (remove_after_gap_spec _ 0 (filename it)); [| by split | lia |].
  2:{ apply Forall_forall. intros kp Hkp. by apply Hmap in Hkp as (_ & ? & _). }
  split.
  - intros [Hr | (k & Hin & j & Hj & Hno)].
    + apply Hrev in Hr as (it' & _ & Hf & Hl).
      unfold names_like in Hl, Hblk. rewrite Hf in Hl.
      apply andb_true_iff in Hl as [_ Hl]. apply andb_true_iff in Hblk as [_ Hb].
      apply String.eqb_eq in Hl, Hb. rewrite Hl in Hb. discriminate Hb.
    + pose proof (proj1 (Forall_forall _ _) Hn _ Hin) as (_ & _ & Hsub & _).
      change (k = block_file_key it) in Hsub. subst k.
      destruct (Hmap _ Hin) as (Ha & _). cbn [fst] in Ha.
      exists j. split; [by rewrite Ha|]. intros it' Hi Hb.
      specialize (Hall it' Hi Hb). destruct (Hmap _ Hall) as (Ha' & _).
      cbn [fst] in Ha'. rewrite Ha'. by apply (Hno _ Hall).
  - intros (j & Hj & Hno). right. exists (block_file_key it).
    specialize (Hall it Hit Hblk). split; [done|].
    destruct (Hmap _ Hall) as (Ha & _). cbn [fst] in Ha.
    exists j. split; [by rewrite <- Ha|]. intros kp Hkp.
    destruct (Hmap _ Hkp) as (Ha' & _ & it' & Hi & Hb & Hk & _).
    rewrite <- Ha', <- Hk. by apply Hno.
Qed.

(* ================================================================= *)
(** ** The parameter interaction of the wallet *)

Section WalletProofs.

Variable ForceRemoveArg : string -> Args -> Args.

Variable wallets : list string.

Variable is_directory : string -> bool.

Variable IsHex : string -> bool.

Variable D : Defaults.

Variable W : WalletDefaults.

Local Abbreviation WPI :=
  (WalletInit_ParameterInteraction ForceRemoveArg wallets is_directory IsHex D W).

Lemma result_gets_id (a : Args) : result (gets (E := string) id) a = a.
Proof. reflexivity. Qed.

Lemma exec_gets_id (a : Args) : exec (gets (E := string) id) a = a.
Proof. reflexivity. Qed.

Lemma exec_when_soft_set (b : bool) k v msg (a : Args) :
  exec (when b (soft_set k v msg)) a = if b then soft a (k, bool_arg v) else a.
Proof. destruct b; [apply exec_soft_set | reflexivity]. Qed.

Lemma if_soft_other (b : bool) (a : Args) k v k' :
  k <> k' -> (if b then soft a (k, v) else a) !! k' = a !! k'.
Proof. intros Hk. destruct b; [by apply soft_other | done]. Qed.

Lemma result_if {A} (b : bool) (c1 c2 : M Args string A) a :
  result (if b then c1 else c2) a = if b then result c1 a else result c2 a.
Proof. by destruct b. Qed.

Lemma exec_if {A} (b : bool) (c1 c2 : M Args string A) a :
  exec (if b then c1 else c2) a = if b then exec c1 a else exec c2 a.
Proof. by destruct b. Qed.

Lemma exec_when_warn2 (b : bool) e1 e2 (f : Args -> Args) (a : Args) :
  exec (when b (bind (emit e1) (fun _ => bind (emit (E := string) e2)
                                  (fun _ => modify f)))) a
  = if b then f a else a.
Proof. by destruct b. Qed.

Lemma exec_when_warn1 (b : bool) e1 (f : Args -> Args) (a : Args) :
  exec (when b (bind (emit (E := string) e1) (fun _ => modify f))) a
  = if b then f a else a.
Proof. by destruct b. Qed.

Lemma exec_when_warn_two (b : bool) e1 (f g : Args -> Args) (a : Args) :
  exec (when b (bind (emit (E := string) e1)
                  (fun _ => bind (modify f) (fun _ => modify g)))) a
  = if b then g (f a) else a.
Proof. by destruct b. Qed.

Lemma GetArgStr_reads (a b : Args) k d :
  a !! k = b !! k -> GetArgStr a k d = GetArgStr b k d.
Proof. unfold GetArgStr. by intros ->. Qed.

Lemma WPI_success_run a :
  GetBoolArg a "-disablewallet" (DEFAULT_DISABLE_WALLET W) = false ->
  result WPI a = None ->
  let a4 := wallet_rescan_fixed ForceRemoveArg D a in
  exec WPI a = wallet_final ForceRemoveArg is_directory IsHex D a /\
  IsArgSet a "-masternodeblsprivkey" = false /\
  (GetBoolArg a "-zapwallettxes" false = true -> Nat.ltb 1 (length wallets) = false) /\
  (Nat.ltb 1 (length wallets) = true -> GetBoolArg a4 "-upgradewallet" false = false) /\
  GetBoolArg a4 "-sysperms" false = false /\
  (GetArg a4 "-prune" 0 = 0%Z \/ GetBoolArg a4 "-rescan" false = false) /\
  (GetArg (wallet_final ForceRemoveArg is_directory IsHex D a) "-coinjoindenomsgoal" (DEFAULT_COINJOIN_DENOMS_GOAL W)
   <= GetArg (wallet_final ForceRemoveArg is_directory IsHex D a) "-coinjoindenomshardcap"
        (DEFAULT_COINJOIN_DENOMS_HARDCAP W))%Z.
Proof.
  intros Hw. unfold WalletInit_ParameterInteraction.
  rewrite result_bind, exec_bind, result_gets_id, exec_gets_id. rewrite Hw.
  destruct (IsArgSet a "-masternodeblsprivkey"); [discriminate|]. cbv zeta.
  rewrite result_bind, exec_bind, exec_when_soft_set. cbv beta.
  unfold wallet_final, wallet_rescan_fixed, wallet_soft_sets. cbv zeta.
  set (a1 := if GetBoolArg a "-blocksonly" (DEFAULT_BLOCKSONLY D) then _ else a).
  rewrite result_bind, exec_bind, result_gets_id, exec_gets_id. cbv beta.
  rewrite result_bind, exec_bind, exec_when_soft_set. cbv beta. cbn [bool_arg].
  set (a2 := if GetBoolArg a1 "-zapwallettxes" false then _ else a1).
  rewrite result_if, exec_if.
  assert (Z1 : GetBoolArg a1 "-zapwallettxes" false = GetBoolArg a "-zapwallettxes" false).
  { apply GetBoolArg_reads. by apply if_soft_other. }
  destruct (GetBoolArg a1 "-zapwallettxes" false && Nat.ltb 1 (length wallets)) eqn:Ez;
    [discriminate|].
  rewrite result_bind, exec_bind, exec_when_soft_set. cbv beta. cbn [bool_arg].
  set (a3 := if GetBoolArg a1 "-zapwallettxes" false then soft a2 _ else a2).
  rewrite result_bind, exec_bind, result_gets_id, exec_gets_id. cbv beta.
  rewrite result_bind, exec_bind, exec_when_warn2. cbv beta.
  fold (bad_rescan_mode a3).
  set (a4 := if bad_rescan_mode a3 then _ else a3).
  rewrite result_bind, exec_bind, result_gets_id, exec_gets_id. cbv beta.
  rewrite !result_if, !exec_if.
  destruct (Nat.ltb 1 (length wallets) && GetBoolArg a4 "-upgradewallet" false) eqn:Eu;
    [discriminate|].
  destruct (GetBoolArg a4 "-sysperms" false) eqn:Es; [discriminate|].
  destruct (negb (Z.eqb (GetArg a4 "-prune" 0) 0) && GetBoolArg a4 "-rescan" false) eqn:Ep;
    [discriminate|].
  rewrite result_bind, exec_bind, exec_when_warn1. cbv beta.
  fold (bad_backups_dir is_directory a4).
  set (a5 := if bad_backups_dir is_directory a4 then _ else a4).
  rewrite result_bind, exec_bind, result_gets_id, exec_gets_id. cbv beta.
  rewrite result_bind, exec_bind, exec_when_warn_two. cbv beta.
  fold (seed_and_mnemonic IsHex a5).
  set (a6 := if seed_and_mnemonic IsHex a5 then _ else a5).
  rewrite result_bind, exec_bind, result_gets_id, exec_gets_id. cbv beta.
  rewrite result_if, exec_if.
  destruct (Z.ltb_spec
    (GetArg a6 "-coinjoindenomshardcap" (DEFAULT_COINJOIN_DENOMS_HARDCAP W))
    (GetArg a6 "-coinjoindenomsgoal" (DEFAULT_COINJOIN_DENOMS_GOAL W))) as [L | G];
    [discriminate|].
  intros _. split; [reflexivity|]. split; [reflexivity|].
  split.
  { intros Hz. rewrite Z1, Hz in Ez. exact Ez. }
  split.
  { intros Hmw. by rewrite Hmw in Eu. }
  split; [reflexivity|]. split; [|exact G].
  apply andb_false_iff in Ep as [Ep | Ep]; [left | by right].
  apply negb_false_iff in Ep. by apply Z.eqb_eq.
Qed.

(** X19: where [ForceRemoveArg] removes what it names and nothing else, a
    run of [WalletInit::ParameterInteraction] that succeeds with the wallet
    enabled leaves a store in which the rescan mode, as an [int], is 0, 1
    or 2, not both pruning and rescan are on, [-sysperms] is off, a backups
    directory that is set exists, a hexadecimal [-hdseed] stands without
    [-mnemonic] and [-mnemonicpassphrase], and the denominations goal does
    not exceed the hard cap; and no masternode key was given. *)
Theorem wallet_interaction_success a :
  removes ForceRemoveArg ->
  GetBoolArg a "-disablewallet" (DEFAULT_DISABLE_WALLET W) = false ->
  result WPI a = None ->
  let a' := exec WPI a in
  IsArgSet a "-masternodeblsprivkey" = false /\
  (0 <= wrap32 (GetArg a' "-rescan" 0) <= 2)%Z /\
  (GetArg a' "-prune" 0 = 0%Z \/ GetBoolArg a' "-rescan" false = false) /\
  GetBoolArg a' "-sysperms" false = false /\
  (IsArgSet a' "-walletbackupsdir" = true ->
     is_directory (GetArgStr a' "-walletbackupsdir" "") = true) /\
  (IsArgSet a' "-hdseed" = true -> IsHex (GetArgStr a' "-hdseed" "not hex") = true ->
     a' !! "-mnemonic" = None /\ a' !! "-mnemonicpassphrase" = None) /\
  (GetArg a' "-coinjoindenomsgoal" (DEFAULT_COINJOIN_DENOMS_GOAL W)
   <= GetArg a' "-coinjoindenomshardcap" (DEFAULT_COINJOIN_DENOMS_HARDCAP W))%Z.
Proof.
  intros Hrm Hw Hres.
  destruct (WPI_success_run a Hw Hres) as (-> & Hm & _ & _ & Hs & Hp & Hc).
  cbv zeta. split; [exact Hm|].
  unfold wallet_final in *. cbv zeta in *.
  set (a4 := wallet_rescan_fixed ForceRemoveArg D a) in *.
  set (a5 := if bad_backups_dir is_directory a4 then _ else a4) in *.
  set (a6 := if seed_and_mnemonic IsHex a5 then _ else a5) in *.
  assert (F5 : forall k, k <> "-walletbackupsdir" -> a5 !! k = a4 !! k).
  { intros k Hk. subst a5. destruct (bad_backups_dir is_directory a4); [|done].
    by apply Hrm. }
  assert (F6 : forall k, k <> "-mnemonic" -> k <> "-mnemonicpassphrase" ->
                         a6 !! k = a5 !! k).
  { intros k Hk1 Hk2. subst a6. destruct (seed_and_mnemonic IsHex a5); [|done].
    rewrite (proj2 (Hrm _ _)) by done. by apply Hrm. }
  assert (R4 : (0 <= wrap32 (GetArg a4 "-rescan" 0) <= 2)%Z).
  { subst a4. unfold wallet_rescan_fixed. cbv zeta.
    destruct (bad_rescan_mode (wallet_soft_sets D a)) eqn:Eb.
    - unfold GetArg. rewrite (proj1 (Hrm _ _)). vm_compute. split; discriminate.
    - unfold bad_rescan_mode in Eb. apply orb_false_iff in Eb as [E1 E2].
      apply Z.ltb_ge in E1, E2. lia. }
  split.
  { rewrite (GetArg_reads a6 a4 "-rescan"); [exact R4|].
    rewrite F6, F5; done. }
  split.
  { rewrite (GetArg_reads a6 a4 "-prune") by (rewrite F6, F5; done).
    rewrite (GetBoolArg_reads a6 a4 "-rescan") by (rewrite F6, F5; done).
    exact Hp. }
  split.
  { rewrite (GetBoolArg_reads a6 a4 "-sysperms") by (rewrite F6, F5; done).
    exact Hs. }
  split.
  { rewrite (IsArgSet_reads a6 a5 "-walletbackupsdir") by (rewrite F6; done).
    rewrite (GetArgStr_reads a6 a5 "-walletbackupsdir") by (rewrite F6; done).
    subst a5. destruct (bad_backups_dir is_directory a4) eqn:Eb.
    - unfold IsArgSet. rewrite (proj1 (Hrm _ _)).
      rewrite bool_decide_eq_false_2 by (intros [? ?]; discriminate). discriminate.
    - intros Hset. unfold bad_backups_dir in Eb. rewrite Hset in Eb.
      cbn [andb] in Eb. by apply negb_false_iff in Eb. }
  split; [|exact Hc].
  rewrite (IsArgSet_reads a6 a5 "-hdseed") by (rewrite F6; done).
  rewrite (GetArgStr_reads a6 a5 "-hdseed") by (rewrite F6; done).
  intros Hh Hx. subst a6. destruct (seed_and_mnemonic IsHex a5) eqn:Es.
  - split; [|by apply Hrm].
    rewrite (proj2 (Hrm _ _)) by done. by apply Hrm.
  - unfold seed_and_mnemonic in Es. rewrite Hh, Hx in Es. cbn [andb] in Es.
    apply orb_false_iff in Es as [E1 E2]. unfold IsArgSet in E1, E2.
    apply bool_decide_eq_false in E1, E2.
    split; [destruct (a5 !! "-mnemonic") | destruct (a5 !! "-mnemonicpassphrase")];
      try done; exfalso; eauto.
Qed.

#[local] Instance same_outside_preorder l : PreOrder (same_outside l).
Proof.
  split.
  - by intros a k _.
  - intros a b c H1 H2 k Hk. by rewrite H2, H1.
Qed.

Lemma keeps_soft_set l k v msg :
  k ∈ l -> keeps (same_outside l) (fun _ : string => true) (soft_set k v msg).
Proof.
  intros Hk a. split.
  - rewrite exec_soft_set. intros k' Hk'. apply soft_other. cbn. by intros ->.
  - by apply forallb_forall.
Qed.

Lemma keeps_remove l k :
  removes ForceRemoveArg -> k ∈ l ->
  keeps (same_outside l) (fun _ : string => true) (modify (ForceRemoveArg k)).
Proof.
  intros Hrm Hk. apply keeps_modify; [tc_solve..|].
  intros a k' Hk'. apply Hrm. by intros ->.
Qed.

Ltac in_targets := unfold wallet_targets; rewrite !elem_of_cons; tauto.

(** X20: where [ForceRemoveArg] removes what it names and nothing else,
    [WalletInit::ParameterInteraction] changes no option but the six of
    [wallet_targets], whether it succeeds or not. *)
Theorem wallet_interaction_frame a k :
  removes ForceRemoveArg ->
  k ∉ wallet_targets ->
  exec WPI a !! k = a !! k.
Proof.
  intros Hrm Hk.
  assert (K : keeps (same_outside wallet_targets) (fun _ : string => true) WPI).
  { unfold WalletInit_ParameterInteraction. cbv zeta.
    repeat first
      [ apply keeps_soft_set; in_targets
      | apply keeps_remove; [exact Hrm | in_targets]
      | keeps_step ].
    intros s. split; [reflexivity | by apply forallb_forall]. }
  destruct (K a) as [K1 _]. by apply K1.
Qed.

(** X18: with the wallet enabled, no masternode key and [-rescan] not set,
    [-zapwallettxes] on a pruning node is refused: for several wallets, for
    [-sysperms], or else because rescans are not possible in pruned mode,
    the rescan being the one the option has itself asked for. *)
Theorem zapwallettxes_refused_when_pruning a :
  GetBoolArg a "-disablewallet" (DEFAULT_DISABLE_WALLET W) = false ->
  IsArgSet a "-masternodeblsprivkey" = false ->
  GetBoolArg a "-zapwallettxes" false = true ->
  GetArg a "-prune" 0 <> 0%Z ->
  a !! "-rescan" = None ->
  result WPI a =
    Some (if Nat.ltb 1 (length wallets)
          then "%s is only allowed with a single wallet file"
          else if GetBoolArg a "-sysperms" false
          then "-sysperms is not allowed in combination with enabled wallet functionality"
          else "Rescans are not possible in pruned mode. You will need to use -reindex which will download the whole blockchain again.").
Proof.
  intros Hw Hm Hz Hp Hr. unfold WalletInit_ParameterInteraction.
  rewrite result_bind, result_gets_id, exec_gets_id. rewrite Hw, Hm. cbv zeta.
  rewrite result_bind, exec_when_soft_set. cbv beta.
  set (a1 := if GetBoolArg a "-blocksonly" (DEFAULT_BLOCKSONLY D) then _ else a).
  assert (F1 : forall k, "-walletbroadcast" <> k -> a1 !! k = a !! k)
    by (intros k Hk; by apply if_soft_other).
  rewrite result_bind, result_gets_id, exec_gets_id. cbv beta.
  rewrite (GetBoolArg_reads a1 a "-zapwallettxes") by (by apply F1).
  rewrite Hz. cbn [andb].
  rewrite result_bind, exec_when_soft_set. cbv beta. cbn [bool_arg].
  set (a2 := soft a1 _).
  assert (F2 : forall k, "-persistmempool" <> k -> a2 !! k = a1 !! k)
    by (intros k Hk; by apply soft_other).
  rewrite result_if. destruct (Nat.ltb 1 (length wallets)) eqn:Em; [reflexivity|].
  rewrite result_bind, exec_when_soft_set. cbv beta. cbn [bool_arg].
  set (a3 := soft a2 _).
  assert (F3 : forall k, "-rescan" <> k -> a3 !! k = a2 !! k)
    by (intros k Hk; by apply soft_other).
  assert (R3 : a3 !! "-rescan" = Some "1").
  { apply soft_fresh. by rewrite F2, F1. }
  rewrite result_bind, result_gets_id, exec_gets_id. cbv beta.
  assert (G3 : GetArg a3 "-rescan" 0 = 1%Z) by (unfold GetArg; by rewrite R3).
  rewrite G3. change (wrap32 1 <? 0)%Z with false. change (2 <? wrap32 1)%Z with false.
  cbn [orb when].
  rewrite result_bind. change (exec (ret tt) a3) with a3.
  rewrite result_bind, result_gets_id, exec_gets_id. cbv beta. cbn [andb].
  rewrite (GetBoolArg_reads a3 a "-sysperms") by (by rewrite F3, F2, F1).
  rewrite result_if. destruct (GetBoolArg a "-sysperms" false); [reflexivity|].
  rewrite (GetArg_reads a3 a "-prune") by (by rewrite F3, F2, F1).
  destruct (Z.eqb_spec (GetArg a "-prune" 0) 0) as [E | _]; [done|].
  unfold GetBoolArg at 1. rewrite R3. reflexivity.
Qed.

Lemma IPI_disablewallet a :
  IsArgSet a "-masternodeblsprivkey" = true ->
  IsArgSet (exec (InitParameterInteraction D) a) "-masternodeblsprivkey" = true /\
  GetBoolArg (exec (InitParameterInteraction D) a) "-disablewallet"
    (DEFAULT_DISABLE_WALLET W) = GetBoolArg a "-disablewallet" true.
Proof.
  intros Hm. split.
  { rewrite (IsArgSet_reads _ a); [done|].
    apply IPI_keeps. unfold interaction_targets. among. }
  rewrite IPI_steps, (run_steps_split 10).
  set (a10 := run_steps (take 10 (interaction_steps D)) a).
  assert (X : forall k, k ∉ concat (take 10 step_writes) -> a10 !! k = a !! k).
  { intros k Hk. subst a10. by apply (frames_before D 10). }
  change (run_steps (drop 10 (interaction_steps D)) a10)
    with (apply_rule rule_masternode a10).
  unfold apply_rule.
  change (guard rule_masternode a10) with (IsArgSet a10 "-masternodeblsprivkey").
  rewrite (IsArgSet_reads a10 a) by (apply X; cbn; among).
  rewrite Hm. change (sets rule_masternode) with [("-disablewallet", "1")].
  change (softs a10 [("-disablewallet", "1")]) with (soft a10 ("-disablewallet", "1")).
  unfold GetBoolArg.
  assert (E : a10 !! "-disablewallet" = a !! "-disablewallet") by (apply X; cbn; among).
  destruct (a !! "-disablewallet") as [v|] eqn:Ea.
  - by rewrite (soft_extends _ _ _ v).
  - by rewrite soft_fresh.
Qed.

(** X21: for a masternode, the parameter interaction of the wallet that
    follows [InitParameterInteraction] fails exactly when the user has
    turned [-disablewallet] off, and it leaves the store as it found it:
    left to itself a masternode runs with the wallet disabled. *)
Theorem masternode_runs_without_wallet a :
  IsArgSet a "-masternodeblsprivkey" = true ->
  let a' := exec (InitParameterInteraction D) a in
  result WPI a' =
    (if GetBoolArg a "-disablewallet" true then None
     else Some "You can not start a masternode with wallet enabled.") /\
  exec WPI a' = a'.
Proof.
  intros Hm a'. subst a'. destruct (IPI_disablewallet a Hm) as [Hk Hd].
  unfold WalletInit_ParameterInteraction.
  rewrite result_bind, exec_bind, result_gets_id, exec_gets_id. rewrite Hd, Hk.
  clear Hd Hk. generalize (exec (InitParameterInteraction D) a). intros a'.
  destruct (GetBoolArg a "-disablewallet" true); split; reflexivity.
Qed.

End WalletProofs.

(* ================================================================= *)
(** ** Examples for the theorems above *)

(** A proxy address passes through parameter interaction as given. *)
Lemma InitParameterInteraction_frame_witness :
  exec (InitParameterInteraction example_defaults)
    (<["-proxy" := "127.0.0.1:9050"]> ∅) !! "-proxy"
  = (<["-proxy" := "127.0.0.1:9050"]> ∅ : Args) !! "-proxy".
Proof.
  apply (InitParameterInteraction_frame example_defaults).
  unfold interaction_targets. among.
Defined.

(** Blocks-only mode turns whitelist relay off. *)
Lemma whitelistrelay_precedence_witness :
  exec (InitParameterInteraction example_defaults)
    (<["-blocksonly" := "1"]> ∅) !! "-whitelistrelay" = Some "0".
Proof.
  exact (whitelistrelay_precedence example_defaults
           (<["-blocksonly" := "1"]> ∅) eq_refl).
Defined.

(** With [-listen=0], port mapping is turned off. *)
Lemma not_listening_turns_off_witness :
  exec (InitParameterInteraction example_defaults)
    (<["-listen" := "0"]> ∅) !! "-upnp" = Some "0".
Proof.
  apply (not_listening_turns_off example_defaults).
  - vm_compute. reflexivity.
  - rewrite !elem_of_cons. by left.
  - reflexivity.
Defined.

(** 2000 connections asked for, 1024 descriptors granted. *)
Lemma connections_fit_descriptors_witness :
  let c := (trim_connections example_fd_limits 1 2000 grant_up_to_1024).2 in
  (nMaxConnections c + (150 + 8) <= nFD c)%Z.
Proof.
  assert (H1 : fd_limits_ok example_fd_limits) by (vm_compute; intuition discriminate).
  assert (H2 : (0 <= 1 < 2^20)%Z) by lia.
  assert (H3 : forall n, (0 <= grant_up_to_1024 n < 2^31)%Z)
    by (intros n; unfold grant_up_to_1024; lia).
  pose proof (connections_fit_descriptors example_fd_limits 1 2000
                grant_up_to_1024 H1 H2 H3) as H.
  cbv zeta in H. destruct H as [_ H].
  destruct (H eq_refl) as (_ & H' & _). exact H'.
Defined.

(** [-prune=1000] on the main network. *)
Lemma prune_target_accepted_witness :
  Prune.nPruneTarget (set_prune_target (945 * 2^20) 1000 false
                  {| Prune.nPruneTarget := 0; Prune.fPruneMode := false |}).2
  = (1000 * 2^20)%Z.
Proof.
  assert (H1 : (0 <= 945 * 2^20 < 2^64)%Z) by lia.
  assert (H3 : (- 2^63 <= 1000 < 2^63)%Z) by lia.
  pose proof (prune_target_accepted (945 * 2^20) 1000 false
                {| Prune.nPruneTarget := 0; Prune.fPruneMode := false |} H1 eq_refl H3) as H.
  cbv zeta in H. destruct H as (_ & _ & H).
  destruct H as [_ H]; [lia|]. destruct (H eq_refl) as [_ H']. exact H'.
Defined.

(** [-par=4294967297] on four cores is read as [-par=1]: no additional
    thread. *)
Lemma script_check_threads_bounds_witness :
  script_check_threads 15 4 4294967297 = 0%Z.
Proof.
  assert (H1 : (0 <= 15 < 2^31)%Z) by lia.
  assert (H2 : (1 <= 4 < 2^31)%Z) by lia.
  exact (proj1 (proj2 (script_check_threads_bounds 15 4 4294967297 H1 H2))).
Defined.

(** [-prune=550] alone passes the pruning check. *)
Lemma pruning_check_after_interaction_witness :
  prune_compatibility example_check_defaults
    (exec (InitParameterInteraction example_defaults) (<["-prune" := "550"]> ∅))
    true = None.
Proof.
  assert (H1 : (0 < GetArg (<["-prune" := "550"]> ∅ : Args) "-prune" 0)%Z)
    by (vm_compute; reflexivity).
  pose proof (pruning_check_after_interaction example_defaults
                example_check_defaults (<["-prune" := "550"]> ∅) true H1) as H.
  cbv zeta in H. destruct H as [H _]. apply H; reflexivity.
Defined.

(** A pruning masternode without transaction index. *)
Lemma pruned_masternode_rejected_witness :
  masternode_requirements example_defaults example_check_defaults true
    (<["-masternodeblsprivkey" := "key"]> (<["-prune" := "550"]>
       (<["-txindex" := "0"]> (<["-disablegovernance" := "1"]> ∅))))
  = Some "Masternode must have transaction index enabled, set -txindex=1".
Proof.
  assert (H1 : prune_compatibility example_check_defaults
    (<["-masternodeblsprivkey" := "key"]> (<["-prune" := "550"]>
       (<["-txindex" := "0"]> (<["-disablegovernance" := "1"]> ∅)))) true = None)
    by (vm_compute; reflexivity).
  apply (proj2 (pruned_masternode_rejected example_defaults
                  example_check_defaults true _ true H1)).
  - vm_compute. reflexivity.
  - vm_compute. discriminate.
Defined.

(** A masternode behind a proxy. *)
Lemma masternode_behind_proxy_rejected_witness :
  masternode_requirements example_defaults example_check_defaults true
    (exec (InitParameterInteraction example_defaults)
       (<["-masternodeblsprivkey" := "key"]>
          (<["-proxy" := "127.0.0.1:9050"]> ∅)))
  = Some "Masternode must accept connections from outside, set -listen=1".
Proof.
  apply (masternode_behind_proxy_rejected example_defaults
           example_check_defaults); vm_compute; reflexivity.
Defined.

(** A pruning node that serves bloom filters announces
    [NODE_BLOOM | NODE_NETWORK_LIMITED | NODE_HEADERS_COMPRESSED]. *)
Lemma announced_services_bits_witness :
  Z.testbit 3076 0 = false /\ Z.testbit 3076 10 = true.
Proof.
  assert (H1 : bits_ok upstream_bits 0 2 6 10 11).
  { repeat split; try reflexivity.
    - apply (bool_decide_unpack _). vm_compute. exact I.
    - repeat constructor; lia. }
  assert (H2 : announced_services upstream_bits false 0 true true = (None, 3076%Z))
    by (vm_compute; reflexivity).
  pose proof (announced_services_bits upstream_bits 0 2 6 10 11
                false 0 true true 3076 H1 H2) as (_ & Hn & Hl & _).
  exact (conj Hn Hl).
Defined.

(** [-onion=0] beside a proxy: the onion network is not reachable. *)
Lemma onion_reachability_witness :
  onion_reachable
    (setup_proxies example_lookup
       (<["-proxy" := "127.0.0.1:9050"]> (<["-onion" := "0"]> ∅)) no_proxies).2
  = false.
Proof.
  assert (H1 : setup_proxies example_lookup
       (<["-proxy" := "127.0.0.1:9050"]> (<["-onion" := "0"]> ∅)) no_proxies
     = (None, (setup_proxies example_lookup
       (<["-proxy" := "127.0.0.1:9050"]> (<["-onion" := "0"]> ∅)) no_proxies).2))
    by (vm_compute; reflexivity).
  pose proof (onion_reachability example_lookup _ no_proxies _ H1) as H.
  cbv zeta in H. destruct H as [H _]. rewrite H. vm_compute. reflexivity.
Defined.

(** Block file 2 goes, since block file 1 is missing. *)
Lemma cleanup_keeps_contiguous_run_witness :
  "blk00002.dat" ∈ CleanupBlockRevFiles example_blocksdir.
Proof.
  assert (H1 : forall it, it ∈ example_blocksdir -> names_like "blk" it = true ->
            all_digits (block_file_key it) = true).
  { intros it Hi _. unfold example_blocksdir in Hi.
    rewrite !elem_of_cons in Hi.
    destruct Hi as [-> | [-> | [-> | Hi]]];
      [reflexivity | reflexivity | reflexivity | by apply elem_of_nil in Hi]. }
  apply (proj2 (cleanup_keeps_contiguous_run example_blocksdir H1
                  {| filename := "blk00002.dat"; is_regular_file := true |}
                  ltac:(unfold example_blocksdir; rewrite !elem_of_cons; tauto) eq_refl)).
  exists 1%Z. split; [vm_compute; split; [discriminate | reflexivity]|].
  intros it Hi _. unfold example_blocksdir in Hi.
  rewrite !elem_of_cons in Hi.
  destruct Hi as [-> | [-> | [-> | Hi]]];
    [vm_compute; discriminate | vm_compute; discriminate
     | vm_compute; discriminate | by apply elem_of_nil in Hi].
Defined.

Lemma delete_removes : removes (fun k a => delete k a).
Proof.
  intros k a. split; [apply lookup_delete_eq|].
  intros k' Hk. by apply lookup_delete_ne.
Qed.

(** [-zapwallettxes] with [-prune=550]. *)
Lemma zapwallettxes_refused_when_pruning_witness :
  result example_wallet_interaction
    (<["-zapwallettxes" := "1"]> (<["-prune" := "550"]> ∅))
  = Some "Rescans are not possible in pruned mode. You will need to use -reindex which will download the whole blockchain again.".
Proof.
  unfold example_wallet_interaction.
  rewrite (zapwallettxes_refused_when_pruning (fun k a => delete k a) []
             (fun _ => true) (fun _ => true) example_defaults
             example_wallet_defaults);
    vm_compute; first [reflexivity | discriminate].
Defined.

(** [-rescan=5] is taken out of the store. *)
Lemma wallet_interaction_success_witness :
  (0 <= wrap32 (GetArg (exec example_wallet_interaction (<["-rescan" := "5"]> ∅))
                  "-rescan" 0) <= 2)%Z.
Proof.
  assert (H1 : GetBoolArg (<["-rescan" := "5"]> ∅ : Args) "-disablewallet"
                 (DEFAULT_DISABLE_WALLET example_wallet_defaults) = false)
    by (vm_compute; reflexivity).
  assert (H2 : result example_wallet_interaction (<["-rescan" := "5"]> ∅) = None)
    by (vm_compute; reflexivity).
  pose proof (wallet_interaction_success (fun k a => delete k a) []
                (fun _ => true) (fun _ => true) example_defaults
                example_wallet_defaults _ delete_removes H1 H2) as H.
  cbv zeta in H. destruct H as (_ & H & _). exact H.
Defined.

(** The prune target passes through the wallet's parameter interaction. *)
Lemma wallet_interaction_frame_witness :
  exec example_wallet_interaction
    (<["-zapwallettxes" := "1"]> (<["-prune" := "550"]> ∅)) !! "-prune"
  = (<["-zapwallettxes" := "1"]> (<["-prune" := "550"]> ∅) : Args) !! "-prune".
Proof.
  apply (wallet_interaction_frame (fun k a => delete k a) []
           (fun _ => true) (fun _ => true) example_defaults
           example_wallet_defaults _ _ delete_removes).
  unfold wallet_targets. among.
Defined.

(** A masternode with nothing said about the wallet. *)
Lemma masternode_runs_without_wallet_witness :
  result example_wallet_interaction
    (exec (InitParameterInteraction example_defaults)
       (<["-masternodeblsprivkey" := "key"]> ∅)) = None.
Proof.
  assert (H1 : IsArgSet (<["-masternodeblsprivkey" := "key"]> ∅ : Args)
                 "-masternodeblsprivkey" = true) by (vm_compute; reflexivity).
  pose proof (masternode_runs_without_wallet (fun k a => delete k a) []
                (fun _ => true) (fun _ => true) example_defaults
                example_wallet_defaults _ H1) as H.
  cbv zeta in H. destruct H as [H _].
  unfold example_wallet_interaction. rewrite H. vm_compute. reflexivity.
Defined.
